(** * Triton tutorial kernels: libdevice [asin] and block-pointer matmul

    A shallow embedding of the two tutorial notebooks:
    - the element-wise [asin_kernel] with its two launch cells, and
    - [matmul_kernel_with_block_pointers] with its autotuner declaration,
      the [matmul] wrapper and the unit-test cell.

    Device memory is a flat, element-addressed store together with the trace
    of the accesses the kernels perform.  Host integers are Python integers
    ([Z]); [//] and [%] are [Z.div] and [Z.modulo], which agree with Python
    on the non-negative operands that occur here.  The offsets that
    [asin_kernel] computes on the device are 32-bit integers and wrap around;
    block pointers carry 64-bit shapes, strides and offsets, which are kept
    in [Z].  Floating-point values are kept abstract: the element types and
    their operations are section variables. *)

From Stdlib Require Import ZArith List Lia Bool String DecimalString.
From stdpp Require Import base gmap.
Import ListNotations.
Local Open Scope Z_scope.

(** ** Device memory and the launch mechanism *)

Inductive event : Type :=
| Load (addr : Z)
| Store (addr : Z).

Record device (elt : Type) : Type := Device {
  mem : Z -> elt;
  trace : list event
}.
Arguments Device {elt} _ _.
Arguments mem {elt} _ _.
Arguments trace {elt} _.

Definition upd {elt : Type} (m : Z -> elt) (a : Z) (v : elt) : Z -> elt :=
  fun a' => if Z.eqb a' a then v else m a'.

(** [triton.cdiv(x, y)] is [(x + y - 1) // y]. *)
Definition cdiv (x y : Z) : Z := (x + y - 1) / y.

(** A value of the device type [int32]: the signed integer that the low 32
    bits of [z] stand for. *)
Definition wrap32 (z : Z) : Z := (z + 2 ^ 31) mod 2 ^ 32 - 2 ^ 31.

(** [tl.arange(lo, hi)]: the integers [lo, lo+1, ..., hi-1]. *)
Definition arange (lo hi : Z) : list Z :=
  map (fun n => lo + Z.of_nat n) (seq 0 (Z.to_nat (hi - lo))).

(** Programs run one after the other, in the given order. *)
Definition run_programs {elt : Type} (order : list Z)
    (kernel : Z -> device elt -> device elt) (d : device elt) : device elt :=
  fold_left (fun d pid => kernel pid d) order d.

(** [kernel[grid](...)]: one program per id [0 .. grid-1], here in
    increasing id order. *)
Definition launch {elt : Type} (grid : Z) (kernel : Z -> device elt -> device elt)
    (d : device elt) : device elt :=
  run_programs (arange 0 grid) kernel d.

(** Lanes of a masked access that are really performed. *)
Fixpoint masked (ptrs : list Z) (mask : list bool) : list Z :=
  match ptrs, mask with
  | p :: ptrs, b :: mask => if b then p :: masked ptrs mask else masked ptrs mask
  | _, _ => []
  end.

Fixpoint store_mem {elt : Type} (ptrs : list Z) (vals : list elt) (mask : list bool)
    (m : Z -> elt) : Z -> elt :=
  match ptrs, vals, mask with
  | p :: ptrs, v :: vals, b :: mask =>
      store_mem ptrs vals mask (if b then upd m p v else m)
  | _, _, _ => m
  end.

Fixpoint load_mem {elt : Type} (other : elt) (ptrs : list Z) (mask : list bool)
    (m : Z -> elt) : list elt :=
  match ptrs, mask with
  | p :: ptrs, b :: mask => (if b then m p else other) :: load_mem other ptrs mask m
  | _, _ => []
  end.

(** [tl.load(ptrs, mask=mask)]: masked-off lanes are not read and receive
    [other]. *)
Definition tl_load {elt : Type} (other : elt) (ptrs : list Z) (mask : list bool)
    (d : device elt) : list elt * device elt :=
  (load_mem other ptrs mask (mem d),
   Device (mem d) (trace d ++ map Load (masked ptrs mask))).

(** [tl.store(ptrs, vals, mask=mask)]: masked-off lanes are not written. *)
Definition tl_store {elt : Type} (ptrs : list Z) (vals : list elt) (mask : list bool)
    (d : device elt) : device elt :=
  Device (store_mem ptrs vals mask (mem d))
         (trace d ++ map Store (masked ptrs mask)).

(** The memory effect of a masked store whose pointers, values and mask are
    all computed lane by lane, as a fold over the lanes. *)
Definition store_lanes {L elt : Type} (fp : L -> Z) (fv : L -> elt) (fb : L -> bool)
    (l : list L) (m : Z -> elt) : Z -> elt :=
  fold_left (fun m x => if fb x then upd m (fp x) (fv x) else m) l m.

(** Python exceptions that the modelled cells can raise.  [ValueError] is
    what the launcher raises for a pointer argument that is not on the
    device. *)
Inductive exn : Type :=
| AssertionError (msg : option string)
| RuntimeError
| ValueError.

Inductive outcome (A : Type) : Type :=
| Done (a : A)
| Raise (e : exn).
Arguments Done {A} _.
Arguments Raise {A} _.

(** ** Notebook 1: libdevice [asin] *)

Module Libdevice.

(** A 1-D [torch] tensor: where its storage starts, how many elements it
    has, and whether it lives on the device. *)
Record tensor : Type := Tensor {
  data_ptr : Z;
  numel : Z;
  is_cuda : bool
}.

(** The two accesses of the kernel at offset [o]: the load from [x] and
    the store to [y]. *)
Definition asin_access (x_ptr y_ptr : Z) (o : Z) (ev : event) : Prop :=
  ev = Load (x_ptr + o) \/ ev = Store (y_ptr + o).

Section Asin.

(** [float32] values; [asin] is the device function [tl.math.asin],
    [undef] the value of a masked-off lane of a load without [other]. *)
Variable f32 : Type.
Variable asin : f32 -> f32.
Variable undef : f32.

(** [pid], [block_start] and [offsets] are [int32] on the device: the
    product and the sum wrap around.  The comparison with [n_elements] and
    the pointer arithmetic take the offset as the signed number it is. *)
Definition asin_offsets (BLOCK_SIZE pid : Z) : list Z :=
  let block_start := wrap32 (pid * BLOCK_SIZE) in
  map (fun lane => wrap32 (block_start + lane)) (arange 0 BLOCK_SIZE).

(** The accesses of program [pid], in the order in which it performs them:
    the loads of its unmasked lanes, then their stores. *)
Definition asin_events (x_ptr y_ptr n_elements BLOCK_SIZE pid : Z) : list event :=
  let unmasked := List.filter (fun o => o <? n_elements)
                              (asin_offsets BLOCK_SIZE pid) in
  map Load (map (Z.add x_ptr) unmasked) ++ map Store (map (Z.add y_ptr) unmasked).

Definition asin_kernel (x_ptr y_ptr n_elements BLOCK_SIZE : Z)
    (pid : Z) (d : device f32) : device f32 :=
  let offsets := asin_offsets BLOCK_SIZE pid in
  let mask := map (fun o => o <? n_elements) offsets in
  let '(x, d) := tl_load undef (map (Z.add x_ptr) offsets) mask d in
  let x := map asin x in
  tl_store (map (Z.add y_ptr) offsets) x mask d.

(** [grid = lambda meta: (triton.cdiv(n_elements, meta['BLOCK_SIZE']), )] *)
Definition grid (n_elements BLOCK_SIZE : Z) : Z := cdiv n_elements BLOCK_SIZE.

Definition asin_launch (x_ptr y_ptr n_elements BLOCK_SIZE : Z)
    (d : device f32) : device f32 :=
  launch (grid n_elements BLOCK_SIZE)
         (asin_kernel x_ptr y_ptr n_elements BLOCK_SIZE) d.

(** [asin_kernel[grid](x, y, n_elements, BLOCK_SIZE=...)] on tensors: the
    launcher refuses a tensor that is not on the device before any program
    runs. *)
Definition asin_kernel_call (x y : tensor) (n_elements BLOCK_SIZE : Z)
    (d : device f32) : outcome unit * device f32 :=
  if is_cuda x && is_cuda y then
    (Done tt, asin_launch (data_ptr x) (data_ptr y) n_elements BLOCK_SIZE d)
  else (Raise ValueError, d).

(** The host side of the two launch cells.  [torch_asin] is the reference
    routine, [fsub], [fabs] and [fmax] the tensor arithmetic of the
    comparison, [repr] and [fmt] what [print] shows for a tensor and for
    the scalar in the f-string. *)
Variable torch_asin : f32 -> f32.
Variable fsub : f32 -> f32 -> f32.
Variable fabs : f32 -> f32.
Variable fmax : f32 -> f32 -> f32.
Variable repr : list f32 -> string.
Variable fmt : f32 -> string.

Definition values (d : device f32) (t : tensor) : list f32 :=
  map (fun i => mem d (data_ptr t + i)) (arange 0 (numel t)).

(** [a - b] on tensors of the same size. *)
Definition tensor_sub (a b : list f32) : list f32 :=
  map (fun p => fsub (fst p) (snd p)) (combine a b).

(** [torch.max(t)] of all elements; an empty tensor has no maximum. *)
Definition torch_max (t : list f32) : option f32 :=
  match t with
  | [] => None
  | v :: t => Some (fold_left fmax t v)
  end.

Definition max_difference_message (output_torch output_triton : list f32)
    : option string :=
  match torch_max (map fabs (tensor_sub output_torch output_triton)) with
  | Some m =>
      Some ("The maximum difference between torch and triton is " ++ fmt m)%string
  | None => None
  end.

(** The printing tail shared by both cells. *)
Definition compare_and_print (output_torch : list f32) (output_triton : tensor)
    (d : device f32) : outcome (list string) * device f32 :=
  let out := values d output_triton in
  match max_difference_message output_torch out with
  | Some msg => (Done [repr output_torch; repr out; msg], d)
  | None => (Raise RuntimeError, d)
  end.

(** Cell "Using the default libdevice library path", from the [assert] on;
    [x] and [output_triton] are the tensors made by [torch.rand] and
    [torch.zeros], [output_torch = torch.asin(x)]. *)
Definition default_path (x output_triton : tensor) (d : device f32)
    : outcome (list string) * device f32 :=
  let output_torch := map torch_asin (values d x) in
  if negb (is_cuda x && is_cuda output_triton) then
    (Raise (AssertionError None), d)
  else
    let n_elements := numel x in
    match asin_kernel_call x output_triton n_elements 1024 d with
    | (Done _, d) => compare_and_print output_torch output_triton d
    | (Raise e, d) => (Raise e, d)
    end.

(** [torch.empty_like(x)]: same size and device as [x], storage at the
    address [p] that the allocator hands out. *)
Definition empty_like (x : tensor) (p : Z) : tensor :=
  Tensor p (numel x) (is_cuda x).

(** Cell "Customize the libdevice library path".  [extern_libs] only
    chooses the bitcode file that provides [asin].  [x], [output_torch],
    [n_elements] and [grid] are the ones the previous cell left behind; the
    cell has no [assert] of its own. *)
Definition custom_path (x : tensor) (p : Z) (d : device f32)
    : outcome (list string) * device f32 :=
  let output_torch := map torch_asin (values d x) in
  let n_elements := numel x in
  let output_triton := empty_like x p in
  match asin_kernel_call x output_triton n_elements 1024 d with
  | (Done _, d) => compare_and_print output_torch output_triton d
  | (Raise e, d) => (Raise e, d)
  end.

End Asin.
End Libdevice.

(** ** Notebook 2: block-pointer matmul *)

Module BlockPointer.

(** One [triton.Config]: the meta-parameters and the two launch options. *)
Record Config : Type := mkConfig {
  BLOCK_SIZE_M : Z;
  BLOCK_SIZE_N : Z;
  BLOCK_SIZE_K : Z;
  GROUP_SIZE_M : Z;
  num_stages : Z;
  num_warps : Z
}.

(** The [configs=[...]] list of the [@triton.autotune] decorator. *)
Definition configs : list Config :=
  [ mkConfig 128 256 64 8 4 4;
    mkConfig 64 256 32 8 4 4;
    mkConfig 128 128 32 8 4 4;
    mkConfig 128 64 32 8 4 4;
    mkConfig 64 128 32 8 4 4;
    mkConfig 128 32 32 8 4 4;
    mkConfig 64 32 32 8 5 2;
    mkConfig 32 64 32 8 5 2 ].

(** The [key=[...]] list of the decorator. *)
Definition key : list string := ["M"; "N"; "K"]%string.

(** The kernel's integer arguments by name, as the autotuner looks them up. *)
Definition key_values (M N K : Z) : list Z :=
  map (fun name =>
         if String.eqb name "M" then M
         else if String.eqb name "N" then N
         else K) key.

(** A 2-D [torch] tensor: storage start, shape and strides (in elements). *)
Record tensor : Type := Tensor {
  data_ptr : Z;
  shape : Z * Z;
  stride : Z * Z
}.

(** [t.is_contiguous()] for a 2-D tensor: an empty tensor is contiguous;
    otherwise, from the last axis to the first, every axis of size other than
    1 must have the stride of a dense row-major layout. *)
Definition is_contiguous (t : tensor) : bool :=
  let '(s0, s1) := shape t in
  let '(st0, st1) := stride t in
  if (s0 * s1 =? 0) then true
  else
    let ok1 := (s1 =? 1) || (st1 =? 1) in
    let z := if s1 =? 1 then 1 else s1 in
    let ok0 := (s0 =? 1) || (st0 =? z) in
    ok1 && ok0.

(** A block pointer, as made by [tl.make_block_ptr]. *)
Record block_ptr : Type := make_block_ptr {
  base : Z;
  parent_shape : Z * Z;
  strides : Z * Z;
  offsets : Z * Z;
  block_shape : Z * Z;
  order : Z * Z
}.

(** [tl.advance(p, (d0, d1))]: the same pointer with its offsets moved. *)
Definition advance (p : block_ptr) (delta : Z * Z) : block_ptr :=
  make_block_ptr (base p) (parent_shape p) (strides p)
                 (fst (offsets p) + fst delta, snd (offsets p) + snd delta)
                 (block_shape p) (order p).

(** The lanes of a block, row by row. *)
Definition lanes (bs : Z * Z) : list (Z * Z) :=
  list_prod (arange 0 (fst bs)) (arange 0 (snd bs)).

(** Position in the parent tensor and address of a lane. *)
Definition lane_index (p : block_ptr) (l : Z * Z) : Z * Z :=
  (fst (offsets p) + fst l, snd (offsets p) + snd l).

Definition lane_addr (p : block_ptr) (l : Z * Z) : Z :=
  let '(i, j) := lane_index p l in
  base p + i * fst (strides p) + j * snd (strides p).

Definition axis_checked (boundary_check : list Z) (axis : Z) : bool :=
  existsb (Z.eqb axis) boundary_check.

(** A lane passes the boundary check when, on every checked axis, its
    position lies inside the parent tensor's shape. *)
Definition lane_ok (boundary_check : list Z) (p : block_ptr) (l : Z * Z) : bool :=
  let '(i, j) := lane_index p l in
  (negb (axis_checked boundary_check 0)
   || ((0 <=? i) && (i <? fst (parent_shape p))))
  && (negb (axis_checked boundary_check 1)
      || ((0 <=? j) && (j <? snd (parent_shape p)))).

(** A block of values: its shape and its lanes. *)
Record block (elt : Type) : Type := Block {
  bshape : Z * Z;
  bval : Z -> Z -> elt
}.
Arguments Block {elt} _ _.
Arguments bshape {elt} _.
Arguments bval {elt} _ _ _.

(** Python's [range(start, stop, step)] for a positive step. *)
Definition range (start stop step : Z) : list Z :=
  map (fun n => start + Z.of_nat n * step)
      (seq 0 (Z.to_nat (cdiv (stop - start) step))).

(** The grouped mapping in terms of the numbers of tiles [Nm] along M and
    [Nn] along N, with [G] for [GROUP_SIZE_M]. *)
Definition tile (Nm Nn G pid : Z) : Z * Z :=
  let gid := pid / (G * Nn) in
  let gsz := Z.min (Nm - gid * G) G in
  (gid * G + pid mod gsz, (pid mod (G * Nn)) / gsz).

(** The elements of a strided 2-D tensor: [addr] is the address of one of
    them. *)
Definition in_tensor (base : Z) (sh st : Z * Z) (addr : Z) : Prop :=
  exists i j, 0 <= i < fst sh /\ 0 <= j < snd sh
              /\ addr = base + i * fst st + j * snd st.

(** The grouped mapping from [pid] to [(pid_m, pid_n)]. *)
Definition pid_to_tile (M N BLOCK_SIZE_M BLOCK_SIZE_N GROUP_SIZE_M pid : Z) : Z * Z :=
  let num_pid_m := cdiv M BLOCK_SIZE_M in
  let num_pid_n := cdiv N BLOCK_SIZE_N in
  let num_pid_in_group := GROUP_SIZE_M * num_pid_n in
  let group_id := pid / num_pid_in_group in
  let first_pid_m := group_id * GROUP_SIZE_M in
  let group_size_m := Z.min (num_pid_m - first_pid_m) GROUP_SIZE_M in
  let pid_m := first_pid_m + (pid mod group_size_m) in
  let pid_n := (pid mod num_pid_in_group) / group_size_m in
  (pid_m, pid_n).

(** The C block pointer of the tile [(pid_m, pid_n)]. *)
Definition c_block_ptr_at (c_ptr M N stride_cm stride_cn BM BN : Z)
    (pid_m pid_n : Z) : block_ptr :=
  make_block_ptr c_ptr (M, N) (stride_cm, stride_cn)
                 (pid_m * BM, pid_n * BN) (BM, BN) (1, 0).

(** The positions of C that program [pid] stores to: the lanes of its
    C block pointer that pass the boundary check. *)
Definition program_writes (c_ptr M N stride_cm stride_cn : Z)
    (BLOCK_SIZE_M BLOCK_SIZE_N GROUP_SIZE_M pid : Z) : list (Z * Z) :=
  let '(pid_m, pid_n) :=
    pid_to_tile M N BLOCK_SIZE_M BLOCK_SIZE_N GROUP_SIZE_M pid in
  let c_block_ptr :=
    c_block_ptr_at c_ptr M N stride_cm stride_cn BLOCK_SIZE_M BLOCK_SIZE_N
                   pid_m pid_n in
  map (lane_index c_block_ptr)
      (List.filter (lane_ok [0; 1] c_block_ptr)
                   (lanes (BLOCK_SIZE_M, BLOCK_SIZE_N))).

(** The two block pointers of the tile [(pid_m, pid_n)] after [n] iterations
    of the K loop. *)
Definition a_block_ptr_at (a_ptr M K stride_am stride_ak BM BK : Z)
    (pid_m : Z) (n : nat) : block_ptr :=
  make_block_ptr a_ptr (M, K) (stride_am, stride_ak)
                 (pid_m * BM, Z.of_nat n * BK) (BM, BK) (1, 0).

Definition b_block_ptr_at (b_ptr N K stride_bk stride_bn BN BK : Z)
    (pid_n : Z) (n : nat) : block_ptr :=
  make_block_ptr b_ptr (K, N) (stride_bk, stride_bn)
                 (Z.of_nat n * BK, pid_n * BN) (BK, BN) (1, 0).

(** A load of an element of A or of B. *)
Definition input_load (a_ptr b_ptr M N K stride_am stride_ak stride_bk stride_bn : Z)
    (ev : event) : Prop :=
  exists addr, ev = Load addr
               /\ (in_tensor a_ptr (M, K) (stride_am, stride_ak) addr
                   \/ in_tensor b_ptr (K, N) (stride_bk, stride_bn) addr).

(** A store to an element of C. *)
Definition output_store (c_ptr M N stride_cm stride_cn : Z) (ev : event) : Prop :=
  exists addr, ev = Store addr
               /\ in_tensor c_ptr (M, N) (stride_cm, stride_cn) addr.

Section Matmul.

(** [float16] elements and the [float32] accumulator type with its
    arithmetic; [pad] is what a boundary-checked load puts in the lanes
    that fail the check. *)
Variable f16 f32 : Type.
Variable zero : f32.
Variable fadd fmul : f32 -> f32 -> f32.
Variable to_f32 : f16 -> f32.
Variable to_f16 : f32 -> f16.
Variable pad : f16.

(** [tl.load(p, boundary_check=...)] *)
Definition load_block (p : block_ptr) (boundary_check : list Z) (d : device f16)
    : block f16 * device f16 :=
  let ls := lanes (block_shape p) in
  (Block (block_shape p)
         (fun li lj => if lane_ok boundary_check p (li, lj)
                       then mem d (lane_addr p (li, lj)) else pad),
   Device (mem d)
          (trace d ++ map Load (masked (map (lane_addr p) ls)
                                       (map (lane_ok boundary_check p) ls)))).

(** [tl.store(p, c, boundary_check=...)] *)
Definition store_block (p : block_ptr) (c : block f16) (boundary_check : list Z)
    (d : device f16) : device f16 :=
  let ls := lanes (block_shape p) in
  tl_store (map (lane_addr p) ls)
           (map (fun l => bval c (fst l) (snd l)) ls)
           (map (lane_ok boundary_check p) ls) d.

(** [tl.zeros(shape, dtype=tl.float32)] *)
Definition zeros (sh : Z * Z) : block f32 := Block sh (fun _ _ => zero).

(** [tl.dot(a, b)] of two [float16] blocks, with [float32] result: the
    products are summed along the shared axis, from lane 0 upwards. *)
Definition dot (a b : block f16) : block f32 :=
  Block (fst (bshape a), snd (bshape b))
        (fun i j =>
           fold_left (fun s kk => fadd s (fmul (to_f32 (bval a i kk))
                                               (to_f32 (bval b kk j))))
                     (arange 0 (snd (bshape a))) zero).

(** [x += y] on blocks. *)
Definition block_add (x y : block f32) : block f32 :=
  Block (bshape x) (fun i j => fadd (bval x i j) (bval y i j)).

(** [x.to(tl.float16)] *)
Definition to_float16 (x : block f32) : block f16 :=
  Block (bshape x) (fun i j => to_f16 (bval x i j)).

(** The state of the K loop: accumulator, both block pointers, device. *)
Definition loop_state : Type :=
  (block f32 * block_ptr * block_ptr * device f16)%type.

Definition k_body (BLOCK_SIZE_K : Z) (st : loop_state) (k : Z) : loop_state :=
  let '(accumulator, a_block_ptr, b_block_ptr, d) := st in
  let '(a, d) := load_block a_block_ptr [0; 1] d in
  let '(b, d) := load_block b_block_ptr [0; 1] d in
  let accumulator := block_add accumulator (dot a b) in
  let a_block_ptr := advance a_block_ptr (0, BLOCK_SIZE_K) in
  let b_block_ptr := advance b_block_ptr (BLOCK_SIZE_K, 0) in
  (accumulator, a_block_ptr, b_block_ptr, d).

(** [for k in range(0, K, BLOCK_SIZE_K): ...] *)
Definition k_loop (K BLOCK_SIZE_K : Z) (st : loop_state) : loop_state :=
  fold_left (k_body BLOCK_SIZE_K) (range 0 K BLOCK_SIZE_K) st.

(** The loop state of the tile [(pid_m, pid_n)] after the first [n]
    iterations. *)
Definition iterations (a_ptr b_ptr M N K : Z)
    (stride_am stride_ak stride_bk stride_bn : Z) (BM BN BK : Z)
    (pid_m pid_n : Z) (d : device f16) (n : nat) : loop_state :=
  fold_left (k_body BK) (map (fun i => 0 + Z.of_nat i * BK) (seq 0 n))
            (zeros (BM, BN),
             a_block_ptr_at a_ptr M K stride_am stride_ak BM BK pid_m 0,
             b_block_ptr_at b_ptr N K stride_bk stride_bn BN BK pid_n 0, d).

Definition matmul_kernel_with_block_pointers
    (a_ptr b_ptr c_ptr : Z) (M N K : Z)
    (stride_am stride_ak stride_bk stride_bn stride_cm stride_cn : Z)
    (BLOCK_SIZE_M BLOCK_SIZE_N BLOCK_SIZE_K GROUP_SIZE_M : Z)
    (pid : Z) (d : device f16) : device f16 :=
  let '(pid_m, pid_n) :=
    pid_to_tile M N BLOCK_SIZE_M BLOCK_SIZE_N GROUP_SIZE_M pid in
  let a_block_ptr :=
    make_block_ptr a_ptr (M, K) (stride_am, stride_ak)
                   (pid_m * BLOCK_SIZE_M, 0) (BLOCK_SIZE_M, BLOCK_SIZE_K) (1, 0) in
  let b_block_ptr :=
    make_block_ptr b_ptr (K, N) (stride_bk, stride_bn)
                   (0, pid_n * BLOCK_SIZE_N) (BLOCK_SIZE_K, BLOCK_SIZE_N) (1, 0) in
  let accumulator := zeros (BLOCK_SIZE_M, BLOCK_SIZE_N) in
  let '(accumulator, _, _, d) :=
    k_loop K BLOCK_SIZE_K (accumulator, a_block_ptr, b_block_ptr, d) in
  let c := to_float16 accumulator in
  let c_block_ptr :=
    make_block_ptr c_ptr (M, N) (stride_cm, stride_cn)
                   (pid_m * BLOCK_SIZE_M, pid_n * BLOCK_SIZE_N)
                   (BLOCK_SIZE_M, BLOCK_SIZE_N) (1, 0) in
  store_block c_block_ptr c [0; 1] d.

(** *** What the kernel is meant to compute *)

(** Sum of the terms [f k] for [k] in [l], added to [s] from the left. *)
Definition fsum (f : Z -> f32) (l : list Z) (s : f32) : f32 :=
  fold_left (fun s k => fadd s (f k)) l s.

(** Entry [(i, j)] of the product of the [(M, K)] matrix at [a_ptr] and
    the [(K, N)] matrix at [b_ptr], in [float32]:
    the sum over [k = 0 .. K-1] of [A[i][k] * B[k][j]]. *)
Definition product_entry (m : Z -> f16) (a_ptr b_ptr K : Z)
    (stride_a stride_b : Z * Z) (i j : Z) : f32 :=
  fsum (fun k => fmul (to_f32 (m (a_ptr + i * fst stride_a + k * snd stride_a)))
                      (to_f32 (m (b_ptr + k * fst stride_b + j * snd stride_b))))
       (arange 0 K) zero.

(** The same entry for two tensors, as a [float16] value. *)
Definition matrix_product (m : Z -> f16) (a b : tensor) (i j : Z) : f16 :=
  to_f16 (product_entry m (data_ptr a) (data_ptr b) (snd (shape a))
                        (stride a) (stride b) i j).

(** Element [(i, j)] of a tensor. *)
Definition elem (m : Z -> f16) (t : tensor) (i j : Z) : f16 :=
  m (data_ptr t + i * fst (stride t) + j * snd (stride t)).

(** *** What the K loop accumulates *)

(** What position [k] along K contributes to entry [(i, j)]: inside K the
    product of [A[i][k]] and [B[k][j]]; beyond K, where the loads of both
    blocks fail their boundary check, the product of two padding values. *)
Definition padded_term (m : Z -> f16) (a_ptr b_ptr K : Z)
    (stride_a stride_b : Z * Z) (i j k : Z) : f32 :=
  if (0 <=? k) && (k <? K)
  then fmul (to_f32 (m (a_ptr + i * fst stride_a + k * snd stride_a)))
            (to_f32 (m (b_ptr + k * fst stride_b + j * snd stride_b)))
  else fmul (to_f32 pad) (to_f32 pad).

(** Entry [(i, j)] as the loop accumulates it: for
    [k0 = 0, BLOCK_SIZE_K, ...] below [K], the sum of the [BLOCK_SIZE_K]
    terms from [k0] on, itself started at [zero], is added to the
    accumulator. *)
Definition accumulated_entry (m : Z -> f16) (a_ptr b_ptr K : Z)
    (stride_a stride_b : Z * Z) (BLOCK_SIZE_K : Z) (i j : Z) : f32 :=
  fold_left
    (fun acc k0 =>
       fadd acc (fsum (padded_term m a_ptr b_ptr K stride_a stride_b i j)
                      (arange k0 (k0 + BLOCK_SIZE_K)) zero))
    (range 0 K BLOCK_SIZE_K) zero.

(** The same accumulation over the positions inside K only. *)
Definition inside_entry (m : Z -> f16) (a_ptr b_ptr K : Z)
    (stride_a stride_b : Z * Z) (BLOCK_SIZE_K : Z) (i j : Z) : f32 :=
  fold_left
    (fun acc k0 =>
       fadd acc
         (fsum (fun k =>
                  fmul (to_f32 (m (a_ptr + i * fst stride_a + k * snd stride_a)))
                       (to_f32 (m (b_ptr + k * fst stride_b + j * snd stride_b))))
               (arange k0 (Z.min (k0 + BLOCK_SIZE_K) K)) zero))
    (range 0 K BLOCK_SIZE_K) zero.

(** *** Host side *)

(** Modelled from the spec: the autotuner behind [@triton.autotune] is not
    part of the notebooks.  As the spec describes it, it selects among the
    fixed list [configs] and caches the selection by key: a key that is in
    the cache gets the cached configuration; otherwise every configuration
    is timed ([bench], the measurement of this launch), the first fastest
    one is selected and stored under the key. *)
Definition fastest (bench : Config -> Z) (cs : list Config) (c0 : Config) : Config :=
  fold_left (fun best c => if bench c <? bench best then c else best) cs c0.

Definition autotune (bench : Config -> Z) (k : list Z)
    (cache : gmap (list Z) Config) : Config * gmap (list Z) Config :=
  match cache !! k with
  | Some c => (c, cache)
  | None =>
      let c := match configs with
               | c0 :: cs => fastest bench cs c0
               | [] => mkConfig 0 0 0 0 0 0
               end in
      (c, <[k := c]> cache)
  end.

(** The host state: device memory, the first address the allocator has not
    handed out yet, and the autotuner's cache. *)
Record host : Type := Host {
  dev : device f16;
  brk : Z;
  cache : gmap (list Z) Config
}.

(** [torch.empty(shape, ...)]: fresh storage with dense row-major strides;
    its contents are whatever the memory holds. *)
Definition torch_empty (sh : Z * Z) (h : host) : tensor * host :=
  (Tensor (brk h) sh (Z.max (snd sh) 1, 1),
   Host (dev h) (brk h + fst sh * snd sh) (cache h)).

Definition matmul (bench : Config -> Z) (a b : tensor) (h : host)
    : outcome tensor * host :=
  if negb (snd (shape a) =? fst (shape b)) then
    (Raise (AssertionError (Some "Incompatible dimensions"%string)), h)
  else if negb (is_contiguous a) then
    (Raise (AssertionError (Some "Matrix A must be contiguous"%string)), h)
  else if negb (is_contiguous b) then
    (Raise (AssertionError (Some "Matrix B must be contiguous"%string)), h)
  else
    let '(M, K) := shape a in
    let '(K, N) := shape b in
    let '(c, h) := torch_empty (M, N) h in
    let grid := fun META =>
      cdiv M (BLOCK_SIZE_M META) * cdiv N (BLOCK_SIZE_N META) in
    let '(META, tuned) := autotune bench (key_values M N K) (cache h) in
    let d :=
      launch (grid META)
             (matmul_kernel_with_block_pointers
                (data_ptr a) (data_ptr b) (data_ptr c)
                M N K
                (fst (stride a)) (snd (stride a))
                (fst (stride b)) (snd (stride b))
                (fst (stride c)) (snd (stride c))
                (BLOCK_SIZE_M META) (BLOCK_SIZE_N META)
                (BLOCK_SIZE_K META) (GROUP_SIZE_M META))
             (dev h) in
    (Done c, Host d (brk h) tuned).

(** Every cached selection is one of the declared configurations. *)
Definition cache_ok (c : gmap (list Z) Config) : Prop :=
  forall k cfg, c !! k = Some cfg -> In cfg configs.

(** Every element of [t] lies in storage that was handed out before. *)
Definition allocated (h : host) (t : tensor) : Prop :=
  forall addr, in_tensor (data_ptr t) (shape t) (stride t) addr -> addr < brk h.

(** The configuration that a launch for dimensions [(M, N, K)] runs with
    in host state [h]. *)
Definition selected_config (bench : Config -> Z) (M N K : Z) (h : host) : Config :=
  fst (autotune bench (key_values M N K) (cache h)).

(** The unit-test cell.  [torch_matmul] is the reference routine,
    [isclose x y] the element test of [torch.allclose] at [atol=1e-2],
    [rtol=0], and [repr] what an f-string shows for a tensor. *)
Variable torch_matmul : (Z -> f16) -> tensor -> tensor -> list f16.
Variable isclose : f16 -> f16 -> bool.
Variable repr : list f16 -> string.

Definition values (m : Z -> f16) (t : tensor) : list f16 :=
  map (fun l => m (data_ptr t + fst l * fst (stride t) + snd l * snd (stride t)))
      (lanes (shape t)).

Definition allclose (x y : list f16) : bool :=
  forallb (fun p => isclose (fst p) (snd p)) (combine x y).

Definition match_message : string := "✅ Triton and Torch match".
Definition differ_message : string := "❌ Triton and Torch differ".

Definition unit_test (bench : Config -> Z) (a b : tensor) (h : host)
    : outcome (list string) * host :=
  let '(r, h) := matmul bench a b h in
  match r with
  | Raise e => (Raise e, h)
  | Done c =>
      let triton_output := values (mem (dev h)) c in
      let torch_output := torch_matmul (mem (dev h)) a b in
      (Done [ ("triton_output=" ++ repr triton_output)%string;
              ("torch_output=" ++ repr torch_output)%string;
              if allclose triton_output torch_output
              then match_message else differ_message ],
       h)
  end.

End Matmul.
End BlockPointer.

(** ** Sample data: integers in place of floating-point values *)

Module Sample.

(** Memory that holds, at every address, the address itself. *)
Definition d0 : device Z := Device (fun a => a) [].

(** A [(2, 3)] and a [(3, 2)] matrix, one after the other, and the host state
    in which both are allocated. *)
Definition a : BlockPointer.tensor := BlockPointer.Tensor 0 (2, 3) (3, 1).
Definition b : BlockPointer.tensor := BlockPointer.Tensor 6 (3, 2) (2, 1).
Definition h : BlockPointer.host Z := BlockPointer.Host Z d0 12 ∅.

(** Timings that make the first configuration the fastest. *)
Definition bench : BlockPointer.Config -> Z := fun _ => 0.

Definition matmul :=
  BlockPointer.matmul Z Z 0 Z.add Z.mul (fun x => x) (fun x => x) 0.

(** The kernel on [(3, 3)] matrices at addresses 0, 9 and 18, with 2 x 2
    blocks, [BLOCK_SIZE_K = 2] and groups of 2. *)
Definition program : Z -> device Z -> device Z :=
  BlockPointer.matmul_kernel_with_block_pointers
    Z Z 0 Z.add Z.mul (fun x => x) (fun x => x) 0
    0 9 18 3 3 3 3 1 3 1 3 1 2 2 2 2.

(** A four-element device tensor, and the last [asin] cell with integers
    for values: [print] shows a tensor as the word tensor and a number in
    decimal. *)
Definition x_gpu : Libdevice.tensor := Libdevice.Tensor 0 4 true.

Definition fmt (z : Z) : string := NilZero.string_of_int (Z.to_int z).

Definition custom_path (asin torch_asin : Z -> Z) :=
  Libdevice.custom_path Z asin 0 torch_asin Z.sub Z.abs Z.max
    (fun _ => "tensor"%string) fmt.

(** Floating-point arithmetic on integer values.  An integer of at most
    [p] significant bits is a value of the binary format with a [p]-bit
    significand (below its overflow threshold), and IEEE 754 addition and
    multiplication return the exact result rounded to nearest, ties to
    even: [round_to p] is that rounding on an integer.  [float32] has 24
    significant bits, [float16] has 11. *)
Definition round_to (p z : Z) : Z :=
  let m := Z.abs z in
  if m <? 2 ^ p then z
  else
    let e := Z.log2 m + 1 - p in
    let q := m / 2 ^ e in
    let r := m mod 2 ^ e in
    let half := 2 ^ (e - 1) in
    let q := if r <? half then q
             else if half <? r then q + 1
             else if Z.even q then q else q + 1 in
    Z.sgn z * (q * 2 ^ e).

Definition fadd32 (x y : Z) : Z := round_to 24 (x + y).
Definition fmul32 (x y : Z) : Z := round_to 24 (x * y).

(** [matmul] with [float32] rounding in the accumulator, the conversion to
    [float16] at the end, and zero for padding. *)
Definition matmul_rounding :=
  BlockPointer.matmul Z Z 0 fadd32 fmul32 (fun x => x) (round_to 11) 0.

(** A [(1, 193)] row [A] and a [(193, 1)] column [B] of [float16] values,
    zero except at [k = 0, 64, 128, 192]:
    [A = [4096, .., 1, .., -4096, .., 1]] and
    [B = [4096, .., 1, .., 4096, .., 1]]. *)
Definition row : BlockPointer.tensor := BlockPointer.Tensor 0 (1, 193) (193, 1).
Definition col : BlockPointer.tensor := BlockPointer.Tensor 193 (193, 1) (1, 1).

Definition row_col_mem (addr : Z) : Z :=
  match addr with
  | 0 => 4096 | 64 => 1 | 128 => -4096 | 192 => 1
  | 193 => 4096 | 257 => 1 | 321 => 4096 | 385 => 1
  | _ => 0
  end.

Definition row_col : BlockPointer.host Z :=
  BlockPointer.Host Z (Device row_col_mem []) 386 ∅.

End Sample.

(** * Properties *)

(** ** Lists of lanes, masked stores, launches *)

Lemma In_arange (lo hi x : Z) : In x (arange lo hi) <-> lo <= x < hi.
Proof.
  unfold arange. rewrite in_map_iff. split.
  - intros (n & <- & Hn). apply in_seq in Hn. lia.
  - intros H. exists (Z.to_nat (x - lo)). split; [lia|].
    apply in_seq. lia.
Qed.

Lemma arange_empty (lo hi : Z) : hi <= lo -> arange lo hi = [].
Proof.
  intros H. unfold arange. replace (Z.to_nat (hi - lo)) with 0%nat by lia.
  reflexivity.
Qed.

Lemma store_mem_map {L elt : Type} (fp : L -> Z) (fv : L -> elt) (fb : L -> bool)
    (l : list L) (m : Z -> elt) :
  store_mem (map fp l) (map fv l) (map fb l) m = store_lanes fp fv fb l m.
Proof.
  revert m. induction l as [|x l IH]; intros m; simpl; [reflexivity|].
  apply IH.
Qed.

Lemma masked_map {L : Type} (fp : L -> Z) (fb : L -> bool) (l : list L) :
  masked (map fp l) (map fb l) = map fp (List.filter fb l).
Proof.
  induction l as [|x l IH]; simpl; [reflexivity|].
  destruct (fb x); simpl; rewrite IH; reflexivity.
Qed.

Lemma load_mem_map {L elt : Type} (other : elt) (fp : L -> Z) (fb : L -> bool)
    (l : list L) (m : Z -> elt) :
  load_mem other (map fp l) (map fb l) m
  = map (fun x => if fb x then m (fp x) else other) l.
Proof.
  induction l as [|x l IH]; simpl; [reflexivity|]. rewrite IH. reflexivity.
Qed.

Lemma upd_eq {elt : Type} (m : Z -> elt) (a : Z) (v : elt) : upd m a v a = v.
Proof. unfold upd. rewrite Z.eqb_refl. reflexivity. Qed.

Lemma upd_neq {elt : Type} (m : Z -> elt) (a a' : Z) (v : elt) :
  a' <> a -> upd m a v a' = m a'.
Proof. intros H. unfold upd. destruct (Z.eqb_spec a' a); congruence. Qed.

Lemma store_lanes_miss {L elt : Type} (fp : L -> Z) (fv : L -> elt) (fb : L -> bool)
    (l : list L) (m : Z -> elt) (a : Z) :
  (forall x, In x l -> fb x = true -> fp x <> a) ->
  store_lanes fp fv fb l m a = m a.
Proof.
  unfold store_lanes. revert m. induction l as [|x l IH]; intros m H; simpl.
  - reflexivity.
  - rewrite IH by (intros y Hy; apply H; right; exact Hy).
    destruct (fb x) eqn:E; [|reflexivity].
    apply upd_neq. intros Heq. apply (H x); [left; reflexivity|exact E|auto].
Qed.

(** When every lane that writes address [a] writes the same value, that value
    is what the store leaves there. *)
Lemma store_lanes_hit {L elt : Type} (fp : L -> Z) (fv : L -> elt) (fb : L -> bool)
    (l : list L) (m : Z -> elt) (a : Z) (v : elt) :
  (exists x, In x l /\ fb x = true /\ fp x = a) ->
  (forall y, In y l -> fb y = true -> fp y = a -> fv y = v) ->
  store_lanes fp fv fb l m a = v.
Proof.
  unfold store_lanes. induction l as [|z l IH] using rev_ind.
  - intros (x & [] & _).
  - intros (x & Hx & Hb & Ha) Hall.
    rewrite fold_left_app. simpl.
    destruct (fb z) eqn:Ez.
    + destruct (Z.eq_dec (fp z) a) as [Hz|Hz].
      * rewrite <- Hz at 1. rewrite Hz, upd_eq.
        apply Hall; [apply in_or_app; right; left; reflexivity|exact Ez|exact Hz].
      * rewrite upd_neq by congruence.
        apply IH.
        -- exists x. apply in_app_or in Hx. destruct Hx as [Hx|[Hx|[]]].
           ++ tauto.
           ++ subst z. contradiction.
        -- intros y Hy. apply Hall. apply in_or_app. left. exact Hy.
    + apply IH.
      * exists x. apply in_app_or in Hx. destruct Hx as [Hx|[Hx|[]]].
        -- tauto.
        -- subst z. congruence.
      * intros y Hy. apply Hall. apply in_or_app. left. exact Hy.
Qed.

(** Memory after a run of programs, in any order, at an address that one of
    them owns: [inputs] are addresses no program writes, the owner's value
    depends on the inputs only, and no other program touches the address. *)
Lemma run_owner {elt : Type} (kernel : Z -> device elt -> device elt)
    (inputs : Z -> Prop) (grid p0 a : Z) (v : elt) (d0 : device elt)
    (order : list Z) :
  (forall p d s, 0 <= p < grid -> inputs s -> mem (kernel p d) s = mem d s) ->
  (forall d, (forall s, inputs s -> mem d s = mem d0 s) -> mem (kernel p0 d) a = v) ->
  (forall p d, 0 <= p < grid -> p <> p0 -> mem (kernel p d) a = mem d a) ->
  (forall p, In p order -> 0 <= p < grid) ->
  In p0 order ->
  mem (run_programs order kernel d0) a = v.
Proof.
  intros Hin Hown Hother. unfold run_programs.
  assert (Hgen : forall l, (forall p, In p l -> 0 <= p < grid) ->
            let d := fold_left (fun d pid => kernel pid d) l d0 in
            (forall s, inputs s -> mem d s = mem d0 s) /\
            (In p0 l -> mem d a = v)).
  { induction l as [|q l IH] using rev_ind; intros Hl; simpl.
    - split; [reflexivity|intros []].
    - rewrite fold_left_app. simpl.
      destruct IH as [IH1 IH2].
      { intros p Hp. apply Hl. apply in_or_app. left. exact Hp. }
      assert (Hq : 0 <= q < grid).
      { apply Hl. apply in_or_app. right. left. reflexivity. }
      split.
      + intros s Hs. rewrite Hin by assumption. apply IH1. exact Hs.
      + intros Hp. destruct (Z.eq_dec q p0) as [->|Hne].
        * apply Hown. exact IH1.
        * rewrite Hother by assumption. apply IH2.
          apply in_app_or in Hp. destruct Hp as [Hp|[Hp|[]]]; [exact Hp|congruence]. }
  intros Hrange Hp0. apply Hgen; assumption.
Qed.

Lemma launch_owner {elt : Type} (kernel : Z -> device elt -> device elt)
    (inputs : Z -> Prop) (grid p0 a : Z) (v : elt) (d0 : device elt) :
  (forall p d s, 0 <= p < grid -> inputs s -> mem (kernel p d) s = mem d s) ->
  (forall d, (forall s, inputs s -> mem d s = mem d0 s) -> mem (kernel p0 d) a = v) ->
  (forall p d, 0 <= p < grid -> p <> p0 -> mem (kernel p d) a = mem d a) ->
  0 <= p0 < grid ->
  mem (launch grid kernel d0) a = v.
Proof.
  intros Hin Hown Hother Hp0. unfold launch.
  apply (run_owner kernel inputs grid p0); try assumption.
  - intros p Hp. apply In_arange in Hp. lia.
  - apply In_arange. lia.
Qed.

(** Memory after a launch, at an address that no program writes. *)
Lemma launch_frame {elt : Type} (kernel : Z -> device elt -> device elt)
    (grid a : Z) (d0 : device elt) :
  (forall p d, 0 <= p < grid -> mem (kernel p d) a = mem d a) ->
  mem (launch grid kernel d0) a = mem d0 a.
Proof.
  intros H. unfold launch, run_programs.
  assert (Hgen : forall l, (forall p, In p l -> 0 <= p < grid) ->
            mem (fold_left (fun d pid => kernel pid d) l d0) a = mem d0 a).
  { induction l as [|q l IH] using rev_ind; intros Hl; simpl; [reflexivity|].
    rewrite fold_left_app. simpl. rewrite H.
    - apply IH. intros p Hp. apply Hl. apply in_or_app. left. exact Hp.
    - apply Hl. apply in_or_app. right. left. reflexivity. }
  apply Hgen. intros p Hp. apply In_arange in Hp. lia.
Qed.

(** The trace of a launch: the old events and the events of its programs. *)
Lemma launch_trace {elt : Type} (kernel : Z -> device elt -> device elt)
    (E : Z -> event -> Prop) (grid : Z) (d0 : device elt) (ev : event) :
  (forall p d, 0 <= p < grid ->
     (In ev (trace (kernel p d)) <-> In ev (trace d) \/ E p ev)) ->
  (In ev (trace (launch grid kernel d0))
   <-> In ev (trace d0) \/ exists p, 0 <= p < grid /\ E p ev).
Proof.
  intros H. unfold launch, run_programs.
  assert (Hgen : forall l, (forall p, In p l -> 0 <= p < grid) ->
            (In ev (trace (fold_left (fun d pid => kernel pid d) l d0))
             <-> In ev (trace d0) \/ exists p, In p l /\ E p ev)).
  { induction l as [|q l IH] using rev_ind; intros Hl; simpl.
    - split; [tauto|]. intros [?|(p & [] & _)]. assumption.
    - rewrite fold_left_app. simpl. rewrite H, IH.
      + split.
        * intros [[?|(p & Hp & He)]|He]; [tauto| |].
          -- right. exists p. split; [apply in_or_app; tauto|exact He].
          -- right. exists q. split; [apply in_or_app; right; left; reflexivity|exact He].
        * intros [?|(p & Hp & He)]; [tauto|].
          apply in_app_or in Hp. destruct Hp as [Hp|[Hp|[]]].
          -- left. right. exists p. tauto.
          -- subst q. right. exact He.
      + intros p Hp. apply Hl. apply in_or_app. left. exact Hp.
      + apply Hl. apply in_or_app. right. left. reflexivity. }
  rewrite Hgen.
  - split; (intros [?|(p & Hp & He)]; [tauto|]); right; exists p;
      (split; [|exact He]).
    + apply In_arange in Hp. lia.
    + apply In_arange. lia.
  - intros p Hp. apply In_arange in Hp. lia.
Qed.

(** Runs in an arbitrary order. *)

Lemma run_untouched {elt : Type} (kernel : Z -> device elt -> device elt)
    (a : Z) (order : list Z) (d : device elt) :
  (forall p d, In p order -> mem (kernel p d) a = mem d a) ->
  mem (run_programs order kernel d) a = mem d a.
Proof.
  unfold run_programs. revert d.
  induction order as [|q l IH]; intros d H; simpl; [reflexivity|].
  rewrite IH.
  - apply H. left. reflexivity.
  - intros p d' Hp. apply H. right. exact Hp.
Qed.

(** An address [a] whose value is made by one program [p0] from what the
    memory holds at [s0], when every program runs once and no other program
    writes [a] or [s0]: [s0] may be [a] itself. *)
Lemma run_owner_once {elt : Type} (kernel : Z -> device elt -> device elt)
    (p0 a s0 : Z) (f : elt -> elt) (order : list Z) (d0 : device elt) :
  (forall p d, In p order -> p <> p0 -> mem (kernel p d) a = mem d a) ->
  (forall p d, In p order -> p <> p0 -> mem (kernel p d) s0 = mem d s0) ->
  (forall d, mem (kernel p0 d) a = f (mem d s0)) ->
  List.NoDup order -> In p0 order ->
  mem (run_programs order kernel d0) a = f (mem d0 s0).
Proof.
  revert d0. induction order as [|q l IH]; intros d0 Ha Hs Hown Hnd Hin.
  - destruct Hin.
  - inversion Hnd as [|q' l' Hq Hl]; subst. unfold run_programs. simpl.
    destruct (Z.eq_dec q p0) as [->|Hne].
    + change (fold_left (fun d pid => kernel pid d) l (kernel p0 d0))
        with (run_programs l kernel (kernel p0 d0)).
      rewrite run_untouched; [apply Hown|].
      intros p d Hp. apply Ha; [right; exact Hp|].
      intros ->. contradiction.
    + change (fold_left (fun d pid => kernel pid d) l (kernel q d0))
        with (run_programs l kernel (kernel q d0)).
      rewrite IH.
      * f_equal. apply Hs; [left; reflexivity|exact Hne].
      * intros p d Hp. apply Ha. right. exact Hp.
      * intros p d Hp. apply Hs. right. exact Hp.
      * exact Hown.
      * exact Hl.
      * destruct Hin as [Hin|Hin]; [congruence|exact Hin].
Qed.

Lemma NoDup_arange (lo hi : Z) : List.NoDup (arange lo hi).
Proof.
  unfold arange. apply Finite.Injective_map_NoDup.
  - intros n m H. lia.
  - apply seq_NoDup.
Qed.

Lemma run_trace {elt : Type} (kernel : Z -> device elt -> device elt)
    (E : Z -> list event) (order : list Z) (d : device elt) :
  (forall p d, trace (kernel p d) = trace d ++ E p) ->
  trace (run_programs order kernel d) = trace d ++ flat_map E order.
Proof.
  intros H. unfold run_programs. revert d.
  induction order as [|q l IH]; intros d; simpl.
  - symmetry. apply app_nil_r.
  - rewrite IH, H, app_assoc. reflexivity.
Qed.

Lemma NoDup_flat_map {X Y : Type} (E : X -> list Y) (l : list X) :
  List.NoDup l ->
  (forall p, In p l -> List.NoDup (E p)) ->
  (forall p q e, In p l -> In q l -> p <> q -> In e (E p) -> ~ In e (E q)) ->
  List.NoDup (flat_map E l).
Proof.
  induction l as [|p l IH]; intros Hnd Hone Hsep; simpl; [constructor|].
  inversion Hnd as [|p' l' Hp Hl]; subst.
  apply List.NoDup_app.
  - apply Hone. left. reflexivity.
  - apply IH; [exact Hl| |].
    + intros q Hq. apply Hone. right. exact Hq.
    + intros q r e Hq Hr. apply Hsep; right; assumption.
  - intros e He Hin. apply in_flat_map in Hin. destruct Hin as (q & Hq & Heq).
    apply (Hsep p q e); [left; reflexivity|right; exact Hq| |exact He|exact Heq].
    intros ->. contradiction.
Qed.

(** ** The [asin] kernel *)

Lemma wrap32_range (z : Z) : - 2 ^ 31 <= wrap32 z < 2 ^ 31.
Proof.
  unfold wrap32.
  pose proof (Z.mod_pos_bound (z + 2 ^ 31) (2 ^ 32) ltac:(lia)). lia.
Qed.

Lemma wrap32_small (z : Z) : - 2 ^ 31 <= z < 2 ^ 31 -> wrap32 z = z.
Proof. intros H. unfold wrap32. rewrite Z.mod_small by lia. lia. Qed.

(** With a block size that [tl.arange] accepts and fewer than [2^31]
    elements, the offsets of every program of the grid stay below [2^31]. *)
Lemma grid_fits (n B pid : Z) :
  0 < B -> Z.divide B (2 ^ 30) -> n < 2 ^ 31 ->
  0 <= pid < Libdevice.grid n B -> (pid + 1) * B <= 2 ^ 31.
Proof.
  intros HB (q & Hq) Hn Hpid. unfold Libdevice.grid, cdiv in Hpid.
  pose proof (Z.div_mod (n + B - 1) B ltac:(lia)) as E.
  pose proof (Z.mod_pos_bound (n + B - 1) B HB) as Hm.
  assert ((n + B - 1) / B < 2 * q + 1) by nia. nia.
Qed.

Lemma asin_offsets_In (BLOCK_SIZE pid o : Z) :
  In o (Libdevice.asin_offsets BLOCK_SIZE pid)
  <-> exists lane, 0 <= lane < BLOCK_SIZE
                   /\ o = wrap32 (wrap32 (pid * BLOCK_SIZE) + lane).
Proof.
  unfold Libdevice.asin_offsets. cbn zeta. rewrite in_map_iff. split.
  - intros (lane & <- & H). apply In_arange in H. exists lane.
    split; [lia|reflexivity].
  - intros (lane & H & ->). exists lane. split; [reflexivity|].
    apply In_arange. lia.
Qed.

(** Where nothing wraps, the offsets of a program are
    [pid * BLOCK_SIZE + lane]. *)
Lemma asin_offsets_fit (BLOCK_SIZE pid : Z) :
  0 <= pid -> (pid + 1) * BLOCK_SIZE <= 2 ^ 31 ->
  Libdevice.asin_offsets BLOCK_SIZE pid
  = map (Z.add (pid * BLOCK_SIZE)) (arange 0 BLOCK_SIZE).
Proof.
  intros Hpid Hfit. unfold Libdevice.asin_offsets. cbn zeta.
  apply map_ext_in. intros lane Hl. apply In_arange in Hl.
  rewrite (wrap32_small (pid * BLOCK_SIZE)) by nia.
  apply wrap32_small. nia.
Qed.

Lemma asin_offsets_range (BLOCK_SIZE pid o : Z) :
  0 <= pid -> (pid + 1) * BLOCK_SIZE <= 2 ^ 31 ->
  In o (Libdevice.asin_offsets BLOCK_SIZE pid)
  <-> pid * BLOCK_SIZE <= o < (pid + 1) * BLOCK_SIZE.
Proof.
  intros Hpid Hfit. rewrite asin_offsets_fit by assumption.
  rewrite in_map_iff. split.
  - intros (i & <- & Hi). apply In_arange in Hi. lia.
  - intros H. exists (o - pid * BLOCK_SIZE). split; [lia|].
    apply In_arange. lia.
Qed.

(** The accesses of a program, whatever its offsets are: a load and a store
    at each of its offsets that passes the mask. *)
Lemma In_asin_events_offsets (x_ptr y_ptr n B pid : Z) (ev : event) :
  In ev (Libdevice.asin_events x_ptr y_ptr n B pid)
  <-> exists o, In o (Libdevice.asin_offsets B pid) /\ o < n
                /\ Libdevice.asin_access x_ptr y_ptr o ev.
Proof.
  unfold Libdevice.asin_events, Libdevice.asin_access.
  rewrite in_app_iff, !in_map_iff. split.
  - intros [(a & <- & Ha)|(a & <- & Ha)];
      apply in_map_iff in Ha; destruct Ha as (o & <- & Ho);
      apply filter_In in Ho; destruct Ho as [Ho Hn];
      apply Z.ltb_lt in Hn; exists o; tauto.
  - intros (o & Ho & Hn & [-> | ->]).
    + left. exists (x_ptr + o). split; [reflexivity|].
      apply in_map. apply filter_In. split; [exact Ho|].
      apply Z.ltb_lt. exact Hn.
    + right. exists (y_ptr + o). split; [reflexivity|].
      apply in_map. apply filter_In. split; [exact Ho|].
      apply Z.ltb_lt. exact Hn.
Qed.

Lemma In_asin_events (x_ptr y_ptr n B pid : Z) (ev : event) :
  0 <= pid -> (pid + 1) * B <= 2 ^ 31 ->
  In ev (Libdevice.asin_events x_ptr y_ptr n B pid)
  <-> exists o, pid * B <= o < (pid + 1) * B /\ o < n
                /\ Libdevice.asin_access x_ptr y_ptr o ev.
Proof.
  intros Hpid Hfit. rewrite In_asin_events_offsets.
  split; intros (o & Ho & H); exists o; (split; [|exact H]);
    apply (asin_offsets_range B pid o Hpid Hfit); exact Ho.
Qed.

(** The program that owns offset [i]. *)
Lemma asin_owner (n B i : Z) :
  0 < B -> 0 <= i < n ->
  0 <= i / B < Libdevice.grid n B
  /\ (i / B) * B <= i < (i / B + 1) * B.
Proof.
  intros HB Hi. unfold Libdevice.grid, cdiv.
  pose proof (Z.div_mod i B ltac:(lia)) as E.
  pose proof (Z.mod_pos_bound i B HB) as Hm.
  assert (0 <= i / B) by (apply Z.div_pos; lia).
  split; [split; [assumption|]|nia].
  apply Z.div_lt_upper_bound; [lia|].
  pose proof (Z.div_mod (n + B - 1) B ltac:(lia)) as E'.
  pose proof (Z.mod_pos_bound (n + B - 1) B HB) as Hm'.
  nia.
Qed.

(** The accesses that a run of the grid adds to the trace. *)
Lemma asin_run_events
    (x_ptr y_ptr n_elements BLOCK_SIZE : Z) (order : list Z) (ev : event) :
  0 < BLOCK_SIZE -> Z.divide BLOCK_SIZE (2 ^ 30) -> n_elements < 2 ^ 31 ->
  (forall p, In p order <-> 0 <= p < Libdevice.grid n_elements BLOCK_SIZE) ->
  In ev (flat_map (Libdevice.asin_events x_ptr y_ptr n_elements BLOCK_SIZE) order)
  <-> exists i, 0 <= i < n_elements /\ Libdevice.asin_access x_ptr y_ptr i ev.
Proof.
  intros HB Hpow Hsize Horder. rewrite in_flat_map. split.
  - intros (p & Hp & He). apply Horder in Hp.
    apply In_asin_events in He; [|lia|apply (grid_fits n_elements); assumption].
    destruct He as (o & Ho & Hn & He). exists o. split; [nia|exact He].
  - intros (i & Hi & He).
    destruct (asin_owner n_elements BLOCK_SIZE i HB Hi) as [Hp Hr].
    exists (i / BLOCK_SIZE). split; [apply Horder; exact Hp|].
    apply In_asin_events; [lia|apply (grid_fits n_elements); assumption|].
    exists i. split; [exact Hr|]. split; [lia|exact He].
Qed.

Lemma NoDup_asin_events (x_ptr y_ptr n B pid : Z) :
  0 <= pid -> (pid + 1) * B <= 2 ^ 31 ->
  List.NoDup (Libdevice.asin_events x_ptr y_ptr n B pid).
Proof.
  intros Hpid Hfit. unfold Libdevice.asin_events.
  assert (Hf : List.NoDup (List.filter (fun o => o <? n)
                             (Libdevice.asin_offsets B pid))).
  { apply List.NoDup_filter. rewrite asin_offsets_fit by assumption.
    apply Finite.Injective_map_NoDup; [intros u v H; lia|apply NoDup_arange]. }
  apply List.NoDup_app.
  - apply Finite.Injective_map_NoDup; [intros u v H; congruence|].
    apply Finite.Injective_map_NoDup; [intros u v H; lia|exact Hf].
  - apply Finite.Injective_map_NoDup; [intros u v H; congruence|].
    apply Finite.Injective_map_NoDup; [intros u v H; lia|exact Hf].
  - intros e He Hs. apply in_map_iff in He, Hs.
    destruct He as (u & <- & _). destruct Hs as (v & Hv & _). discriminate.
Qed.

Section AsinProperties.

Variable f32 : Type.
Variable asin : f32 -> f32.
Variable undef : f32.

Local Abbreviation asin_kernel := (Libdevice.asin_kernel f32 asin undef).
Local Abbreviation asin_launch := (Libdevice.asin_launch f32 asin undef).

Lemma asin_kernel_mem (x_ptr y_ptr n B pid : Z) (d : device f32) :
  mem (asin_kernel x_ptr y_ptr n B pid d)
  = store_lanes (Z.add y_ptr)
                (fun o => asin (if o <? n then mem d (x_ptr + o) else undef))
                (fun o => o <? n)
                (Libdevice.asin_offsets B pid) (mem d).
Proof.
  unfold Libdevice.asin_kernel, tl_load, tl_store. simpl.
  rewrite (load_mem_map undef (Z.add x_ptr) (fun o => o <? n)).
  rewrite map_map. apply store_mem_map.
Qed.

Lemma asin_kernel_trace (x_ptr y_ptr n B pid : Z) (d : device f32) :
  trace (asin_kernel x_ptr y_ptr n B pid d)
  = trace d ++ Libdevice.asin_events x_ptr y_ptr n B pid.
Proof.
  unfold Libdevice.asin_kernel, Libdevice.asin_events, tl_load, tl_store. simpl.
  rewrite !masked_map. symmetry. apply app_assoc.
Qed.

Lemma asin_kernel_events (x_ptr y_ptr n B pid : Z) (d : device f32) (ev : event) :
  0 <= pid -> (pid + 1) * B <= 2 ^ 31 ->
  In ev (trace (asin_kernel x_ptr y_ptr n B pid d))
  <-> In ev (trace d)
      \/ exists o, pid * B <= o < (pid + 1) * B /\ o < n
                   /\ Libdevice.asin_access x_ptr y_ptr o ev.
Proof.
  intros Hpid Hfit.
  rewrite asin_kernel_trace, in_app_iff, In_asin_events by assumption.
  reflexivity.
Qed.

(** A program leaves alone every address that is not one of the output
    elements at its own unmasked offsets. *)
Lemma asin_kernel_miss (x_ptr y_ptr n B pid a : Z) (d : device f32) :
  (forall o, In o (Libdevice.asin_offsets B pid) -> o < n -> a <> y_ptr + o) ->
  mem (asin_kernel x_ptr y_ptr n B pid d) a = mem d a.
Proof.
  intros Ha. rewrite asin_kernel_mem.
  apply store_lanes_miss. intros o Ho Hn Heq.
  apply Z.ltb_lt in Hn.
  apply (Ha o); [exact Ho|exact Hn|congruence].
Qed.

(** The mask alone protects the output from index [n] on: this needs no
    bound on the sizes. *)
Lemma asin_kernel_tail (x_ptr y_ptr n B pid i : Z) (d : device f32) :
  n <= i ->
  mem (asin_kernel x_ptr y_ptr n B pid d) (y_ptr + i) = mem d (y_ptr + i).
Proof.
  intros Hi. apply asin_kernel_miss. intros o _ Hn. lia.
Qed.

(** A program leaves alone every address that is not an output element. *)
Lemma asin_kernel_frame (x_ptr y_ptr n B pid a : Z) (d : device f32) :
  0 <= pid -> (pid + 1) * B <= 2 ^ 31 ->
  (forall i, 0 <= i < n -> a <> y_ptr + i) ->
  mem (asin_kernel x_ptr y_ptr n B pid d) a = mem d a.
Proof.
  intros Hpid Hfit Ha. apply asin_kernel_miss. intros o Ho Hn.
  apply (asin_offsets_range B pid o Hpid Hfit) in Ho.
  apply Ha. nia.
Qed.

(** A program leaves alone the output elements of the other programs. *)
Lemma asin_kernel_other (x_ptr y_ptr n B pid i : Z) (d : device f32) :
  0 <= pid -> (pid + 1) * B <= 2 ^ 31 ->
  ~ (pid * B <= i < (pid + 1) * B) ->
  mem (asin_kernel x_ptr y_ptr n B pid d) (y_ptr + i) = mem d (y_ptr + i).
Proof.
  intros Hpid Hfit Hi. apply asin_kernel_miss. intros o Ho Hn Heq.
  apply (asin_offsets_range B pid o Hpid Hfit) in Ho. apply Hi. lia.
Qed.

Lemma asin_kernel_own (x_ptr y_ptr n B pid i : Z) (d : device f32) :
  0 <= pid -> (pid + 1) * B <= 2 ^ 31 ->
  pid * B <= i < (pid + 1) * B -> i < n ->
  mem (asin_kernel x_ptr y_ptr n B pid d) (y_ptr + i) = asin (mem d (x_ptr + i)).
Proof.
  intros Hpid Hfit Hi Hn. rewrite asin_kernel_mem.
  apply store_lanes_hit.
  - exists i. split; [apply asin_offsets_range; assumption|].
    split; [apply Z.ltb_lt; exact Hn|reflexivity].
  - intros o Ho Hb Heq. assert (o = i) by lia. subst o.
    rewrite Hb. reflexivity.
Qed.

(** After every program of the grid has run once, in any order, [y[i]] holds
    [asin] of the old [x[i]]; [x] and [y] may be the same buffer. *)
Lemma asin_run_value
    (x_ptr y_ptr n_elements BLOCK_SIZE : Z) (order : list Z) (d : device f32) :
  0 < BLOCK_SIZE -> Z.divide BLOCK_SIZE (2 ^ 30) -> n_elements < 2 ^ 31 ->
  (forall i j, 0 <= i < n_elements -> 0 <= j < n_elements -> i <> j ->
               x_ptr + i <> y_ptr + j) ->
  List.NoDup order ->
  (forall p, In p order <-> 0 <= p < Libdevice.grid n_elements BLOCK_SIZE) ->
  forall i, 0 <= i < n_elements ->
    mem (run_programs order (asin_kernel x_ptr y_ptr n_elements BLOCK_SIZE) d)
        (y_ptr + i)
    = asin (mem d (x_ptr + i)).
Proof.
  intros HB Hpow Hsize Hdisj Hnd Horder i Hi.
  destruct (asin_owner n_elements BLOCK_SIZE i HB Hi) as [Hp Hr].
  assert (Hfit : forall p, 0 <= p < Libdevice.grid n_elements BLOCK_SIZE ->
            (p + 1) * BLOCK_SIZE <= 2 ^ 31).
  { intros p. apply grid_fits; assumption. }
  assert (Hblock : forall p o, 0 <= p < Libdevice.grid n_elements BLOCK_SIZE ->
            p <> i / BLOCK_SIZE ->
            In o (Libdevice.asin_offsets BLOCK_SIZE p) -> o <> i /\ 0 <= o).
  { intros p o Hp0 Hne Ho.
    apply (asin_offsets_range BLOCK_SIZE p o) in Ho; [|lia|apply Hfit; exact Hp0].
    split; [|nia]. intros ->. apply Hne.
    apply Z.div_unique with (r := i - p * BLOCK_SIZE); lia. }
  apply (run_owner_once _ (i / BLOCK_SIZE) (y_ptr + i) (x_ptr + i) asin).
  - intros p d0 Hin Hne. apply Horder in Hin. apply asin_kernel_miss.
    intros o Ho Hn. destruct (Hblock p o Hin Hne Ho). lia.
  - intros p d0 Hin Hne. apply Horder in Hin. apply asin_kernel_miss.
    intros o Ho Hn. destruct (Hblock p o Hin Hne Ho).
    apply Hdisj; [lia|lia|congruence].
  - intros d0. apply asin_kernel_own; [lia|apply Hfit; exact Hp|exact Hr|lia].
  - exact Hnd.
  - apply Horder. exact Hp.
Qed.


(** C10.  The launch leaves the output buffer as it was at every index
    [>= n_elements], whatever the sizes are: a lane stores only where its
    offset is below [n_elements], so no program stores there.  When
    moreover no offset of the launch wraps around, every address other than
    the first [n_elements] elements of the output is left unchanged. *)
Theorem asin_kernel_tail_unchanged
    (x_ptr y_ptr n_elements BLOCK_SIZE : Z) (d : device f32) :
  0 < BLOCK_SIZE ->
  let d' := asin_launch x_ptr y_ptr n_elements BLOCK_SIZE d in
  (forall i, n_elements <= i -> mem d' (y_ptr + i) = mem d (y_ptr + i))
  /\ (forall pid d0 i, n_elements <= i ->
        mem (asin_kernel x_ptr y_ptr n_elements BLOCK_SIZE pid d0) (y_ptr + i)
        = mem d0 (y_ptr + i)
        /\ (In (Store (y_ptr + i))
               (trace (asin_kernel x_ptr y_ptr n_elements BLOCK_SIZE pid d0))
            -> In (Store (y_ptr + i)) (trace d0)))
  /\ (Z.divide BLOCK_SIZE (2 ^ 30) -> n_elements < 2 ^ 31 ->
      forall a, (forall i, 0 <= i < n_elements -> a <> y_ptr + i) ->
                mem d' a = mem d a).
Proof.
  intros HB d'. subst d'. split; [|split].
  - intros i Hi. unfold Libdevice.asin_launch. apply launch_frame.
    intros p d0 _. apply asin_kernel_tail. exact Hi.
  - intros pid d0 i Hi. split; [apply asin_kernel_tail; exact Hi|].
    rewrite asin_kernel_trace, in_app_iff, In_asin_events_offsets.
    intros [H|(o & _ & Hn & [He|He])]; [exact H|discriminate|].
    injection He as He. lia.
  - intros Hpow Hsize a Ha. unfold Libdevice.asin_launch. apply launch_frame.
    intros p d0 Hp. apply asin_kernel_frame; [lia| |exact Ha].
    apply (grid_fits n_elements); assumption.
Qed.

End AsinProperties.

(** ** The grouped mapping from program ids to tiles *)

Section Grouping.

Lemma pid_to_tile_tile (M N BM BN G pid : Z) :
  BlockPointer.pid_to_tile M N BM BN G pid = BlockPointer.tile (cdiv M BM) (cdiv N BN) G pid.
Proof. reflexivity. Qed.

Lemma group_facts (Nm Nn G pid : Z) :
  0 < G -> 0 <= Nn -> 0 <= pid < Nm * Nn ->
  let gid := pid / (G * Nn) in
  let gsz := Z.min (Nm - gid * G) G in
  let r := pid mod (G * Nn) in
  0 < Nn /\ 0 <= gid /\ pid = G * Nn * gid + r /\ 0 <= r < gsz * Nn
  /\ 0 < gsz /\ gid * G + gsz <= Nm.
Proof.
  intros HG HNn0 Hpid gid gsz r.
  assert (HNn : 0 < Nn) by (destruct (Z.eq_dec Nn 0); [subst; lia|lia]).
  assert (HD : 0 < G * Nn) by nia.
  pose proof (Z.div_mod pid (G * Nn) ltac:(lia)) as E.
  pose proof (Z.mod_pos_bound pid (G * Nn) HD) as Hr.
  fold gid in E. fold r in E, Hr.
  assert (Hgid : 0 <= gid) by (apply Z.div_pos; lia).
  assert (Hfirst : gid * G < Nm) by nia.
  subst gsz. repeat split; lia.
Qed.

Lemma tile_range (Nm Nn G pid : Z) :
  0 < G -> 0 <= Nn -> 0 <= pid < Nm * Nn ->
  0 <= fst (BlockPointer.tile Nm Nn G pid) < Nm /\ 0 <= snd (BlockPointer.tile Nm Nn G pid) < Nn.
Proof.
  intros HG HNn0 Hpid.
  destruct (group_facts Nm Nn G pid HG HNn0 Hpid) as (HNn & Hgid & E & Hr & Hgsz & Hle).
  unfold BlockPointer.tile. simpl.
  set (gid := pid / (G * Nn)) in *.
  set (gsz := Z.min (Nm - gid * G) G) in *.
  set (r := pid mod (G * Nn)) in *.
  pose proof (Z.mod_pos_bound pid gsz Hgsz) as Hm.
  split; [nia|].
  split; [apply Z.div_pos; lia|].
  apply Z.div_lt_upper_bound; lia.
Qed.

Lemma tile_group (Nm Nn G pid : Z) :
  0 < G -> 0 <= Nn -> 0 <= pid < Nm * Nn ->
  pid / (G * Nn) = fst (BlockPointer.tile Nm Nn G pid) / G.
Proof.
  intros HG HNn0 Hpid.
  destruct (group_facts Nm Nn G pid HG HNn0 Hpid) as (HNn & Hgid & E & Hr & Hgsz & Hle).
  unfold BlockPointer.tile. simpl.
  set (gid := pid / (G * Nn)) in *.
  set (gsz := Z.min (Nm - gid * G) G) in *.
  pose proof (Z.mod_pos_bound pid gsz Hgsz) as Hm.
  apply Z.div_unique with (r := pid mod gsz); [|lia].
  left. split; [lia|]. subst gsz. lia.
Qed.

Lemma tile_injective (Nm Nn G pid pid' : Z) :
  0 < G -> 0 <= Nn -> 0 <= pid < Nm * Nn -> 0 <= pid' < Nm * Nn ->
  BlockPointer.tile Nm Nn G pid = BlockPointer.tile Nm Nn G pid' -> pid = pid'.
Proof.
  intros HG HNn0 Hpid Hpid' Heq.
  pose proof (tile_group Nm Nn G pid HG HNn0 Hpid) as Hg.
  pose proof (tile_group Nm Nn G pid' HG HNn0 Hpid') as Hg'.
  rewrite Heq in Hg. rewrite <- Hg' in Hg. clear Hg'.
  destruct (group_facts Nm Nn G pid HG HNn0 Hpid) as (HNn & Hgid & E & Hr & Hgsz & Hle).
  destruct (group_facts Nm Nn G pid' HG HNn0 Hpid') as (_ & _ & E' & Hr' & _ & _).
  unfold BlockPointer.tile in Heq. rewrite <- Hg in *.
  set (gid := pid / (G * Nn)) in *.
  set (gsz := Z.min (Nm - gid * G) G) in *.
  set (r := pid mod (G * Nn)) in *.
  set (r' := pid' mod (G * Nn)) in *.
  injection Heq as Hm Hq.
  assert (Hmod : pid mod gsz = pid' mod gsz) by lia.
  pose proof (Z.div_mod pid gsz ltac:(lia)) as D1.
  pose proof (Z.div_mod pid' gsz ltac:(lia)) as D2.
  pose proof (Z.div_mod r gsz ltac:(lia)) as D3.
  pose proof (Z.div_mod r' gsz ltac:(lia)) as D4.
  pose proof (Z.mod_pos_bound r gsz Hgsz) as B3.
  pose proof (Z.mod_pos_bound r' gsz Hgsz) as B4.
  rewrite Hq in D3. rewrite Hmod in D1.
  assert (Hk : gsz * (pid / gsz - pid' / gsz) = r mod gsz - r' mod gsz) by lia.
  assert (pid / gsz - pid' / gsz = 0) by nia.
  lia.
Qed.

Lemma tile_surjective (Nm Nn G pm pn : Z) :
  0 < G -> 0 <= pm < Nm -> 0 <= pn < Nn ->
  exists pid, 0 <= pid < Nm * Nn /\ BlockPointer.tile Nm Nn G pid = (pm, pn).
Proof.
  intros HG Hpm Hpn.
  set (gid := pm / G).
  set (gsz := Z.min (Nm - gid * G) G).
  set (s := (pm - gid * G - G * Nn * gid) mod gsz).
  pose proof (Z.div_mod pm G ltac:(lia)) as E.
  pose proof (Z.mod_pos_bound pm G HG) as Hm.
  fold gid in E.
  assert (Hgid : 0 <= gid) by (apply Z.div_pos; lia).
  assert (Hgsz : 0 < gsz) by (subst gsz; lia).
  assert (Hin : 0 <= pm - gid * G < gsz) by (subst gsz; lia).
  pose proof (Z.mod_pos_bound (pm - gid * G - G * Nn * gid) gsz Hgsz) as Hs.
  fold s in Hs.
  assert (Hgle : gsz <= G) by (subst gsz; lia).
  assert (Hrem : 0 <= pn * gsz + s < G * Nn) by nia.
  exists (G * Nn * gid + (pn * gsz + s)).
  assert (Hdiv : (G * Nn * gid + (pn * gsz + s)) / (G * Nn) = gid).
  { symmetry. apply Z.div_unique with (r := pn * gsz + s); lia. }
  assert (Hmod : (G * Nn * gid + (pn * gsz + s)) mod (G * Nn) = pn * gsz + s).
  { symmetry. apply Z.mod_unique with (q := gid); lia. }
  split.
  - assert (gid * G + gsz <= Nm) by (subst gsz; lia). nia.
  - unfold BlockPointer.tile. rewrite Hdiv, Hmod. fold gsz. f_equal.
    + assert (Hx : (G * Nn * gid + (pn * gsz + s)) mod gsz = pm - gid * G);
        [|lia].
      replace (G * Nn * gid + (pn * gsz + s))
        with ((G * Nn * gid + s) + pn * gsz) by lia.
      rewrite Z.mod_add by lia.
      unfold s. rewrite Z.add_mod_idemp_r by lia.
      replace (G * Nn * gid + (pm - gid * G - G * Nn * gid))
        with (pm - gid * G) by lia.
      apply Z.mod_small. exact Hin.
    + symmetry. apply Z.div_unique with (r := s); lia.
Qed.

Lemma cdiv_nonneg (x y : Z) : 0 < y -> 0 <= x -> 0 <= cdiv x y.
Proof. intros Hy Hx. unfold cdiv. apply Z.div_pos; lia. Qed.

(** The tile that holds position [i] along an axis of size [x]. *)
Lemma cdiv_owner (x y i : Z) :
  0 < y -> 0 <= i < x ->
  0 <= i / y < cdiv x y /\ (i / y) * y <= i < (i / y + 1) * y.
Proof.
  intros Hy Hi. unfold cdiv.
  pose proof (Z.div_mod i y ltac:(lia)) as E.
  pose proof (Z.mod_pos_bound i y Hy) as Hm.
  assert (0 <= i / y) by (apply Z.div_pos; lia).
  split; [split; [assumption|]|nia].
  apply Z.div_lt_upper_bound; [lia|].
  pose proof (Z.div_mod (x + y - 1) y ltac:(lia)) as E'.
  pose proof (Z.mod_pos_bound (x + y - 1) y Hy) as Hm'.
  nia.
Qed.

End Grouping.

(** ** Sums along K *)

Lemma map_seq_shift {X : Type} (g : nat -> X) (k n a : nat) :
  map g (seq (k + a) n) = map (fun i => g (k + i)%nat) (seq a n).
Proof.
  revert a. induction n as [|n IH]; intros a; simpl; [reflexivity|].
  f_equal. rewrite <- IH. f_equal. f_equal. lia.
Qed.

Lemma arange_app (lo mid hi : Z) :
  lo <= mid <= hi -> arange lo hi = arange lo mid ++ arange mid hi.
Proof.
  intros H. unfold arange.
  replace (Z.to_nat (hi - lo)) with (Z.to_nat (mid - lo) + Z.to_nat (hi - mid))%nat by lia.
  rewrite seq_app, map_app. f_equal.
  replace (0 + Z.to_nat (mid - lo))%nat with (Z.to_nat (mid - lo) + 0)%nat by lia.
  rewrite map_seq_shift. apply map_ext. intros n. lia.
Qed.

Lemma arange_shift (c n : Z) :
  map (Z.add c) (arange 0 n) = arange c (c + n).
Proof.
  unfold arange. rewrite map_map.
  replace (c + n - c) with (n - 0) by lia.
  apply map_ext. intros i. lia.
Qed.

Lemma filter_all {X : Type} (f : X -> bool) (l : list X) :
  (forall x, In x l -> f x = true) -> List.filter f l = l.
Proof.
  induction l as [|x l IH]; intros H; simpl; [reflexivity|].
  rewrite (H x) by (left; reflexivity). f_equal.
  apply IH. intros y Hy. apply H. right. exact Hy.
Qed.

Lemma filter_none {X : Type} (f : X -> bool) (l : list X) :
  (forall x, In x l -> f x = false) -> List.filter f l = [].
Proof.
  induction l as [|x l IH]; intros H; simpl; [reflexivity|].
  rewrite (H x) by (left; reflexivity).
  apply IH. intros y Hy. apply H. right. exact Hy.
Qed.

(** The part of a range of positions that lies inside an axis of size [K]. *)
Lemma filter_arange_inside (K lo hi : Z) :
  0 <= lo <= hi ->
  List.filter (fun k => (0 <=? k) && (k <? K)) (arange lo hi)
  = arange (Z.min lo K) (Z.min hi K).
Proof.
  intros H.
  destruct (Z.le_gt_cases K lo) as [HK|HK].
  - rewrite filter_none.
    + symmetry. apply arange_empty. lia.
    + intros k Hk. apply In_arange in Hk.
      apply andb_false_iff. right. apply Z.ltb_ge. lia.
  - rewrite (arange_app lo (Z.min hi K) hi) by lia.
    rewrite List.filter_app, filter_all, filter_none.
    + rewrite app_nil_r. f_equal. lia.
    + intros k Hk. apply In_arange in Hk.
      apply andb_false_iff. right. apply Z.ltb_ge. lia.
    + intros k Hk. apply In_arange in Hk.
      apply andb_true_iff. split; [apply Z.leb_le|apply Z.ltb_lt]; lia.
Qed.

Section Sums.

Variable f32 : Type.
Variable zero : f32.
Variable fadd : f32 -> f32 -> f32.

Local Abbreviation fsum := (BlockPointer.fsum f32 fadd).

Lemma fsum_app (f : Z -> f32) (l1 l2 : list Z) (s : f32) :
  fsum f (l1 ++ l2) s = fsum f l2 (fsum f l1 s).
Proof. unfold BlockPointer.fsum. apply fold_left_app. Qed.

Lemma fsum_ext (f g : Z -> f32) (l : list Z) (s : f32) :
  (forall k, In k l -> f k = g k) -> fsum f l s = fsum g l s.
Proof.
  unfold BlockPointer.fsum. revert s.
  induction l as [|k l IH]; intros s H; simpl; [reflexivity|].
  rewrite (H k) by (left; reflexivity).
  apply IH. intros k' Hk'. apply H. right. exact Hk'.
Qed.

Lemma fsum_map (f : Z -> f32) (h : Z -> Z) (l : list Z) (s : f32) :
  fsum f (map h l) s = fsum (fun k => f (h k)) l s.
Proof.
  unfold BlockPointer.fsum. revert s.
  induction l as [|k l IH]; intros s; simpl; [reflexivity|]. apply IH.
Qed.

Hypothesis fadd_zero_r : forall x, fadd x zero = x.

(** Terms that are [zero] outside [inside] can be left out of the sum. *)
Lemma fsum_filter (f : Z -> f32) (inside : Z -> bool) (l : list Z) (s : f32) :
  fsum (fun k => if inside k then f k else zero) l s
  = fsum f (List.filter inside l) s.
Proof.
  unfold BlockPointer.fsum. revert s.
  induction l as [|k l IH]; intros s; simpl; [reflexivity|].
  destruct (inside k); simpl; [apply IH|].
  rewrite fadd_zero_r. apply IH.
Qed.

Hypothesis fadd_assoc : forall x y z, fadd x (fadd y z) = fadd (fadd x y) z.

Lemma fsum_start (f : Z -> f32) (l : list Z) (s : f32) :
  fsum f l s = fadd s (fsum f l zero).
Proof.
  induction l as [|k l IH] using rev_ind.
  - unfold BlockPointer.fsum. simpl. symmetry. apply fadd_zero_r.
  - rewrite !fsum_app. unfold BlockPointer.fsum at 1 3. simpl.
    rewrite IH. symmetry. apply fadd_assoc.
Qed.

End Sums.

(** ** Block pointers *)

Lemma bool_eq_iff (b1 b2 : bool) : (b1 = true <-> b2 = true) -> b1 = b2.
Proof. destruct b1, b2; intros [H1 H2]; auto; symmetry; auto. Qed.

Lemma lane_ok_both (p : BlockPointer.block_ptr) (l : Z * Z) :
  BlockPointer.lane_ok [0; 1] p l = true
  <-> 0 <= fst (BlockPointer.offsets p) + fst l < fst (BlockPointer.parent_shape p)
      /\ 0 <= snd (BlockPointer.offsets p) + snd l < snd (BlockPointer.parent_shape p).
Proof.
  unfold BlockPointer.lane_ok, BlockPointer.lane_index, BlockPointer.axis_checked.
  simpl. rewrite !andb_true_iff, !Z.leb_le, !Z.ltb_lt. tauto.
Qed.

Lemma In_lanes (r c li lj : Z) :
  In (li, lj) (BlockPointer.lanes (r, c)) <-> 0 <= li < r /\ 0 <= lj < c.
Proof.
  unfold BlockPointer.lanes. simpl. rewrite in_prod_iff, !In_arange. tauto.
Qed.

(** A lane that passes the check on both axes addresses an element of the
    parent tensor. *)
Lemma lane_ok_in_tensor (p : BlockPointer.block_ptr) (l : Z * Z) :
  BlockPointer.lane_ok [0; 1] p l = true ->
  BlockPointer.in_tensor (BlockPointer.base p) (BlockPointer.parent_shape p)
                         (BlockPointer.strides p) (BlockPointer.lane_addr p l).
Proof.
  intros H. apply lane_ok_both in H.
  exists (fst (BlockPointer.offsets p) + fst l),
         (snd (BlockPointer.offsets p) + snd l).
  split; [tauto|]. split; [tauto|]. reflexivity.
Qed.

(** Row-major storage whose rows do not overlap: distinct positions have
    distinct addresses. *)
Lemma dense_injective (N s0 i j i' j' : Z) :
  N <= s0 -> 0 <= j < N -> 0 <= j' < N ->
  i * s0 + j * 1 = i' * s0 + j' * 1 -> i = i' /\ j = j'.
Proof.
  intros Hs Hj Hj' E.
  assert (i = i') by nia. subst i'. lia.
Qed.

Section KernelProperties.

Variable f16 f32 : Type.
Variable zero : f32.
Variable fadd fmul : f32 -> f32 -> f32.
Variable to_f32 : f16 -> f32.
Variable to_f16 : f32 -> f16.
Variable pad : f16.

Local Abbreviation load_block := (BlockPointer.load_block f16 pad).
Local Abbreviation dot := (BlockPointer.dot f16 f32 zero fadd fmul to_f32).
Local Abbreviation k_body := (BlockPointer.k_body f16 f32 zero fadd fmul to_f32 pad).
Local Abbreviation k_loop := (BlockPointer.k_loop f16 f32 zero fadd fmul to_f32 pad).
Local Abbreviation kernel :=
  (BlockPointer.matmul_kernel_with_block_pointers
     f16 f32 zero fadd fmul to_f32 to_f16 pad).
Local Abbreviation fsum := (BlockPointer.fsum f32 fadd).
Local Abbreviation product_entry :=
  (BlockPointer.product_entry f16 f32 zero fadd fmul to_f32).

Lemma load_block_mem (p : BlockPointer.block_ptr) (d : device f16) :
  mem (snd (load_block p [0; 1] d)) = mem d.
Proof. reflexivity. Qed.

Lemma load_block_events (p : BlockPointer.block_ptr) (d : device f16) (ev : event) :
  In ev (trace (snd (load_block p [0; 1] d))) ->
  In ev (trace d)
  \/ exists addr, ev = Load addr
                  /\ BlockPointer.in_tensor (BlockPointer.base p)
                       (BlockPointer.parent_shape p) (BlockPointer.strides p) addr.
Proof.
  unfold BlockPointer.load_block. simpl. rewrite masked_map.
  rewrite in_app_iff. intros [H|H]; [left; exact H|right].
  apply in_map_iff in H. destruct H as (addr & <- & H).
  apply in_map_iff in H. destruct H as (l & <- & H).
  apply filter_In in H. destruct H as [_ H].
  exists (BlockPointer.lane_addr p l). split; [reflexivity|].
  apply lane_ok_in_tensor. exact H.
Qed.

(** *** The K loop of one program *)

Variables a_ptr b_ptr c_ptr M N K : Z.
Variables stride_am stride_ak stride_bk stride_bn stride_cm stride_cn : Z.
Variables BM BN BK : Z.

Local Abbreviation a_block_ptr_at :=
  (BlockPointer.a_block_ptr_at a_ptr M K stride_am stride_ak BM BK).
Local Abbreviation b_block_ptr_at :=
  (BlockPointer.b_block_ptr_at b_ptr N K stride_bk stride_bn BN BK).
Local Abbreviation iterations :=
  (BlockPointer.iterations f16 f32 zero fadd fmul to_f32 pad
     a_ptr b_ptr M N K stride_am stride_ak stride_bk stride_bn BM BN BK).
Local Abbreviation input_load :=
  (BlockPointer.input_load a_ptr b_ptr M N K
     stride_am stride_ak stride_bk stride_bn).

Lemma iterations_S (pid_m pid_n : Z) (d : device f16) (n : nat) :
  iterations pid_m pid_n d (S n)
  = k_body BK (iterations pid_m pid_n d n) (0 + Z.of_nat n * BK).
Proof.
  unfold BlockPointer.iterations. rewrite seq_S, map_app, fold_left_app. reflexivity.
Qed.

Lemma k_loop_iterations (pid_m pid_n : Z) (d : device f16) :
  k_loop K BK (BlockPointer.zeros f32 zero (BM, BN),
               BlockPointer.make_block_ptr a_ptr (M, K) (stride_am, stride_ak)
                 (pid_m * BM, 0) (BM, BK) (1, 0),
               BlockPointer.make_block_ptr b_ptr (K, N) (stride_bk, stride_bn)
                 (0, pid_n * BN) (BK, BN) (1, 0), d)
  = iterations pid_m pid_n d (Z.to_nat (cdiv (K - 0) BK)).
Proof. reflexivity. Qed.

Lemma advance_a (pid_m : Z) (n : nat) :
  BlockPointer.advance (a_block_ptr_at pid_m n) (0, BK)
  = a_block_ptr_at pid_m (S n).
Proof.
  unfold BlockPointer.advance, BlockPointer.a_block_ptr_at. simpl BlockPointer.offsets.
  simpl fst. simpl snd. f_equal. f_equal; lia.
Qed.

Lemma advance_b (pid_n : Z) (n : nat) :
  BlockPointer.advance (b_block_ptr_at pid_n n) (BK, 0)
  = b_block_ptr_at pid_n (S n).
Proof.
  unfold BlockPointer.advance, BlockPointer.b_block_ptr_at. simpl BlockPointer.offsets.
  simpl fst. simpl snd. f_equal. f_equal; lia.
Qed.

(** The loop only loads, and only elements of A and B; its pointers move
    along K; the accumulator keeps its shape. *)
Lemma iterations_structure (pid_m pid_n : Z) (d : device f16) (n : nat) :
  exists acc dn,
    iterations pid_m pid_n d n
    = (acc, a_block_ptr_at pid_m n, b_block_ptr_at pid_n n, dn)
    /\ mem dn = mem d
    /\ BlockPointer.bshape acc = (BM, BN)
    /\ (forall ev, In ev (trace dn) -> In ev (trace d) \/ input_load ev)
    /\ (forall ev, In ev (trace d) -> In ev (trace dn)).
Proof.
  induction n as [|n IH].
  - eexists _, d. split; [reflexivity|]. split; [reflexivity|].
    split; [reflexivity|]. split; [|tauto]. intros ev H. left. exact H.
  - destruct IH as (acc & dn & E & Hm & Hs & Ht & Hmono).
    rewrite iterations_S, E. unfold BlockPointer.k_body.
    destruct (load_block (a_block_ptr_at pid_m n) [0; 1] dn) as [a d1] eqn:Ea.
    destruct (load_block (b_block_ptr_at pid_n n) [0; 1] d1) as [b d2] eqn:Eb.
    exists (BlockPointer.block_add f32 fadd acc (dot a b)), d2.
    split; [|split; [|split; [|split]]].
    + rewrite advance_a, advance_b. reflexivity.
    + replace d2 with (snd (load_block (b_block_ptr_at pid_n n) [0; 1] d1))
        by (rewrite Eb; reflexivity).
      replace d1 with (snd (load_block (a_block_ptr_at pid_m n) [0; 1] dn))
        by (rewrite Ea; reflexivity).
      rewrite !load_block_mem. exact Hm.
    + simpl. exact Hs.
    + intros ev Hev.
      replace d2 with (snd (load_block (b_block_ptr_at pid_n n) [0; 1] d1)) in Hev
        by (rewrite Eb; reflexivity).
      apply load_block_events in Hev. destruct Hev as [Hev|(addr & -> & Hin)].
      * replace d1 with (snd (load_block (a_block_ptr_at pid_m n) [0; 1] dn)) in Hev
          by (rewrite Ea; reflexivity).
        apply load_block_events in Hev. destruct Hev as [Hev|(addr & -> & Hin)].
        -- apply Ht. exact Hev.
        -- right. exists addr. split; [reflexivity|]. left. exact Hin.
      * right. exists addr. split; [reflexivity|]. right. exact Hin.
    + intros ev Hev. apply Hmono in Hev.
      assert (Hd1 : trace d1 = trace dn ++ map Load
                 (masked (map (BlockPointer.lane_addr (a_block_ptr_at pid_m n))
                              (BlockPointer.lanes (BM, BK)))
                         (map (BlockPointer.lane_ok [0; 1] (a_block_ptr_at pid_m n))
                              (BlockPointer.lanes (BM, BK))))).
      { injection Ea as _ <-. reflexivity. }
      assert (Hd2 : trace d2 = trace d1 ++ map Load
                 (masked (map (BlockPointer.lane_addr (b_block_ptr_at pid_n n))
                              (BlockPointer.lanes (BK, BN)))
                         (map (BlockPointer.lane_ok [0; 1] (b_block_ptr_at pid_n n))
                              (BlockPointer.lanes (BK, BN))))).
      { injection Eb as _ <-. reflexivity. }
      rewrite Hd2, Hd1, !in_app_iff. tauto.
Qed.

(** *** The program of one tile *)

Variable G : Z.

Local Abbreviation c_block_ptr_at :=
  (BlockPointer.c_block_ptr_at c_ptr M N stride_cm stride_cn BM BN).
Local Abbreviation program :=
  (kernel a_ptr b_ptr c_ptr M N K
          stride_am stride_ak stride_bk stride_bn stride_cm stride_cn
          BM BN BK G).
Local Abbreviation program_writes :=
  (BlockPointer.program_writes c_ptr M N stride_cm stride_cn BM BN G).
Local Abbreviation output_store :=
  (BlockPointer.output_store c_ptr M N stride_cm stride_cn).
Local Abbreviation c_addr :=
  (fun i j : Z => c_ptr + i * stride_cm + j * stride_cn).

(** A program is its K loop followed by one boundary-checked store of the
    down-cast accumulator. *)
Lemma program_spec (pid : Z) (d : device f16) :
  exists acc d1,
    let pid_m := fst (BlockPointer.pid_to_tile M N BM BN G pid) in
    let pid_n := snd (BlockPointer.pid_to_tile M N BM BN G pid) in
    let cbp := c_block_ptr_at pid_m pid_n in
    k_loop K BK (BlockPointer.zeros f32 zero (BM, BN),
                 a_block_ptr_at pid_m 0, b_block_ptr_at pid_n 0, d)
    = (acc, a_block_ptr_at pid_m (Z.to_nat (cdiv (K - 0) BK)),
       b_block_ptr_at pid_n (Z.to_nat (cdiv (K - 0) BK)), d1)
    /\ mem d1 = mem d
    /\ BlockPointer.bshape acc = (BM, BN)
    /\ (forall ev, In ev (trace d1) -> In ev (trace d) \/ input_load ev)
    /\ (forall ev, In ev (trace d) -> In ev (trace d1))
    /\ mem (program pid d)
       = store_lanes (BlockPointer.lane_addr cbp)
                     (fun l => to_f16 (BlockPointer.bval acc (fst l) (snd l)))
                     (BlockPointer.lane_ok [0; 1] cbp)
                     (BlockPointer.lanes (BM, BN)) (mem d)
    /\ trace (program pid d)
       = trace d1
         ++ map Store (map (BlockPointer.lane_addr cbp)
                           (List.filter (BlockPointer.lane_ok [0; 1] cbp)
                                        (BlockPointer.lanes (BM, BN)))).
Proof.
  unfold BlockPointer.matmul_kernel_with_block_pointers.
  destruct (BlockPointer.pid_to_tile M N BM BN G pid) as [pid_m pid_n].
  cbn [fst snd].
  destruct (iterations_structure pid_m pid_n d (Z.to_nat (cdiv (K - 0) BK)))
    as (acc & d1 & E & Hm & Hs & Ht & Hmono).
  exists acc, d1.
  change (BlockPointer.make_block_ptr a_ptr (M, K) (stride_am, stride_ak)
            (pid_m * BM, 0) (BM, BK) (1, 0)) with (a_block_ptr_at pid_m 0).
  change (BlockPointer.make_block_ptr b_ptr (K, N) (stride_bk, stride_bn)
            (0, pid_n * BN) (BK, BN) (1, 0)) with (b_block_ptr_at pid_n 0).
  change (k_loop K BK (BlockPointer.zeros f32 zero (BM, BN),
                       a_block_ptr_at pid_m 0, b_block_ptr_at pid_n 0, d))
    with (iterations pid_m pid_n d (Z.to_nat (cdiv (K - 0) BK))).
  rewrite E.
  split; [reflexivity|]. split; [exact Hm|]. split; [exact Hs|].
  split; [exact Ht|]. split; [exact Hmono|].
  unfold BlockPointer.store_block, tl_store. cbn [mem trace].
  split.
  - rewrite (store_mem_map
               (BlockPointer.lane_addr (c_block_ptr_at pid_m pid_n))
               (fun l => BlockPointer.bval
                           (BlockPointer.to_float16 f16 f32 to_f16 acc)
                           (fst l) (snd l))).
    rewrite Hm. reflexivity.
  - rewrite masked_map. reflexivity.
Qed.

Lemma In_program_writes (pid i j : Z) :
  In (i, j) (program_writes pid)
  <-> let pid_m := fst (BlockPointer.pid_to_tile M N BM BN G pid) in
      let pid_n := snd (BlockPointer.pid_to_tile M N BM BN G pid) in
      (0 <= i < M /\ 0 <= j < N)
      /\ pid_m * BM <= i < (pid_m + 1) * BM
      /\ pid_n * BN <= j < (pid_n + 1) * BN.
Proof.
  unfold BlockPointer.program_writes.
  destruct (BlockPointer.pid_to_tile M N BM BN G pid) as [pid_m pid_n].
  cbn [fst snd]. rewrite in_map_iff. split.
  - intros ([li lj] & E & H). apply filter_In in H. destruct H as [Hl Hok].
    apply In_lanes in Hl. apply lane_ok_both in Hok.
    unfold BlockPointer.lane_index in E. simpl in E, Hok.
    injection E as <- <-. lia.
  - intros (Hb & Hi & Hj). exists (i - pid_m * BM, j - pid_n * BN). split.
    + unfold BlockPointer.lane_index. simpl. f_equal; lia.
    + apply filter_In. split.
      * apply In_lanes. lia.
      * apply lane_ok_both. simpl. lia.
Qed.

(** The stores of a program are the stores to the positions in
    [program_writes]. *)
Lemma program_stores (pid : Z) (d : device f16) (addr : Z) :
  In (Store addr) (trace (program pid d))
  <-> In (Store addr) (trace d)
      \/ exists i j, In (i, j) (program_writes pid) /\ addr = c_addr i j.
Proof.
  destruct (program_spec pid d) as (acc & d1 & _ & _ & _ & Ht & Hmono & _ & Htr).
  cbn zeta in Htr. rewrite Htr, in_app_iff.
  unfold BlockPointer.program_writes.
  destruct (BlockPointer.pid_to_tile M N BM BN G pid) as [pid_m pid_n].
  cbn [fst snd]. split.
  - intros [H|H].
    + apply Ht in H. destruct H as [H|(a & Ha & _)]; [left; exact H|discriminate].
    + right. apply in_map_iff in H. destruct H as (a & Ea & H).
      injection Ea as ->.
      apply in_map_iff in H. destruct H as (l & <- & H).
      exists (fst (BlockPointer.lane_index (c_block_ptr_at pid_m pid_n) l)),
             (snd (BlockPointer.lane_index (c_block_ptr_at pid_m pid_n) l)).
      split.
      * rewrite <- surjective_pairing. apply in_map. exact H.
      * unfold BlockPointer.lane_addr.
        destruct (BlockPointer.lane_index (c_block_ptr_at pid_m pid_n) l).
        reflexivity.
  - intros [H|(i & j & H & ->)].
    + left. apply Hmono. exact H.
    + right. apply in_map. apply in_map_iff in H. destruct H as (l & E & H).
      apply in_map_iff. exists l. split; [|exact H].
      unfold BlockPointer.lane_addr. rewrite E. reflexivity.
Qed.

(** Every access of a program is a load of an element of A or B or a store
    to an element of C. *)
Lemma program_events (pid : Z) (d : device f16) (ev : event) :
  In ev (trace (program pid d)) ->
  In ev (trace d) \/ input_load ev \/ output_store ev.
Proof.
  destruct (program_spec pid d) as (acc & d1 & _ & _ & _ & Ht & _ & _ & Htr).
  cbn zeta in Htr. rewrite Htr, in_app_iff. intros [H|H].
  - apply Ht in H. tauto.
  - right. right. apply in_map_iff in H. destruct H as (a & <- & H).
    apply in_map_iff in H. destruct H as (l & <- & H).
    apply filter_In in H. destruct H as [_ H].
    eexists. split; [reflexivity|].
    apply (lane_ok_in_tensor
             (c_block_ptr_at (fst (BlockPointer.pid_to_tile M N BM BN G pid))
                             (snd (BlockPointer.pid_to_tile M N BM BN G pid))) l H).
Qed.

(** A program changes memory only at elements of C. *)
Lemma program_frame (pid addr : Z) (d : device f16) :
  ~ BlockPointer.in_tensor c_ptr (M, N) (stride_cm, stride_cn) addr ->
  mem (program pid d) addr = mem d addr.
Proof.
  intros Hout.
  destruct (program_spec pid d) as (acc & d1 & _ & _ & _ & _ & _ & Hmem & _).
  cbn zeta in Hmem. rewrite Hmem.
  apply store_lanes_miss. intros l _ Hok Heq. apply Hout. rewrite <- Heq.
  apply (lane_ok_in_tensor _ l Hok).
Qed.

(** *** Values *)

Local Abbreviation term :=
  (fun (m : Z -> f16) (i j k : Z) =>
     fmul (to_f32 (m (a_ptr + i * stride_am + k * stride_ak)))
          (to_f32 (m (b_ptr + k * stride_bk + j * stride_bn)))).
Local Abbreviation inside_K := (fun k : Z => (0 <=? k) && (k <? K)).

Lemma k_body_eq (acc : BlockPointer.block f32) (pa pb : BlockPointer.block_ptr)
    (d : device f16) (k : Z) :
  k_body BK (acc, pa, pb, d) k
  = (BlockPointer.block_add f32 fadd acc
       (dot (fst (load_block pa [0; 1] d))
            (fst (load_block pb [0; 1] (snd (load_block pa [0; 1] d))))),
     BlockPointer.advance pa (0, BK), BlockPointer.advance pb (BK, 0),
     snd (load_block pb [0; 1] (snd (load_block pa [0; 1] d)))).
Proof. reflexivity. Qed.

Lemma product_entry_fsum (m : Z -> f16) (i j : Z) :
  product_entry m a_ptr b_ptr K (stride_am, stride_ak) (stride_bk, stride_bn) i j
  = fsum (term m i j) (arange 0 K) zero.
Proof. reflexivity. Qed.

Hypothesis fadd_zero_r : forall x, fadd x zero = x.
Hypothesis pad_product : fmul (to_f32 pad) (to_f32 pad) = zero.

(** The lanes that fail the boundary check do not contribute: at a lane
    [(li, lj)] of the tile that lies inside C, the [dot] of the two loaded
    blocks is the sum over the in-bounds part of the K block only. *)
Lemma dot_padded (pid_m pid_n : Z) (n : nat) (da db : device f16) (li lj : Z) :
  0 <= BK ->
  mem db = mem da ->
  0 <= pid_m * BM + li < M -> 0 <= pid_n * BN + lj < N ->
  BlockPointer.bval
    (dot (fst (load_block (a_block_ptr_at pid_m n) [0; 1] da))
         (fst (load_block (b_block_ptr_at pid_n n) [0; 1] db))) li lj
  = fsum (term (mem da) (pid_m * BM + li) (pid_n * BN + lj))
         (arange (Z.min (Z.of_nat n * BK) K) (Z.min (Z.of_nat n * BK + BK) K))
         zero.
Proof.
  intros HBK Hmem Hi Hj.
  rewrite <- filter_arange_inside by nia.
  rewrite <- (fsum_filter f32 zero fadd fadd_zero_r).
  rewrite <- arange_shift, fsum_map.
  unfold BlockPointer.dot, BlockPointer.load_block. cbn [fst snd BlockPointer.bval
    BlockPointer.bshape BlockPointer.block_shape BlockPointer.a_block_ptr_at].
  apply (fsum_ext f32 fadd). intros kk Hkk. apply In_arange in Hkk.
  rewrite (bool_eq_iff
             (BlockPointer.lane_ok [0; 1] (a_block_ptr_at pid_m n) (li, kk))
             (inside_K (Z.of_nat n * BK + kk))).
  2:{ rewrite lane_ok_both, andb_true_iff, Z.leb_le, Z.ltb_lt. simpl. lia. }
  rewrite (bool_eq_iff
             (BlockPointer.lane_ok [0; 1] (b_block_ptr_at pid_n n) (kk, lj))
             (inside_K (Z.of_nat n * BK + kk))).
  2:{ rewrite lane_ok_both, andb_true_iff, Z.leb_le, Z.ltb_lt. simpl. lia. }
  destruct (inside_K (Z.of_nat n * BK + kk)); [|exact pad_product].
  rewrite Hmem. reflexivity.
Qed.

Hypothesis fadd_assoc : forall x y z, fadd x (fadd y z) = fadd (fadd x y) z.

(** After [n] iterations the accumulator holds, at every lane inside C,
    the sum over the first [min(n * BLOCK_SIZE_K, K)] positions of K. *)
Lemma iterations_value (pid_m pid_n : Z) (d : device f16) (li lj : Z) (n : nat) :
  0 <= K -> 0 <= BK ->
  0 <= pid_m * BM + li < M -> 0 <= pid_n * BN + lj < N ->
  BlockPointer.bval (fst (fst (fst (iterations pid_m pid_n d n)))) li lj
  = fsum (term (mem d) (pid_m * BM + li) (pid_n * BN + lj))
         (arange 0 (Z.min (Z.of_nat n * BK) K)) zero.
Proof.
  intros HK HBK Hi Hj. induction n as [|n IH].
  - simpl. rewrite arange_empty by lia. reflexivity.
  - destruct (iterations_structure pid_m pid_n d n)
      as (acc & dn & E & Hm & _ & _ & _).
    rewrite iterations_S, E, k_body_eq. rewrite E in IH.
    cbn [fst snd] in IH |- *.
    unfold BlockPointer.block_add at 1. cbn [BlockPointer.bval].
    rewrite IH, (dot_padded pid_m pid_n n dn) by (assumption || reflexivity).
    rewrite Hm.
    rewrite <- (fsum_start f32 zero fadd fadd_zero_r fadd_assoc).
    rewrite <- fsum_app, <- arange_app by nia.
    f_equal. f_equal. lia.
Qed.

Lemma k_steps_cover :
  0 <= K -> 0 < BK ->
  Z.min (Z.of_nat (Z.to_nat (cdiv (K - 0) BK)) * BK) K = K.
Proof.
  intros HK HBK. unfold cdiv.
  pose proof (Z.div_mod (K - 0 + BK - 1) BK ltac:(lia)) as E.
  pose proof (Z.mod_pos_bound (K - 0 + BK - 1) BK HBK) as Hm.
  assert (0 <= (K - 0 + BK - 1) / BK) by (apply Z.div_pos; lia).
  rewrite Z2Nat.id by assumption. nia.
Qed.

(** *** Ownership of the entries of C *)

(** A program leaves alone the entries of C outside its tile. *)
Lemma program_other (pid i j : Z) (d : device f16) :
  stride_cn = 1 -> N <= stride_cm -> 0 < BM -> 0 < BN ->
  0 <= i < M -> 0 <= j < N ->
  BlockPointer.pid_to_tile M N BM BN G pid <> (i / BM, j / BN) ->
  mem (program pid d) (c_addr i j) = mem d (c_addr i j).
Proof.
  intros Hcn Hcm HBM HBN Hi Hj Hne.
  destruct (program_spec pid d) as (acc & d1 & _ & _ & _ & _ & _ & Hmem & _).
  cbn zeta in Hmem. rewrite Hmem. clear Hmem.
  destruct (BlockPointer.pid_to_tile M N BM BN G pid) as [pid_m pid_n].
  cbn [fst snd].
  apply store_lanes_miss. intros [li lj] Hl Hok Heq. apply Hne.
  apply In_lanes in Hl. apply lane_ok_both in Hok. simpl in Hok.
  unfold BlockPointer.lane_addr, BlockPointer.lane_index in Heq. simpl in Heq.
  subst stride_cn.
  destruct (dense_injective N stride_cm (pid_m * BM + li) (pid_n * BN + lj) i j)
    as [Ei Ej]; [lia|lia|lia|lia|].
  f_equal.
  - apply Z.div_unique with (r := li); lia.
  - apply Z.div_unique with (r := lj); lia.
Qed.

(** A program leaves at every entry of its tile the down-cast of its final
    accumulator. *)
Lemma program_own (pid i j : Z) (d : device f16) :
  stride_cn = 1 -> N <= stride_cm ->
  In (i, j) (program_writes pid) ->
  let pid_m := fst (BlockPointer.pid_to_tile M N BM BN G pid) in
  let pid_n := snd (BlockPointer.pid_to_tile M N BM BN G pid) in
  mem (program pid d) (c_addr i j)
  = to_f16 (BlockPointer.bval
              (fst (fst (fst (k_loop K BK
                 (BlockPointer.zeros f32 zero (BM, BN),
                  a_block_ptr_at pid_m 0, b_block_ptr_at pid_n 0, d)))))
              (i - pid_m * BM) (j - pid_n * BN)).
Proof.
  intros Hcn Hcm Hin. apply In_program_writes in Hin.
  destruct (program_spec pid d) as (acc & d1 & E & _ & _ & _ & _ & Hmem & _).
  cbn zeta in *. rewrite Hmem, E. clear Hmem E.
  destruct (BlockPointer.pid_to_tile M N BM BN G pid) as [pid_m pid_n].
  cbn [fst snd] in *.
  destruct Hin as ((Hi & Hj) & Hti & Htj).
  assert (Hlane : forall l,
            BlockPointer.lane_ok [0; 1] (c_block_ptr_at pid_m pid_n) l = true ->
            BlockPointer.lane_addr (c_block_ptr_at pid_m pid_n) l = c_addr i j ->
            l = (i - pid_m * BM, j - pid_n * BN)).
  { intros [li lj] Hok Heq. apply lane_ok_both in Hok. simpl in Hok.
    unfold BlockPointer.lane_addr, BlockPointer.lane_index in Heq. simpl in Heq.
    subst stride_cn.
    destruct (dense_injective N stride_cm (pid_m * BM + li) (pid_n * BN + lj) i j)
      as [Ei Ej]; [lia|lia|lia|lia|].
    f_equal; lia. }
  apply store_lanes_hit.
  - exists (i - pid_m * BM, j - pid_n * BN). split; [apply In_lanes; lia|].
    split.
    + apply lane_ok_both. simpl. lia.
    + unfold BlockPointer.lane_addr, BlockPointer.lane_index. simpl.
      f_equal; [f_equal|]; f_equal; lia.
  - intros l _ Hok Heq. rewrite (Hlane l Hok Heq). reflexivity.
Qed.

(** With the arithmetic laws, that value is the entry of the product. *)
Lemma program_own_product (pid i j : Z) (d : device f16) :
  stride_cn = 1 -> N <= stride_cm -> 0 <= K -> 0 < BK ->
  In (i, j) (program_writes pid) ->
  mem (program pid d) (c_addr i j)
  = to_f16 (product_entry (mem d) a_ptr b_ptr K
              (stride_am, stride_ak) (stride_bk, stride_bn) i j).
Proof.
  intros Hcn Hcm HK HBK Hin.
  pose proof (program_own pid i j d Hcn Hcm Hin) as Hown.
  cbn beta zeta in Hown |- *. rewrite Hown. clear Hown.
  apply In_program_writes in Hin. cbn zeta in Hin.
  destruct (BlockPointer.pid_to_tile M N BM BN G pid) as [pid_m pid_n].
  cbn [fst snd] in *.
  change (k_loop K BK (BlockPointer.zeros f32 zero (BM, BN),
                       a_block_ptr_at pid_m 0, b_block_ptr_at pid_n 0, d))
    with (iterations pid_m pid_n d (Z.to_nat (cdiv (K - 0) BK))).
  rewrite iterations_value by lia.
  rewrite k_steps_cover by lia.
  rewrite product_entry_fsum.
  replace (pid_m * BM + (i - pid_m * BM)) with i by lia.
  replace (pid_n * BN + (j - pid_n * BN)) with j by lia.
  reflexivity.
Qed.

(** *** The whole launch *)

Local Abbreviation grid := (cdiv M BM * cdiv N BN).

(** The program that owns entry [(i, j)] of C. *)
Lemma owner_exists (i j : Z) :
  0 < BM -> 0 < BN -> 0 < G -> 0 <= i < M -> 0 <= j < N ->
  exists pid, 0 <= pid < grid
              /\ BlockPointer.pid_to_tile M N BM BN G pid = (i / BM, j / BN)
              /\ In (i, j) (program_writes pid).
Proof.
  intros HBM HBN HG Hi Hj.
  destruct (cdiv_owner M BM i HBM Hi) as [Hpm Hri].
  destruct (cdiv_owner N BN j HBN Hj) as [Hpn Hrj].
  destruct (tile_surjective (cdiv M BM) (cdiv N BN) G (i / BM) (j / BN) HG Hpm Hpn)
    as (pid & Hpid & Ht).
  exists pid. split; [exact Hpid|]. rewrite pid_to_tile_tile. split; [exact Ht|].
  apply In_program_writes. cbn zeta. rewrite pid_to_tile_tile, Ht. simpl. lia.
Qed.

Lemma owner_unique (pid pid' i j : Z) :
  0 < BM -> 0 < BN -> 0 < G -> 0 <= N ->
  0 <= pid < grid -> 0 <= pid' < grid ->
  In (i, j) (program_writes pid) -> In (i, j) (program_writes pid') ->
  pid = pid'.
Proof.
  intros HBM HBN HG HN Hp Hp' Hin Hin'.
  apply In_program_writes in Hin, Hin'. cbn zeta in Hin, Hin'.
  apply (tile_injective (cdiv M BM) (cdiv N BN) G); try assumption.
  - apply cdiv_nonneg; assumption.
  - rewrite <- !pid_to_tile_tile.
    destruct (BlockPointer.pid_to_tile M N BM BN G pid) as [pm pn].
    destruct (BlockPointer.pid_to_tile M N BM BN G pid') as [pm' pn'].
    cbn [fst snd] in *.
    f_equal; nia.
Qed.

(** After the programs of the grid have run, in any order, every entry of C
    holds the entry of the product, computed from the memory before the
    launch. *)
Lemma run_product (order : list Z) (d : device f16) (i j : Z) :
  0 < BM -> 0 < BN -> 0 < BK -> 0 < G ->
  0 <= N -> 0 <= K ->
  stride_cn = 1 -> N <= stride_cm ->
  (forall addr,
     BlockPointer.in_tensor c_ptr (M, N) (stride_cm, stride_cn) addr ->
     ~ BlockPointer.in_tensor a_ptr (M, K) (stride_am, stride_ak) addr
     /\ ~ BlockPointer.in_tensor b_ptr (K, N) (stride_bk, stride_bn) addr) ->
  (forall p, In p order <-> 0 <= p < grid) ->
  0 <= i < M -> 0 <= j < N ->
  mem (run_programs order program d) (c_addr i j)
  = to_f16 (product_entry (mem d) a_ptr b_ptr K
              (stride_am, stride_ak) (stride_bk, stride_bn) i j).
Proof.
  intros HBM HBN HBK HG HN HK Hcn Hcm Hdisj Horder Hi Hj.
  destruct (owner_exists i j HBM HBN HG Hi Hj) as (p0 & Hp0 & Ht0 & Hin0).
  apply (run_owner program
           (fun s => BlockPointer.in_tensor a_ptr (M, K) (stride_am, stride_ak) s
                     \/ BlockPointer.in_tensor b_ptr (K, N) (stride_bk, stride_bn) s)
           grid p0).
  - intros p d' s _ Hs. apply program_frame. intros Hc.
    destruct (Hdisj s Hc). tauto.
  - intros d' Hd'. rewrite program_own_product by assumption.
    f_equal. rewrite !product_entry_fsum.
    apply (fsum_ext f32 fadd). intros k Hk. apply In_arange in Hk.
    f_equal; f_equal; apply Hd'.
    + left. exists i, k. simpl. repeat split; lia.
    + right. exists k, j. simpl. repeat split; lia.
  - intros p d' Hp Hne. apply program_other; try assumption.
    intros Ht. apply Hne.
    apply (tile_injective (cdiv M BM) (cdiv N BN) G); try assumption.
    + apply cdiv_nonneg; assumption.
    + rewrite <- !pid_to_tile_tile. congruence.
  - intros p Hp. apply Horder. exact Hp.
  - apply Horder. exact Hp0.
Qed.

Lemma launch_product (d : device f16) (i j : Z) :
  0 < BM -> 0 < BN -> 0 < BK -> 0 < G ->
  0 <= N -> 0 <= K ->
  stride_cn = 1 -> N <= stride_cm ->
  (forall addr,
     BlockPointer.in_tensor c_ptr (M, N) (stride_cm, stride_cn) addr ->
     ~ BlockPointer.in_tensor a_ptr (M, K) (stride_am, stride_ak) addr
     /\ ~ BlockPointer.in_tensor b_ptr (K, N) (stride_bk, stride_bn) addr) ->
  0 <= i < M -> 0 <= j < N ->
  mem (launch grid program d) (c_addr i j)
  = to_f16 (product_entry (mem d) a_ptr b_ptr K
              (stride_am, stride_ak) (stride_bk, stride_bn) i j).
Proof.
  intros HBM HBN HBK HG HN HK Hcn Hcm Hdisj Hi Hj. unfold launch.
  apply run_product; try assumption.
  intros p. apply In_arange.
Qed.

End KernelProperties.

(** ** The autotuner *)

Lemma fastest_in (bench : BlockPointer.Config -> Z) (cs : list BlockPointer.Config)
    (c0 : BlockPointer.Config) :
  In (BlockPointer.fastest bench cs c0) (c0 :: cs).
Proof.
  unfold BlockPointer.fastest. revert c0.
  induction cs as [|c cs IH]; intros c0; simpl; [left; reflexivity|].
  destruct (bench c <? bench c0).
  - right. apply IH.
  - destruct (IH c0) as [H|H]; [left; exact H|right; right; exact H].
Qed.

Lemma autotune_in_configs (bench : BlockPointer.Config -> Z) (k : list Z)
    (cache : gmap (list Z) BlockPointer.Config) :
  BlockPointer.cache_ok cache ->
  In (fst (BlockPointer.autotune bench k cache)) BlockPointer.configs
  /\ BlockPointer.cache_ok (snd (BlockPointer.autotune bench k cache)).
Proof.
  intros Hok. unfold BlockPointer.autotune.
  destruct (cache !! k) as [c|] eqn:E; simpl.
  - split; [apply (Hok k c E)|exact Hok].
  - pose proof (fastest_in bench (tl BlockPointer.configs)
                           (hd (BlockPointer.mkConfig 0 0 0 0 0 0)
                               BlockPointer.configs)) as Hf.
    split; [exact Hf|].
    intros k' c'. destruct (decide (k = k')) as [->|Hne].
    + rewrite lookup_insert_eq. intros [= <-]. exact Hf.
    + rewrite lookup_insert_ne by exact Hne. apply Hok.
Qed.

(** A later launch with the same key gets the configuration that an earlier
    launch selected, whatever the timings of the later launch are. *)
Lemma autotune_cached (bench bench' : BlockPointer.Config -> Z) (k : list Z)
    (cache : gmap (list Z) BlockPointer.Config) :
  BlockPointer.autotune bench' k (snd (BlockPointer.autotune bench k cache))
  = (fst (BlockPointer.autotune bench k cache),
     snd (BlockPointer.autotune bench k cache)).
Proof.
  unfold BlockPointer.autotune.
  destruct (cache !! k) as [c|] eqn:E; simpl.
  - rewrite E. reflexivity.
  - rewrite lookup_insert_eq. reflexivity.
Qed.

Lemma configs_positive (c : BlockPointer.Config) :
  In c BlockPointer.configs ->
  0 < BlockPointer.BLOCK_SIZE_M c /\ 0 < BlockPointer.BLOCK_SIZE_N c
  /\ 0 < BlockPointer.BLOCK_SIZE_K c /\ 0 < BlockPointer.GROUP_SIZE_M c.
Proof.
  unfold BlockPointer.configs. simpl.
  intros H. repeat (destruct H as [<-|H]; [simpl; lia|]). destruct H.
Qed.

(** ** The [matmul] wrapper *)

Lemma launch_events {elt : Type} (kernel : Z -> device elt -> device elt)
    (P : event -> Prop) (grid : Z) (d0 : device elt) (ev : event) :
  (forall p d, In ev (trace (kernel p d)) -> In ev (trace d) \/ P ev) ->
  In ev (trace (launch grid kernel d0)) -> In ev (trace d0) \/ P ev.
Proof.
  intros H. unfold launch, run_programs.
  induction (arange 0 grid) as [|q l IH] using rev_ind; simpl; [tauto|].
  rewrite fold_left_app. simpl. intros Hev.
  apply H in Hev. destruct Hev as [Hev|Hev]; [apply IH; exact Hev|right; exact Hev].
Qed.

Lemma range_spec (K BK k : Z) :
  0 < BK ->
  In k (BlockPointer.range 0 K BK) <-> 0 <= k < K /\ k mod BK = 0.
Proof.
  intros HBK. unfold BlockPointer.range, cdiv. rewrite in_map_iff.
  pose proof (Z.div_mod (K - 0 + BK - 1) BK ltac:(lia)) as E.
  pose proof (Z.mod_pos_bound (K - 0 + BK - 1) BK HBK) as Hm.
  split.
  - intros (n & <- & Hn). apply in_seq in Hn.
    split; [|rewrite Z.add_0_l; apply Z.mod_mul; lia].
    destruct (Z.le_gt_cases ((K - 0 + BK - 1) / BK) 0) as [Hle|Hgt]; [lia|].
    nia.
  - intros [Hk Hmod].
    pose proof (Z.div_mod k BK ltac:(lia)) as Ek. rewrite Hmod in Ek.
    assert (0 <= k / BK) by (apply Z.div_pos; lia).
    exists (Z.to_nat (k / BK)). split; [lia|].
    apply in_seq. split; [lia|].
    assert (k / BK < (K - 0 + BK - 1) / BK) by nia.
    lia.
Qed.

(** The storage of a freshly allocated [(M, N)] tensor lies at and above the
    allocation mark. *)
Lemma fresh_above (p M N addr : Z) :
  BlockPointer.in_tensor p (M, N) (Z.max N 1, 1) addr -> p <= addr < p + M * N.
Proof.
  intros (i & j & Hi & Hj & ->). simpl in *. nia.
Qed.

Section WrapperTheorems.

Variable f16 f32 : Type.
Variable zero : f32.
Variable fadd fmul : f32 -> f32 -> f32.
Variable to_f32 : f16 -> f32.
Variable to_f16 : f32 -> f16.
Variable pad : f16.

Local Abbreviation kernel :=
  (BlockPointer.matmul_kernel_with_block_pointers
     f16 f32 zero fadd fmul to_f32 to_f16 pad).
Local Abbreviation matmul :=
  (BlockPointer.matmul f16 f32 zero fadd fmul to_f32 to_f16 pad).
Local Abbreviation matrix_product :=
  (BlockPointer.matrix_product f16 f32 zero fadd fmul to_f32 to_f16).
Local Abbreviation product_entry :=
  (BlockPointer.product_entry f16 f32 zero fadd fmul to_f32).

(** What [matmul] does once its three assertions have passed. *)
Lemma matmul_done (bench : BlockPointer.Config -> Z) (a b : BlockPointer.tensor)
    (h : BlockPointer.host f16) :
  snd (BlockPointer.shape a) = fst (BlockPointer.shape b) ->
  BlockPointer.is_contiguous a = true ->
  BlockPointer.is_contiguous b = true ->
  let M := fst (BlockPointer.shape a) in
  let K := fst (BlockPointer.shape b) in
  let N := snd (BlockPointer.shape b) in
  let META := fst (BlockPointer.autotune bench (BlockPointer.key_values M N K)
                     (BlockPointer.cache f16 h)) in
  matmul bench a b h
  = (Done (BlockPointer.Tensor (BlockPointer.brk f16 h) (M, N) (Z.max N 1, 1)),
     BlockPointer.Host f16
       (launch (cdiv M (BlockPointer.BLOCK_SIZE_M META)
                * cdiv N (BlockPointer.BLOCK_SIZE_N META))
               (kernel (BlockPointer.data_ptr a) (BlockPointer.data_ptr b)
                       (BlockPointer.brk f16 h) M N K
                       (fst (BlockPointer.stride a)) (snd (BlockPointer.stride a))
                       (fst (BlockPointer.stride b)) (snd (BlockPointer.stride b))
                       (Z.max N 1) 1
                       (BlockPointer.BLOCK_SIZE_M META)
                       (BlockPointer.BLOCK_SIZE_N META)
                       (BlockPointer.BLOCK_SIZE_K META)
                       (BlockPointer.GROUP_SIZE_M META))
               (BlockPointer.dev f16 h))
       (BlockPointer.brk f16 h + M * N)
       (snd (BlockPointer.autotune bench (BlockPointer.key_values M N K)
               (BlockPointer.cache f16 h)))).
Proof.
  intros Hs Ha Hb. unfold BlockPointer.matmul.
  rewrite Hs, Z.eqb_refl, Ha, Hb. cbn [negb].
  destruct (BlockPointer.shape a) as [M Ka].
  destruct (BlockPointer.shape b) as [K N].
  unfold BlockPointer.torch_empty.
  cbn [fst snd BlockPointer.cache BlockPointer.dev BlockPointer.brk
       BlockPointer.data_ptr BlockPointer.stride].
  destruct (BlockPointer.autotune bench (BlockPointer.key_values M N K)
              (BlockPointer.cache f16 h)) as [META tuned].
  reflexivity.
Qed.

(** What [matmul] does when one of its assertions fails. *)
Lemma matmul_raise (bench : BlockPointer.Config -> Z) (a b : BlockPointer.tensor)
    (h : BlockPointer.host f16) :
  snd (BlockPointer.shape a) <> fst (BlockPointer.shape b)
  \/ BlockPointer.is_contiguous a = false
  \/ BlockPointer.is_contiguous b = false ->
  exists msg, matmul bench a b h = (Raise (AssertionError (Some msg)), h).
Proof.
  intros H. unfold BlockPointer.matmul.
  destruct (Z.eqb_spec (snd (BlockPointer.shape a)) (fst (BlockPointer.shape b)))
    as [E|E]; cbn [negb]; [|eexists; reflexivity].
  destruct (BlockPointer.is_contiguous a); cbn [negb]; [|eexists; reflexivity].
  destruct (BlockPointer.is_contiguous b); cbn [negb]; [|eexists; reflexivity].
  destruct H as [H|[H|H]]; [contradiction|discriminate|discriminate].
Qed.

(** C9.  [matmul a b] leaves every address below the allocation mark as it
    was, whether it returns or raises; so every element of allocated
    tensors [a] and [b] is unchanged.  The accesses of the call are loads
    and stores into the freshly allocated output only. *)
Theorem matmul_preserves_inputs (bench : BlockPointer.Config -> Z)
    (a b : BlockPointer.tensor) (h : BlockPointer.host f16) :
  let h' := snd (matmul bench a b h) in
  (forall addr, addr < BlockPointer.brk f16 h ->
     mem (BlockPointer.dev f16 h') addr = mem (BlockPointer.dev f16 h) addr)
  /\ (BlockPointer.allocated f16 h a ->
      forall i k, 0 <= i < fst (BlockPointer.shape a) ->
                  0 <= k < snd (BlockPointer.shape a) ->
        BlockPointer.elem f16 (mem (BlockPointer.dev f16 h')) a i k
        = BlockPointer.elem f16 (mem (BlockPointer.dev f16 h)) a i k)
  /\ (BlockPointer.allocated f16 h b ->
      forall k j, 0 <= k < fst (BlockPointer.shape b) ->
                  0 <= j < snd (BlockPointer.shape b) ->
        BlockPointer.elem f16 (mem (BlockPointer.dev f16 h')) b k j
        = BlockPointer.elem f16 (mem (BlockPointer.dev f16 h)) b k j)
  /\ (forall ev, In ev (trace (BlockPointer.dev f16 h')) ->
        In ev (trace (BlockPointer.dev f16 h))
        \/ (exists addr, ev = Load addr)
        \/ (exists addr, ev = Store addr
                         /\ BlockPointer.brk f16 h <= addr
                            < BlockPointer.brk f16 h'
                         /\ BlockPointer.brk f16 h'
                            = BlockPointer.brk f16 h
                              + fst (BlockPointer.shape a)
                                * snd (BlockPointer.shape b))).
Proof.
  intros h'.
  assert (Hframe : forall addr, addr < BlockPointer.brk f16 h ->
            mem (BlockPointer.dev f16 h') addr = mem (BlockPointer.dev f16 h) addr).
  { intros addr Haddr. subst h'.
    destruct (Z.eq_dec (snd (BlockPointer.shape a)) (fst (BlockPointer.shape b)))
      as [Hs|Hs].
    2:{ destruct (matmul_raise bench a b h (or_introl Hs)) as (msg & ->).
        reflexivity. }
    destruct (BlockPointer.is_contiguous a) eqn:Ha.
    2:{ destruct (matmul_raise bench a b h (or_intror (or_introl Ha)))
          as (msg & ->). reflexivity. }
    destruct (BlockPointer.is_contiguous b) eqn:Hb.
    2:{ destruct (matmul_raise bench a b h (or_intror (or_intror Hb)))
          as (msg & ->). reflexivity. }
    pose proof (matmul_done bench a b h Hs Ha Hb) as E. cbn zeta in E.
    rewrite E. cbn [snd BlockPointer.dev].
    apply launch_frame. intros p d _. apply program_frame.
    intros Hc. apply fresh_above in Hc. lia. }
  split; [exact Hframe|].
  split; [|split].
  - intros Halloc i k Hi Hk. unfold BlockPointer.elem. apply Hframe.
    apply Halloc. exists i, k. tauto.
  - intros Halloc k j Hk Hj. unfold BlockPointer.elem. apply Hframe.
    apply Halloc. exists k, j. tauto.
  - intros ev. subst h'.
    destruct (Z.eq_dec (snd (BlockPointer.shape a)) (fst (BlockPointer.shape b)))
      as [Hs|Hs].
    2:{ destruct (matmul_raise bench a b h (or_introl Hs)) as (msg & ->).
        cbn [snd]. tauto. }
    destruct (BlockPointer.is_contiguous a) eqn:Ha.
    2:{ destruct (matmul_raise bench a b h (or_intror (or_introl Ha)))
          as (msg & ->). cbn [snd]. tauto. }
    destruct (BlockPointer.is_contiguous b) eqn:Hb.
    2:{ destruct (matmul_raise bench a b h (or_intror (or_intror Hb)))
          as (msg & ->). cbn [snd]. tauto. }
    pose proof (matmul_done bench a b h Hs Ha Hb) as E. cbn zeta in E.
    rewrite E. cbn [snd BlockPointer.dev BlockPointer.brk]. intros Hev.
    apply (launch_events _
             (fun ev => (exists addr, ev = Load addr)
                        \/ (exists addr, ev = Store addr
                              /\ BlockPointer.brk f16 h <= addr
                                 < BlockPointer.brk f16 h
                                   + fst (BlockPointer.shape a)
                                     * snd (BlockPointer.shape b)
                              /\ BlockPointer.brk f16 h
                                 + fst (BlockPointer.shape a)
                                   * snd (BlockPointer.shape b)
                                 = BlockPointer.brk f16 h
                                   + fst (BlockPointer.shape a)
                                     * snd (BlockPointer.shape b)))) in Hev.
    + tauto.
    + intros p d Hp. apply program_events in Hp.
      destruct Hp as [Hp|[(addr & -> & _)|(addr & -> & Hc)]].
      * left. exact Hp.
      * right. left. exists addr. reflexivity.
      * right. right. exists addr. split; [reflexivity|].
        apply fresh_above in Hc. split; [exact Hc|reflexivity].
Qed.

(** C7.  The decorator declares exactly eight configurations, each with
    [GROUP_SIZE_M = 8], and the key [M, N, K], whose values are the problem
    dimensions.  The configuration of a launch is always one of the eight;
    once a launch has run for a key, every later launch with that key runs
    with the same configuration, whatever its own timings and whatever was
    launched in between; in particular a [matmul] call after another one
    with equal [M], [N], [K] uses the configuration of the first. *)
Theorem autotune_deterministic_in_key :
  length BlockPointer.configs = 8%nat
  /\ (forall c, In c BlockPointer.configs -> BlockPointer.GROUP_SIZE_M c = 8)
  /\ BlockPointer.key = ["M"; "N"; "K"]%string
  /\ (forall M N K, BlockPointer.key_values M N K = [M; N; K])
  /\ (forall bench k cache,
        BlockPointer.cache_ok cache ->
        In (fst (BlockPointer.autotune bench k cache)) BlockPointer.configs
        /\ BlockPointer.cache_ok (snd (BlockPointer.autotune bench k cache)))
  /\ (forall bench k cache
             (between : list ((BlockPointer.Config -> Z) * list Z)) bench',
        fst (BlockPointer.autotune bench' k
               (fold_left (fun c r => snd (BlockPointer.autotune (fst r) (snd r) c))
                          between
                          (snd (BlockPointer.autotune bench k cache))))
        = fst (BlockPointer.autotune bench k cache))
  /\ (forall bench bench' a b h,
        snd (BlockPointer.shape a) = fst (BlockPointer.shape b) ->
        BlockPointer.is_contiguous a = true ->
        BlockPointer.is_contiguous b = true ->
        let M := fst (BlockPointer.shape a) in
        let K := fst (BlockPointer.shape b) in
        let N := snd (BlockPointer.shape b) in
        BlockPointer.selected_config f16 bench' M N K (snd (matmul bench a b h))
        = BlockPointer.selected_config f16 bench M N K h).
Proof.
  split; [reflexivity|].
  split.
  { unfold BlockPointer.configs. simpl. intros c H.
    repeat (destruct H as [<-|H]; [reflexivity|]). destruct H. }
  split; [reflexivity|]. split; [reflexivity|].
  split; [intros bench k cache; apply autotune_in_configs|].
  assert (Hkeep : forall (between : list ((BlockPointer.Config -> Z) * list Z))
                         (cache : gmap (list Z) BlockPointer.Config) k c,
            cache !! k = Some c ->
            fold_left (fun c r => snd (BlockPointer.autotune (fst r) (snd r) c))
                      between cache !! k = Some c).
  { induction between as [|[bench1 k1] between IH]; intros cache k c Hc; simpl.
    - exact Hc.
    - apply IH. unfold BlockPointer.autotune.
      destruct (cache !! k1) as [c1|] eqn:E1; simpl; [exact Hc|].
      rewrite lookup_insert_ne; [exact Hc|]. congruence. }
  assert (Hhit : forall bench k (cache : gmap (list Z) BlockPointer.Config),
            snd (BlockPointer.autotune bench k cache) !! k
            = Some (fst (BlockPointer.autotune bench k cache))).
  { intros bench k cache. unfold BlockPointer.autotune.
    destruct (cache !! k) as [c|] eqn:E; simpl; [exact E|].
    apply lookup_insert_eq. }
  split.
  - intros bench k cache between bench'.
    pose proof (Hkeep between _ k _ (Hhit bench k cache)) as Hc.
    unfold BlockPointer.autotune at 1. rewrite Hc. reflexivity.
  - intros bench bench' a b h Hs Ha Hb M K N.
    pose proof (matmul_done bench a b h Hs Ha Hb) as E. cbn zeta in E.
    unfold BlockPointer.selected_config. subst M K N. rewrite E.
    cbn [snd BlockPointer.cache].
    rewrite autotune_cached. reflexivity.
Qed.

End WrapperTheorems.

(** ** Assertions and self-checks of the notebook cells *)

Lemma arange_nonempty (lo hi : Z) : lo < hi -> arange lo hi <> [].
Proof.
  intros H E. assert (Hin : In lo (arange lo hi)) by (apply In_arange; lia).
  rewrite E in Hin. destruct Hin.
Qed.

Lemma map_nonempty {X Y : Type} (f : X -> Y) (l : list X) : l <> [] -> map f l <> [].
Proof. destruct l; simpl; congruence. Qed.

Lemma combine_map {X Y Z' : Type} (f : X -> Y) (g : X -> Z') (l : list X) :
  combine (map f l) (map g l) = map (fun x => (f x, g x)) l.
Proof. induction l as [|x l IH]; simpl; [reflexivity|]. rewrite IH. reflexivity. Qed.

Lemma arange_head (lo hi : Z) : lo < hi -> arange lo hi = lo :: arange (lo + 1) hi.
Proof.
  intros H. rewrite (arange_app lo (lo + 1) hi) by lia.
  unfold arange at 1. replace (lo + 1 - lo) with 1 by lia. simpl.
  rewrite Z.add_0_r. reflexivity.
Qed.

(** [allclose] on two lists of the same length holds exactly when every
    pair of elements at the same position passes the element test. *)
Lemma allclose_Forall2 {elt : Type} (isclose : elt -> elt -> bool) (x y : list elt) :
  length x = length y ->
  BlockPointer.allclose elt isclose x y = true
  <-> Forall2 (fun u v => isclose u v = true) x y.
Proof.
  unfold BlockPointer.allclose. revert y.
  induction x as [|u x IH]; intros [|v y] Hlen; simpl in *; try discriminate.
  - split; [constructor|reflexivity].
  - rewrite andb_true_iff, IH by lia. split.
    + intros [H1 H2]. constructor; assumption.
    + intros H. inversion H; subst. tauto.
Qed.

Section NotebookTheorems.

(** The [asin] notebook. *)
Variable t32 : Type.
Variable asin : t32 -> t32.
Variable undef : t32.
Variable torch_asin : t32 -> t32.
Variable tsub : t32 -> t32 -> t32.
Variable tabs : t32 -> t32.
Variable tmax : t32 -> t32 -> t32.
Variable trepr : list t32 -> string.
Variable fmt : t32 -> string.

(** The matmul notebook. *)
Variable f16 f32 : Type.
Variable zero : f32.
Variable fadd fmul : f32 -> f32 -> f32.
Variable to_f32 : f16 -> f32.
Variable to_f16 : f32 -> f16.
Variable pad : f16.
Variable torch_matmul :
  (Z -> f16) -> BlockPointer.tensor -> BlockPointer.tensor -> list f16.
Variable isclose : f16 -> f16 -> bool.
Variable repr : list f16 -> string.

Local Abbreviation default_path :=
  (Libdevice.default_path t32 asin undef torch_asin tsub tabs tmax trepr fmt).
Local Abbreviation custom_path :=
  (Libdevice.custom_path t32 asin undef torch_asin tsub tabs tmax trepr fmt).
Local Abbreviation asin_launch := (Libdevice.asin_launch t32 asin undef).
Local Abbreviation matmul :=
  (BlockPointer.matmul f16 f32 zero fadd fmul to_f32 to_f16 pad).
Local Abbreviation unit_test :=
  (BlockPointer.unit_test f16 f32 zero fadd fmul to_f32 to_f16 pad
     torch_matmul isclose repr).

Lemma compare_and_print_not_assertion (output_torch : list t32)
    (output_triton : Libdevice.tensor) (d : device t32) (msg : option string) :
  fst (Libdevice.compare_and_print t32 tsub tabs tmax trepr fmt
         output_torch output_triton d)
  <> Raise (AssertionError msg).
Proof.
  unfold Libdevice.compare_and_print.
  destruct (Libdevice.max_difference_message t32 tsub tabs tmax fmt output_torch
              (Libdevice.values t32 d output_triton)); simpl; discriminate.
Qed.

(** The cells after a launcher that does not refuse the tensors. *)
Lemma default_path_on_device (x output_triton : Libdevice.tensor) (d : device t32) :
  Libdevice.is_cuda x = true -> Libdevice.is_cuda output_triton = true ->
  default_path x output_triton d
  = Libdevice.compare_and_print t32 tsub tabs tmax trepr fmt
      (map torch_asin (Libdevice.values t32 d x)) output_triton
      (asin_launch (Libdevice.data_ptr x) (Libdevice.data_ptr output_triton)
                   (Libdevice.numel x) 1024 d).
Proof.
  intros Hx Ho. unfold Libdevice.default_path, Libdevice.asin_kernel_call.
  rewrite Hx, Ho. reflexivity.
Qed.

Lemma custom_path_on_device (x : Libdevice.tensor) (p : Z) (d : device t32) :
  Libdevice.is_cuda x = true ->
  custom_path x p d
  = Libdevice.compare_and_print t32 tsub tabs tmax trepr fmt
      (map torch_asin (Libdevice.values t32 d x)) (Libdevice.empty_like x p)
      (asin_launch (Libdevice.data_ptr x) p (Libdevice.numel x) 1024 d).
Proof.
  intros Hx. unfold Libdevice.custom_path, Libdevice.asin_kernel_call.
  unfold Libdevice.empty_like at 1 2. cbn [Libdevice.is_cuda].
  rewrite Hx. reflexivity.
Qed.

(** A tensor that is not on the device is refused by the launcher: no
    program runs. *)
Lemma custom_path_off_device (x : Libdevice.tensor) (p : Z) (d : device t32) :
  Libdevice.is_cuda x = false ->
  custom_path x p d = (Raise ValueError, d).
Proof.
  intros Hx. unfold Libdevice.custom_path, Libdevice.asin_kernel_call.
  rewrite Hx. reflexivity.
Qed.

Lemma compare_and_print_device (output_torch : list t32)
    (output_triton : Libdevice.tensor) (d : device t32) :
  snd (Libdevice.compare_and_print t32 tsub tabs tmax trepr fmt
         output_torch output_triton d) = d.
Proof.
  unfold Libdevice.compare_and_print.
  destruct (Libdevice.max_difference_message t32 tsub tabs tmax fmt output_torch
              (Libdevice.values t32 d output_triton)); reflexivity.
Qed.

(** What the comparison prints for a reference tensor and an output tensor
    of the same non-zero size [n]: both tensors, then the maximum over
    [i = 0 .. n-1] of [|ref[i] - got[i]|]. *)
Lemma compare_and_print_lines (ref : Z -> t32) (out : Libdevice.tensor)
    (d : device t32) :
  0 < Libdevice.numel out ->
  let n := Libdevice.numel out in
  let got := fun i => mem d (Libdevice.data_ptr out + i) in
  let diff := fun i => tabs (tsub (ref i) (got i)) in
  fst (Libdevice.compare_and_print t32 tsub tabs tmax trepr fmt
         (map ref (arange 0 n)) out d)
  = Done [trepr (map ref (arange 0 n)); trepr (map got (arange 0 n));
          ("The maximum difference between torch and triton is "
           ++ fmt (fold_left tmax (map diff (arange 1 n)) (diff 0)))%string].
Proof.
  intros Hn n got diff.
  unfold Libdevice.compare_and_print, Libdevice.max_difference_message,
    Libdevice.tensor_sub, Libdevice.values.
  fold n. fold got.
  rewrite combine_map, !map_map. cbn [fst snd]. fold diff.
  rewrite (arange_head 0 n) by lia. reflexivity.
Qed.


(** C8, as the cells print.  The [asin] notebook's check prints a number and no
    verdict: each of its two cells, run on device tensors of the same
    non-zero size, prints the reference tensor, the kernel's output, and as
    its last line the maximum over all elements [i] of
    [|torch.asin(x)[i] - output_triton[i]|].  The unit-test cell of the
    matmul notebook prints both outputs and then the pass message if every
    element of [triton_output] is close to the element of [torch_output]
    at the same position, and the fail message otherwise; the two messages
    differ. *)
Theorem self_checks_print :
  (forall x out d,
     Libdevice.is_cuda x = true -> Libdevice.is_cuda out = true ->
     Libdevice.numel out = Libdevice.numel x -> 0 < Libdevice.numel x ->
     let n := Libdevice.numel x in
     let d' := asin_launch (Libdevice.data_ptr x) (Libdevice.data_ptr out) n 1024 d in
     let ref := fun i => torch_asin (mem d (Libdevice.data_ptr x + i)) in
     let got := fun i => mem d' (Libdevice.data_ptr out + i) in
     let diff := fun i => tabs (tsub (ref i) (got i)) in
     fst (default_path x out d)
     = Done [trepr (map ref (arange 0 n)); trepr (map got (arange 0 n));
             ("The maximum difference between torch and triton is "
              ++ fmt (fold_left tmax (map diff (arange 1 n)) (diff 0)))%string])
  /\ (forall x p d,
        Libdevice.is_cuda x = true -> 0 < Libdevice.numel x ->
        let n := Libdevice.numel x in
        let d' := asin_launch (Libdevice.data_ptr x) p n 1024 d in
        let ref := fun i => torch_asin (mem d (Libdevice.data_ptr x + i)) in
        let got := fun i => mem d' (p + i) in
        let diff := fun i => tabs (tsub (ref i) (got i)) in
        fst (custom_path x p d)
        = Done [trepr (map ref (arange 0 n)); trepr (map got (arange 0 n));
                ("The maximum difference between torch and triton is "
                 ++ fmt (fold_left tmax (map diff (arange 1 n)) (diff 0)))%string])
  /\ (forall bench a b h,
        match fst (matmul bench a b h) with
        | Raise e => fst (unit_test bench a b h) = Raise e
        | Done c =>
            let m := mem (BlockPointer.dev f16 (snd (matmul bench a b h))) in
            let triton_output :=
              map (fun l => m (BlockPointer.data_ptr c
                               + fst l * fst (BlockPointer.stride c)
                               + snd l * snd (BlockPointer.stride c)))
                  (list_prod (arange 0 (fst (BlockPointer.shape c)))
                             (arange 0 (snd (BlockPointer.shape c)))) in
            let torch_output := torch_matmul m a b in
            exists last,
              fst (unit_test bench a b h)
              = Done [("triton_output=" ++ repr triton_output)%string;
                      ("torch_output=" ++ repr torch_output)%string;
                      last]
              /\ (last = BlockPointer.match_message
                  \/ last = BlockPointer.differ_message)
              /\ (length torch_output = length triton_output ->
                  (last = BlockPointer.match_message
                   <-> Forall2 (fun u v => isclose u v = true)
                               triton_output torch_output)
                  /\ (last = BlockPointer.differ_message
                      <-> ~ Forall2 (fun u v => isclose u v = true)
                                    triton_output torch_output))
        end)
  /\ BlockPointer.match_message = "✅ Triton and Torch match"%string
  /\ BlockPointer.differ_message = "❌ Triton and Torch differ"%string
  /\ BlockPointer.match_message <> BlockPointer.differ_message.
Proof.
  assert (Hneq : BlockPointer.match_message <> BlockPointer.differ_message)
    by discriminate.
  split; [|split; [|split; [|split; [reflexivity|split; [reflexivity|exact Hneq]]]]].
  - intros x out d Hx Ho Hsize Hn n d' ref got diff.
    rewrite (default_path_on_device x out d Hx Ho).
    unfold Libdevice.values at 1. rewrite map_map. fold n.
    pose proof (compare_and_print_lines ref out d') as H.
    rewrite Hsize in H. apply H. exact Hn.
  - intros x p d Hx Hn n d' ref got diff.
    rewrite (custom_path_on_device x p d Hx).
    unfold Libdevice.values at 1. rewrite map_map. fold n.
    apply (compare_and_print_lines ref (Libdevice.empty_like x p) d'). exact Hn.
  - intros bench a b h. unfold BlockPointer.unit_test.
    destruct (matmul bench a b h) as [[c|e] h']; cbn [fst snd]; [|reflexivity].
    eexists. split; [reflexivity|].
    change (BlockPointer.values f16 (mem (BlockPointer.dev f16 h')) c)
      with (map (fun l => mem (BlockPointer.dev f16 h')
                            (BlockPointer.data_ptr c
                             + fst l * fst (BlockPointer.stride c)
                             + snd l * snd (BlockPointer.stride c)))
                (list_prod (arange 0 (fst (BlockPointer.shape c)))
                           (arange 0 (snd (BlockPointer.shape c))))).
    set (triton_output := map _ _).
    set (torch_output := torch_matmul _ a b).
    split.
    + destruct (BlockPointer.allclose f16 isclose triton_output torch_output);
        [left|right]; reflexivity.
    + intros Hlen. symmetry in Hlen.
      pose proof (allclose_Forall2 isclose triton_output torch_output Hlen) as Hall.
      destruct (BlockPointer.allclose f16 isclose triton_output torch_output).
      * assert (Hyes : Forall2 (fun u v => isclose u v = true)
                         triton_output torch_output)
          by (apply Hall; reflexivity).
        split; split.
        -- intros _. exact Hyes.
        -- reflexivity.
        -- intros H. exfalso. exact (Hneq H).
        -- intros H. exfalso. exact (H Hyes).
      * assert (Hno : ~ Forall2 (fun u v => isclose u v = true)
                        triton_output torch_output).
        { intros H. apply Hall in H. discriminate. }
        split; split.
        -- intros H. exfalso. apply Hneq. symmetry. exact H.
        -- intros H. exfalso. exact (Hno H).
        -- intros _. exact Hno.
        -- reflexivity.
Qed.

End NotebookTheorems.

(** ** Concrete runs *)

Example asin_launch_run :
  map (mem (Libdevice.asin_launch Z Z.succ 0 0 10 5 4 Sample.d0)) (arange 8 17)
  = [8; 9; 1; 2; 3; 4; 5; 15; 16]
  /\ trace (Libdevice.asin_launch Z Z.succ 0 0 10 5 4 Sample.d0)
     = [Load 0; Load 1; Load 2; Load 3; Store 10; Store 11; Store 12; Store 13;
        Load 4; Store 14].
Proof. split; vm_compute; reflexivity. Qed.

Example matmul_launch_run :
  map (mem (launch (cdiv 3 2 * cdiv 3 2) Sample.program Sample.d0)) (arange 16 29)
  = [16; 17; 42; 45; 48; 150; 162; 174; 258; 279; 300; 27; 28].
Proof. vm_compute. reflexivity. Qed.

Example matmul_run :
  fst (Sample.matmul Sample.bench Sample.a Sample.b Sample.h)
  = Done (BlockPointer.Tensor 12 (2, 2) (2, 1))
  /\ map (mem (BlockPointer.dev Z
                 (snd (Sample.matmul Sample.bench Sample.a Sample.b Sample.h))))
         (arange 10 18)
     = [10; 11; 28; 31; 100; 112; 16; 17].
Proof. split; vm_compute; reflexivity. Qed.

Example grouped_order_run :
  map (BlockPointer.pid_to_tile 5 3 2 2 2) (arange 0 6)
  = [(0, 0); (1, 0); (0, 1); (1, 1); (2, 0); (2, 1)].
Proof. vm_compute. reflexivity. Qed.

(** * Further properties *)

(** ** More on the [asin] launch *)

Section AsinFurther.

Variable f32 : Type.
Variable asin : f32 -> f32.
Variable undef : f32.

Local Abbreviation asin_kernel := (Libdevice.asin_kernel f32 asin undef).
Local Abbreviation asin_launch := (Libdevice.asin_launch f32 asin undef).

(** X9.  In place or apart, in any order.  For a block size that divides
    [2^30] and fewer than [2^31] elements, when no output element shares its
    address with a different input element (so [x] and [y] are the same
    buffer, or do not overlap), running every program of the grid once, in
    any order, leaves [y[i] = asin(x[i])] for the old contents of [x]. *)
Theorem asin_in_place_any_order
    (x_ptr y_ptr n_elements BLOCK_SIZE : Z) (order : list Z) (d : device f32) :
  0 < BLOCK_SIZE -> Z.divide BLOCK_SIZE (2 ^ 30) -> n_elements < 2 ^ 31 ->
  (forall i j, 0 <= i < n_elements -> 0 <= j < n_elements -> i <> j ->
               x_ptr + i <> y_ptr + j) ->
  List.NoDup order ->
  (forall p, In p order <-> 0 <= p < Libdevice.grid n_elements BLOCK_SIZE) ->
  forall i, 0 <= i < n_elements ->
    mem (run_programs order (asin_kernel x_ptr y_ptr n_elements BLOCK_SIZE) d)
        (y_ptr + i)
    = asin (mem d (x_ptr + i)).
Proof. apply asin_run_value. Qed.

(** X10.  The grid is exact.  For a block size that divides [2^30] and fewer
    than [2^31] elements, [cdiv(n_elements, BLOCK_SIZE)] programs cover all
    offsets below [n_elements], one program fewer would not, and every
    launched program has an unmasked first lane, so it does store; for an
    empty input nothing is launched and the device is left as it is. *)
Theorem asin_grid_exact (x_ptr y_ptr n_elements BLOCK_SIZE : Z) :
  0 < BLOCK_SIZE -> Z.divide BLOCK_SIZE (2 ^ 30) -> 0 <= n_elements < 2 ^ 31 ->
  let grid := Libdevice.grid n_elements BLOCK_SIZE in
  0 <= grid
  /\ (grid - 1) * BLOCK_SIZE < n_elements + Z.b2z (n_elements =? 0)
  /\ n_elements <= grid * BLOCK_SIZE
  /\ (forall pid d, 0 <= pid < grid ->
        pid * BLOCK_SIZE < n_elements
        /\ In (Store (y_ptr + pid * BLOCK_SIZE))
              (trace (asin_kernel x_ptr y_ptr n_elements BLOCK_SIZE pid d)))
  /\ (n_elements = 0 ->
      forall d, asin_launch x_ptr y_ptr n_elements BLOCK_SIZE d = d).
Proof.
  intros HB Hpow Hn grid.
  assert (Hg : 0 <= grid /\ (grid - 1) * BLOCK_SIZE < n_elements + Z.b2z (n_elements =? 0)
               /\ n_elements <= grid * BLOCK_SIZE
               /\ (0 < n_elements -> (grid - 1) * BLOCK_SIZE < n_elements)).
  { subst grid. unfold Libdevice.grid, cdiv.
    pose proof (Z.div_mod (n_elements + BLOCK_SIZE - 1) BLOCK_SIZE ltac:(lia)) as E.
    pose proof (Z.mod_pos_bound (n_elements + BLOCK_SIZE - 1) BLOCK_SIZE HB) as Hm.
    assert (0 <= (n_elements + BLOCK_SIZE - 1) / BLOCK_SIZE)
      by (apply Z.div_pos; lia).
    destruct (Z.eqb_spec n_elements 0); simpl; repeat split; nia. }
  destruct Hg as (Hg0 & Hlow & Hup & Hpos).
  split; [exact Hg0|]. split; [exact Hlow|]. split; [exact Hup|]. split.
  - intros pid d Hpid.
    assert (Hlt : pid * BLOCK_SIZE < n_elements).
    { assert (0 < n_elements).
      { destruct (Z.eq_dec n_elements 0) as [E0|]; [|lia].
        subst grid. unfold Libdevice.grid, cdiv in Hpid. rewrite E0 in Hpid.
        rewrite Z.div_small in Hpid by lia. lia. }
      specialize (Hpos ltac:(lia)). nia. }
    split; [exact Hlt|].
    apply asin_kernel_events; [lia|apply (grid_fits n_elements); (assumption || lia)|].
    right. exists (pid * BLOCK_SIZE).
    split; [lia|]. split; [exact Hlt|]. right. reflexivity.
  - intros E0 d. unfold Libdevice.asin_launch, Libdevice.grid, cdiv, launch.
    rewrite E0. rewrite Z.div_small by lia. rewrite arange_empty by lia. reflexivity.
Qed.

(** X11.  Every element once.  For a block size that divides [2^30] and
    fewer than [2^31] elements, in whatever order the programs of the grid
    run, the accesses they add to the trace contain no access twice and are
    exactly the load of [x[i]] and the store to [y[i]] for every
    [i < n_elements]: each element is read once and written once. *)
Theorem asin_accesses_once
    (x_ptr y_ptr n_elements BLOCK_SIZE : Z) (order : list Z) (d : device f32) :
  0 < BLOCK_SIZE -> Z.divide BLOCK_SIZE (2 ^ 30) -> 0 <= n_elements < 2 ^ 31 ->
  List.NoDup order ->
  (forall p, In p order <-> 0 <= p < Libdevice.grid n_elements BLOCK_SIZE) ->
  exists accesses,
    trace (run_programs order (asin_kernel x_ptr y_ptr n_elements BLOCK_SIZE) d)
    = trace d ++ accesses
    /\ List.NoDup accesses
    /\ (forall ev, In ev accesses
                   <-> exists i, 0 <= i < n_elements
                                 /\ Libdevice.asin_access x_ptr y_ptr i ev).
Proof.
  intros HB Hpow Hn Hnd Horder.
  assert (Hfit : forall p, In p order -> 0 <= p /\ (p + 1) * BLOCK_SIZE <= 2 ^ 31).
  { intros p Hp. apply Horder in Hp. split; [lia|].
    apply (grid_fits n_elements); (assumption || lia). }
  exists (flat_map (Libdevice.asin_events x_ptr y_ptr n_elements BLOCK_SIZE) order).
  split; [|split].
  - apply run_trace. intros p d0. apply asin_kernel_trace.
  - apply NoDup_flat_map.
    + exact Hnd.
    + intros p Hp. destruct (Hfit p Hp). apply NoDup_asin_events; assumption.
    + intros p q e Hp Hq Hne He He'.
      destruct (Hfit p Hp) as [Hp0 Hp1]. destruct (Hfit q Hq) as [Hq0 Hq1].
      apply (In_asin_events x_ptr y_ptr n_elements BLOCK_SIZE p e Hp0 Hp1) in He.
      apply (In_asin_events x_ptr y_ptr n_elements BLOCK_SIZE q e Hq0 Hq1) in He'.
      destruct He as (o & Ho & _ & He). destruct He' as (o' & Ho' & _ & He').
      assert (o = o').
      { destruct He as [-> | ->], He' as [He'|He'];
          try discriminate; injection He' as He'; lia. }
      subst o'. apply Hne. nia.
  - intros ev. apply asin_run_events; (assumption || lia).
Qed.

End AsinFurther.

(** ** More on the matmul kernel *)

Section KernelFurther.

Variable f16 f32 : Type.
Variable zero : f32.
Variable fadd fmul : f32 -> f32 -> f32.
Variable to_f32 : f16 -> f32.
Variable to_f16 : f32 -> f16.
Variable pad : f16.

Variables a_ptr b_ptr c_ptr M N K : Z.
Variables stride_am stride_ak stride_bk stride_bn stride_cm stride_cn : Z.
Variables BM BN BK G : Z.

Local Abbreviation load_block := (BlockPointer.load_block f16 pad).
Local Abbreviation a_block_ptr_at :=
  (BlockPointer.a_block_ptr_at a_ptr M K stride_am stride_ak BM BK).
Local Abbreviation b_block_ptr_at :=
  (BlockPointer.b_block_ptr_at b_ptr N K stride_bk stride_bn BN BK).
Local Abbreviation iterations :=
  (BlockPointer.iterations f16 f32 zero fadd fmul to_f32 pad
     a_ptr b_ptr M N K stride_am stride_ak stride_bk stride_bn BM BN BK).
Local Abbreviation program :=
  (BlockPointer.matmul_kernel_with_block_pointers
     f16 f32 zero fadd fmul to_f32 to_f16 pad
     a_ptr b_ptr c_ptr M N K
     stride_am stride_ak stride_bk stride_bn stride_cm stride_cn
     BM BN BK G).
Local Abbreviation program_writes :=
  (BlockPointer.program_writes c_ptr M N stride_cm stride_cn BM BN G).
Local Abbreviation grid := (cdiv M BM * cdiv N BN).
Local Abbreviation is_input :=
  (fun s : Z =>
     BlockPointer.in_tensor a_ptr (M, K) (stride_am, stride_ak) s
     \/ BlockPointer.in_tensor b_ptr (K, N) (stride_bk, stride_bn) s).

(** The accumulator is a function of the elements of A and B alone. *)
Lemma iterations_ext (pid_m pid_n : Z) (d1 d2 : device f16) (n : nat) (li lj : Z) :
  (forall s, is_input s -> mem d1 s = mem d2 s) ->
  BlockPointer.bval (fst (fst (fst (iterations pid_m pid_n d1 n)))) li lj
  = BlockPointer.bval (fst (fst (fst (iterations pid_m pid_n d2 n)))) li lj.
Proof.
  intros Hagree. revert li lj. induction n as [|n IH]; intros li lj.
  - reflexivity.
  - destruct (iterations_structure f16 f32 zero fadd fmul to_f32 to_f16 pad
                a_ptr b_ptr M N K stride_am stride_ak stride_bk stride_bn
                BM BN BK pid_m pid_n d1 n) as (acc1 & e1 & E1 & Hm1 & _).
    destruct (iterations_structure f16 f32 zero fadd fmul to_f32 to_f16 pad
                a_ptr b_ptr M N K stride_am stride_ak stride_bk stride_bn
                BM BN BK pid_m pid_n d2 n) as (acc2 & e2 & E2 & Hm2 & _).
    rewrite !iterations_S, E1, E2, !k_body_eq. rewrite E1, E2 in IH.
    cbn [fst snd] in IH |- *.
    unfold BlockPointer.block_add. cbn [BlockPointer.bval].
    f_equal; [apply IH|].
    unfold BlockPointer.dot, BlockPointer.load_block.
    cbn [fst snd BlockPointer.bval BlockPointer.bshape mem].
    apply (fsum_ext f32 fadd). intros kk _.
    f_equal; f_equal.
    + destruct (BlockPointer.lane_ok [0; 1] (a_block_ptr_at pid_m n) (li, kk)) eqn:Eok;
        [|reflexivity].
      rewrite Hm1, Hm2. apply Hagree. left.
      apply (lane_ok_in_tensor (a_block_ptr_at pid_m n) (li, kk) Eok).
    + destruct (BlockPointer.lane_ok [0; 1] (b_block_ptr_at pid_n n) (kk, lj)) eqn:Eok;
        [|reflexivity].
      rewrite Hm1, Hm2. apply Hagree. right.
      apply (lane_ok_in_tensor (b_block_ptr_at pid_n n) (kk, lj) Eok).
Qed.

(** What the programs of the grid leave at entry [(i, j)] of C, in any order
    and with any program run more than once: the down-cast accumulator of
    the owning tile, computed from the memory before the run. *)
Lemma run_entry (order : list Z) (d : device f16) (i j : Z) :
  0 < BM -> 0 < BN -> 0 < G -> 0 <= N ->
  stride_cn = 1 -> N <= stride_cm ->
  (forall addr,
     BlockPointer.in_tensor c_ptr (M, N) (stride_cm, stride_cn) addr ->
     ~ is_input addr) ->
  (forall p, In p order <-> 0 <= p < grid) ->
  0 <= i < M -> 0 <= j < N ->
  mem (run_programs order program d) (c_ptr + i * stride_cm + j * stride_cn)
  = to_f16 (BlockPointer.bval
              (fst (fst (fst (iterations (i / BM) (j / BN) d
                                (Z.to_nat (cdiv (K - 0) BK))))))
              (i - i / BM * BM) (j - j / BN * BN)).
Proof.
  intros HBM HBN HG HN Hcn Hcm Hdisj Horder Hi Hj.
  destruct (owner_exists c_ptr M N stride_cm stride_cn BM BN G i j HBM HBN HG Hi Hj)
    as (p0 & Hp0 & Ht0 & Hin0).
  apply (run_owner program is_input grid p0).
  - intros p d' s _ Hs. apply program_frame. intros Hc. exact (Hdisj s Hc Hs).
  - intros d' Hd'.
    pose proof (program_own f16 f32 zero fadd fmul to_f32 to_f16 pad
                  a_ptr b_ptr c_ptr M N K stride_am stride_ak stride_bk stride_bn
                  stride_cm stride_cn BM BN BK G p0 i j d' Hcn Hcm Hin0) as Hown.
    cbn zeta in Hown. rewrite Ht0 in Hown. cbn [fst snd] in Hown.
    rewrite Hown. f_equal.
    change (BlockPointer.k_loop f16 f32 zero fadd fmul to_f32 pad K BK
              (BlockPointer.zeros f32 zero (BM, BN),
               a_block_ptr_at (i / BM) 0, b_block_ptr_at (j / BN) 0, d'))
      with (iterations (i / BM) (j / BN) d' (Z.to_nat (cdiv (K - 0) BK))).
    apply iterations_ext. exact Hd'.
  - intros p d' Hp Hne. apply program_other; try assumption.
    intros Ht. apply Hne.
    apply (tile_injective (cdiv M BM) (cdiv N BN) G); try assumption.
    + apply cdiv_nonneg; assumption.
    + rewrite <- !pid_to_tile_tile. congruence.
  - intros p Hp. apply Horder. exact Hp.
  - apply Horder. exact Hp0.
Qed.

(** X1.  The launch does not depend on the schedule.  When C is dense and apart
    from A and B, running the programs of the grid in any order, even with
    programs run again, leaves the same memory as the launch: the same value
    at every entry of C and the old value everywhere else.  No law of the
    arithmetic is needed for this. *)
Theorem matmul_schedule_independent (order : list Z) (d : device f16) :
  0 < BM -> 0 < BN -> 0 < G -> 0 <= N ->
  stride_cn = 1 -> N <= stride_cm ->
  (forall addr,
     BlockPointer.in_tensor c_ptr (M, N) (stride_cm, stride_cn) addr ->
     ~ BlockPointer.in_tensor a_ptr (M, K) (stride_am, stride_ak) addr
     /\ ~ BlockPointer.in_tensor b_ptr (K, N) (stride_bk, stride_bn) addr) ->
  (forall p, In p order <-> 0 <= p < grid) ->
  (forall i j, 0 <= i < M -> 0 <= j < N ->
     mem (run_programs order program d) (c_ptr + i * stride_cm + j * stride_cn)
     = mem (launch grid program d) (c_ptr + i * stride_cm + j * stride_cn))
  /\ (forall addr,
        ~ BlockPointer.in_tensor c_ptr (M, N) (stride_cm, stride_cn) addr ->
        mem (run_programs order program d) addr = mem d addr
        /\ mem (launch grid program d) addr = mem d addr).
Proof.
  intros HBM HBN HG HN Hcn Hcm Hdisj0 Horder.
  assert (Hdisj : forall addr,
            BlockPointer.in_tensor c_ptr (M, N) (stride_cm, stride_cn) addr ->
            ~ is_input addr).
  { intros addr Hc. destruct (Hdisj0 addr Hc). tauto. }
  split.
  - intros i j Hi Hj. unfold launch.
    rewrite !run_entry; try assumption; [reflexivity|].
    intros p. apply In_arange.
  - intros addr Hout. split.
    + apply run_untouched. intros p d' _. apply program_frame. exact Hout.
    + apply launch_frame. intros p d' _. apply program_frame. exact Hout.
Qed.

(** A boundary-checked load reads at the lanes of its block that pass the
    check, and nowhere else. *)
Lemma load_block_lanes (p : BlockPointer.block_ptr) (d : device f16) (ev : event) :
  In ev (trace (snd (load_block p [0; 1] d))) ->
  In ev (trace d)
  \/ exists l, In l (BlockPointer.lanes (BlockPointer.block_shape p))
               /\ BlockPointer.lane_ok [0; 1] p l = true
               /\ ev = Load (BlockPointer.lane_addr p l).
Proof.
  unfold BlockPointer.load_block. simpl. rewrite masked_map.
  rewrite in_app_iff. intros [H|H]; [left; exact H|right].
  apply in_map_iff in H. destruct H as (addr & <- & H).
  apply in_map_iff in H. destruct H as (l & <- & H).
  apply filter_In in H. destruct H as [Hl Hok].
  exists l. tauto.
Qed.

(** The loads of the tile [(pid_m, pid_n)]: elements of its rows of A and of
    its columns of B. *)
Local Abbreviation tile_load :=
  (fun (pid_m pid_n : Z) (ev : event) =>
     (exists i k, ev = Load (a_ptr + i * stride_am + k * stride_ak)
                  /\ 0 <= i < M /\ 0 <= k < K
                  /\ pid_m * BM <= i < (pid_m + 1) * BM)
     \/ (exists k j, ev = Load (b_ptr + k * stride_bk + j * stride_bn)
                     /\ 0 <= k < K /\ 0 <= j < N
                     /\ pid_n * BN <= j < (pid_n + 1) * BN)).

Lemma iterations_loads (pid_m pid_n : Z) (d : device f16) (n : nat) (ev : event) :
  In ev (trace (snd (iterations pid_m pid_n d n))) ->
  In ev (trace d) \/ tile_load pid_m pid_n ev.
Proof.
  induction n as [|n IH]; [intros H; left; exact H|].
  destruct (iterations_structure f16 f32 zero fadd fmul to_f32 to_f16 pad
              a_ptr b_ptr M N K stride_am stride_ak stride_bk stride_bn
              BM BN BK pid_m pid_n d n) as (acc & dn & E & _).
  rewrite iterations_S, E, k_body_eq. rewrite E in IH. cbn [snd] in IH |- *.
  intros H. apply load_block_lanes in H.
  destruct H as [H|([kk lj] & Hl & Hok & ->)].
  - apply load_block_lanes in H.
    destruct H as [H|([li kk] & Hl & Hok & ->)]; [apply IH; exact H|].
    right. left. apply In_lanes in Hl. apply lane_ok_both in Hok. simpl in Hok.
    exists (pid_m * BM + li), (Z.of_nat n * BK + kk).
    split; [reflexivity|]. lia.
  - right. right. apply In_lanes in Hl. apply lane_ok_both in Hok. simpl in Hok.
    exists (Z.of_nat n * BK + kk), (pid_n * BN + lj).
    split; [reflexivity|]. lia.
Qed.

Lemma program_loads (pid : Z) (d : device f16) (addr : Z) :
  In (Load addr) (trace (program pid d)) ->
  let pid_m := fst (BlockPointer.pid_to_tile M N BM BN G pid) in
  let pid_n := snd (BlockPointer.pid_to_tile M N BM BN G pid) in
  In (Load addr) (trace d)
  \/ (exists i k, addr = a_ptr + i * stride_am + k * stride_ak
                  /\ 0 <= i < M /\ 0 <= k < K
                  /\ pid_m * BM <= i < (pid_m + 1) * BM)
  \/ (exists k j, addr = b_ptr + k * stride_bk + j * stride_bn
                  /\ 0 <= k < K /\ 0 <= j < N
                  /\ pid_n * BN <= j < (pid_n + 1) * BN).
Proof.
  intros H pid_m pid_n.
  destruct (program_spec f16 f32 zero fadd fmul to_f32 to_f16 pad
              a_ptr b_ptr c_ptr M N K stride_am stride_ak stride_bk stride_bn
              stride_cm stride_cn BM BN BK G pid d)
    as (acc & d1 & E & _ & _ & _ & _ & _ & Htr).
  cbn zeta in E, Htr. fold pid_m pid_n in E.
  rewrite Htr, in_app_iff in H. destruct H as [H|H].
  - change (BlockPointer.k_loop f16 f32 zero fadd fmul to_f32 pad K BK
              (BlockPointer.zeros f32 zero (BM, BN),
               a_block_ptr_at pid_m 0, b_block_ptr_at pid_n 0, d))
      with (iterations pid_m pid_n d (Z.to_nat (cdiv (K - 0) BK))) in E.
    pose proof (iterations_loads pid_m pid_n d (Z.to_nat (cdiv (K - 0) BK))
                                 (Load addr)) as Hl.
    rewrite E in Hl. cbn [snd] in Hl. apply Hl in H.
    destruct H as [H|[(i & k & Ev & Hb)|(k & j & Ev & Hb)]].
    + left. exact H.
    + right. left. exists i, k. injection Ev as ->. tauto.
    + right. right. exists k, j. injection Ev as ->. tauto.
  - apply in_map_iff in H. destruct H as (x & Hx & _). discriminate.
Qed.



End KernelFurther.

(** ** The matmul kernel: partition, bounds, precision *)

Lemma fold_left_ext_in {X Y : Type} (f g : X -> Y -> X) (l : list Y) (x : X) :
  (forall x y, In y l -> f x y = g x y) -> fold_left f l x = fold_left g l x.
Proof.
  revert x. induction l as [|y l IH]; intros x H; simpl; [reflexivity|].
  rewrite (H x y) by (left; reflexivity).
  apply IH. intros x' y' Hy'. apply H. right. exact Hy'.
Qed.

Section KernelTheorems.

Variable f16 f32 : Type.
Variable zero : f32.
Variable fadd fmul : f32 -> f32 -> f32.
Variable to_f32 : f16 -> f32.
Variable to_f16 : f32 -> f16.
Variable pad : f16.

Variables a_ptr b_ptr c_ptr M N K : Z.
Variables stride_am stride_ak stride_bk stride_bn stride_cm stride_cn : Z.
Variables BLOCK_SIZE_M BLOCK_SIZE_N BLOCK_SIZE_K GROUP_SIZE_M : Z.

Local Abbreviation load_block := (BlockPointer.load_block f16 pad).
Local Abbreviation dot := (BlockPointer.dot f16 f32 zero fadd fmul to_f32).
Local Abbreviation k_loop := (BlockPointer.k_loop f16 f32 zero fadd fmul to_f32 pad).
Local Abbreviation fsum := (BlockPointer.fsum f32 fadd).
Local Abbreviation program :=
  (BlockPointer.matmul_kernel_with_block_pointers
     f16 f32 zero fadd fmul to_f32 to_f16 pad
     a_ptr b_ptr c_ptr M N K
     stride_am stride_ak stride_bk stride_bn stride_cm stride_cn
     BLOCK_SIZE_M BLOCK_SIZE_N BLOCK_SIZE_K GROUP_SIZE_M).
Local Abbreviation pid_to_tile :=
  (BlockPointer.pid_to_tile M N BLOCK_SIZE_M BLOCK_SIZE_N GROUP_SIZE_M).
Local Abbreviation program_writes :=
  (BlockPointer.program_writes c_ptr M N stride_cm stride_cn
     BLOCK_SIZE_M BLOCK_SIZE_N GROUP_SIZE_M).
Local Abbreviation grid := (cdiv M BLOCK_SIZE_M * cdiv N BLOCK_SIZE_N).
Local Abbreviation a_block_ptr_at :=
  (BlockPointer.a_block_ptr_at a_ptr M K stride_am stride_ak
     BLOCK_SIZE_M BLOCK_SIZE_K).
Local Abbreviation b_block_ptr_at :=
  (BlockPointer.b_block_ptr_at b_ptr N K stride_bk stride_bn
     BLOCK_SIZE_N BLOCK_SIZE_K).
Local Abbreviation iterations :=
  (BlockPointer.iterations f16 f32 zero fadd fmul to_f32 pad
     a_ptr b_ptr M N K stride_am stride_ak stride_bk stride_bn
     BLOCK_SIZE_M BLOCK_SIZE_N BLOCK_SIZE_K).
Local Abbreviation accumulated_entry :=
  (BlockPointer.accumulated_entry f16 f32 zero fadd fmul to_f32 pad).
Local Abbreviation inside_entry :=
  (BlockPointer.inside_entry f16 f32 zero fadd fmul to_f32).
Local Abbreviation padded_term :=
  (BlockPointer.padded_term f16 f32 fmul to_f32 pad).
Local Abbreviation is_input :=
  (fun s : Z =>
     BlockPointer.in_tensor a_ptr (M, K) (stride_am, stride_ak) s
     \/ BlockPointer.in_tensor b_ptr (K, N) (stride_bk, stride_bn) s).

(** The [dot] of the two blocks loaded in iteration [n], at a lane of the
    tile that lies inside C: the sum of the terms of the positions
    [n * BLOCK_SIZE_K, ..., n * BLOCK_SIZE_K + BLOCK_SIZE_K - 1], those
    beyond K being products of padding values.  No law of the arithmetic is
    used. *)
Lemma dot_loaded (pid_m pid_n : Z) (n : nat) (da db : device f16) (li lj : Z) :
  mem db = mem da ->
  0 <= pid_m * BLOCK_SIZE_M + li < M -> 0 <= pid_n * BLOCK_SIZE_N + lj < N ->
  BlockPointer.bval
    (dot (fst (load_block (a_block_ptr_at pid_m n) [0; 1] da))
         (fst (load_block (b_block_ptr_at pid_n n) [0; 1] db))) li lj
  = fsum (padded_term (mem da) a_ptr b_ptr K
            (stride_am, stride_ak) (stride_bk, stride_bn)
            (pid_m * BLOCK_SIZE_M + li) (pid_n * BLOCK_SIZE_N + lj))
         (arange (0 + Z.of_nat n * BLOCK_SIZE_K)
                 (0 + Z.of_nat n * BLOCK_SIZE_K + BLOCK_SIZE_K))
         zero.
Proof.
  intros Hmem Hi Hj.
  rewrite <- arange_shift, fsum_map.
  unfold BlockPointer.dot, BlockPointer.load_block. cbn [fst snd BlockPointer.bval
    BlockPointer.bshape BlockPointer.block_shape BlockPointer.a_block_ptr_at].
  apply (fsum_ext f32 fadd). intros kk Hkk. apply In_arange in Hkk.
  unfold BlockPointer.padded_term. cbn [fst snd].
  rewrite (bool_eq_iff
             (BlockPointer.lane_ok [0; 1] (a_block_ptr_at pid_m n) (li, kk))
             ((0 <=? 0 + Z.of_nat n * BLOCK_SIZE_K + kk)
              && (0 + Z.of_nat n * BLOCK_SIZE_K + kk <? K))).
  2:{ rewrite lane_ok_both, andb_true_iff, Z.leb_le, Z.ltb_lt. simpl. lia. }
  rewrite (bool_eq_iff
             (BlockPointer.lane_ok [0; 1] (b_block_ptr_at pid_n n) (kk, lj))
             ((0 <=? 0 + Z.of_nat n * BLOCK_SIZE_K + kk)
              && (0 + Z.of_nat n * BLOCK_SIZE_K + kk <? K))).
  2:{ rewrite lane_ok_both, andb_true_iff, Z.leb_le, Z.ltb_lt. simpl. lia. }
  destruct ((0 <=? 0 + Z.of_nat n * BLOCK_SIZE_K + kk)
            && (0 + Z.of_nat n * BLOCK_SIZE_K + kk <? K)); [|reflexivity].
  rewrite Hmem.
  unfold BlockPointer.lane_addr, BlockPointer.lane_index. simpl.
  f_equal; f_equal; f_equal; lia.
Qed.

(** The accumulator after [n] iterations, at a lane inside C. *)
Lemma iterations_accumulated (pid_m pid_n : Z) (d : device f16) (li lj : Z) (n : nat) :
  0 <= pid_m * BLOCK_SIZE_M + li < M -> 0 <= pid_n * BLOCK_SIZE_N + lj < N ->
  BlockPointer.bval (fst (fst (fst (iterations pid_m pid_n d n)))) li lj
  = fold_left
      (fun acc k0 =>
         fadd acc (fsum (padded_term (mem d) a_ptr b_ptr K
                           (stride_am, stride_ak) (stride_bk, stride_bn)
                           (pid_m * BLOCK_SIZE_M + li) (pid_n * BLOCK_SIZE_N + lj))
                        (arange k0 (k0 + BLOCK_SIZE_K)) zero))
      (map (fun t => 0 + Z.of_nat t * BLOCK_SIZE_K) (seq 0 n)) zero.
Proof.
  intros Hi Hj. induction n as [|n IH].
  - reflexivity.
  - destruct (iterations_structure f16 f32 zero fadd fmul to_f32 to_f16 pad
                a_ptr b_ptr M N K stride_am stride_ak stride_bk stride_bn
                BLOCK_SIZE_M BLOCK_SIZE_N BLOCK_SIZE_K pid_m pid_n d n)
      as (acc & dn & E & Hm & _ & _ & _).
    rewrite iterations_S, E, k_body_eq. rewrite E in IH.
    cbn [fst snd] in IH |- *.
    unfold BlockPointer.block_add at 1. cbn [BlockPointer.bval].
    rewrite IH, (dot_loaded pid_m pid_n n dn) by (assumption || reflexivity).
    rewrite Hm, seq_S, map_app, fold_left_app. reflexivity.
Qed.

(** What a program leaves at an entry of its tile, for a dense C. *)
Lemma program_accumulated (pid i j : Z) (d : device f16) :
  stride_cn = 1 -> N <= stride_cm ->
  In (i, j) (program_writes pid) ->
  mem (program pid d) (c_ptr + i * stride_cm + j * stride_cn)
  = to_f16 (accumulated_entry (mem d) a_ptr b_ptr K
              (stride_am, stride_ak) (stride_bk, stride_bn) BLOCK_SIZE_K i j).
Proof.
  intros Hcn Hcm Hin.
  pose proof (program_own f16 f32 zero fadd fmul to_f32 to_f16 pad
                a_ptr b_ptr c_ptr M N K stride_am stride_ak stride_bk stride_bn
                stride_cm stride_cn BLOCK_SIZE_M BLOCK_SIZE_N BLOCK_SIZE_K
                GROUP_SIZE_M pid i j d Hcn Hcm Hin) as Hown.
  cbn beta zeta in Hown |- *. rewrite Hown. clear Hown.
  apply In_program_writes in Hin. cbn zeta in Hin.
  destruct (BlockPointer.pid_to_tile M N BLOCK_SIZE_M BLOCK_SIZE_N GROUP_SIZE_M pid)
    as [pid_m pid_n].
  cbn [fst snd] in *.
  change (k_loop K BLOCK_SIZE_K
            (BlockPointer.zeros f32 zero (BLOCK_SIZE_M, BLOCK_SIZE_N),
             a_block_ptr_at pid_m 0, b_block_ptr_at pid_n 0, d))
    with (iterations pid_m pid_n d (Z.to_nat (cdiv (K - 0) BLOCK_SIZE_K))).
  rewrite iterations_accumulated by lia.
  replace (pid_m * BLOCK_SIZE_M + (i - pid_m * BLOCK_SIZE_M)) with i by lia.
  replace (pid_n * BLOCK_SIZE_N + (j - pid_n * BLOCK_SIZE_N)) with j by lia.
  reflexivity.
Qed.

(** What the programs of the grid, run in any order, leave at an entry of a
    dense C that is apart from A and B. *)
Lemma run_accumulated (order : list Z) (d : device f16) (i j : Z) :
  0 < BLOCK_SIZE_M -> 0 < BLOCK_SIZE_N -> 0 < GROUP_SIZE_M -> 0 <= N ->
  stride_cn = 1 -> N <= stride_cm ->
  (forall addr,
     BlockPointer.in_tensor c_ptr (M, N) (stride_cm, stride_cn) addr ->
     ~ is_input addr) ->
  (forall p, In p order <-> 0 <= p < grid) ->
  0 <= i < M -> 0 <= j < N ->
  mem (run_programs order program d) (c_ptr + i * stride_cm + j * stride_cn)
  = to_f16 (accumulated_entry (mem d) a_ptr b_ptr K
              (stride_am, stride_ak) (stride_bk, stride_bn) BLOCK_SIZE_K i j).
Proof.
  intros HBM HBN HG HN Hcn Hcm Hdisj Horder Hi Hj.
  rewrite (run_entry f16 f32 zero fadd fmul to_f32 to_f16 pad
             a_ptr b_ptr c_ptr M N K stride_am stride_ak stride_bk stride_bn
             stride_cm stride_cn BLOCK_SIZE_M BLOCK_SIZE_N BLOCK_SIZE_K GROUP_SIZE_M
             order d i j) by assumption.
  pose proof (Z.div_mod i BLOCK_SIZE_M ltac:(lia)) as Ei.
  pose proof (Z.div_mod j BLOCK_SIZE_N ltac:(lia)) as Ej.
  rewrite iterations_accumulated by lia.
  replace (i / BLOCK_SIZE_M * BLOCK_SIZE_M + (i - i / BLOCK_SIZE_M * BLOCK_SIZE_M))
    with i by lia.
  replace (j / BLOCK_SIZE_N * BLOCK_SIZE_N + (j - j / BLOCK_SIZE_N * BLOCK_SIZE_N))
    with j by lia.
  reflexivity.
Qed.

(** When adding [zero] changes nothing and two padding values multiply to
    [zero], the positions beyond K can be left out of the accumulation. *)
Lemma accumulated_inside (m : Z -> f16) (i j : Z) :
  (forall x, fadd x zero = x) ->
  fmul (to_f32 pad) (to_f32 pad) = zero ->
  0 < BLOCK_SIZE_K ->
  accumulated_entry m a_ptr b_ptr K (stride_am, stride_ak) (stride_bk, stride_bn)
                    BLOCK_SIZE_K i j
  = inside_entry m a_ptr b_ptr K (stride_am, stride_ak) (stride_bk, stride_bn)
                 BLOCK_SIZE_K i j.
Proof.
  intros Hzero Hpad HBK.
  unfold BlockPointer.accumulated_entry, BlockPointer.inside_entry.
  apply fold_left_ext_in. intros acc k0 Hk0.
  apply range_spec in Hk0; [|exact HBK]. destruct Hk0 as [Hk0 _].
  f_equal. unfold BlockPointer.padded_term. rewrite Hpad.
  rewrite (fsum_filter f32 zero fadd Hzero
             (fun k =>
                fmul (to_f32 (m (a_ptr + i * fst (stride_am, stride_ak)
                                 + k * snd (stride_am, stride_ak))))
                     (to_f32 (m (b_ptr + k * fst (stride_bk, stride_bn)
                                 + j * snd (stride_bk, stride_bn)))))
             (fun k => (0 <=? k) && (k <? K))).
  rewrite filter_arange_inside by lia.
  replace (Z.min k0 K) with k0 by lia. reflexivity.
Qed.



(** C5.  The K loop is [cdiv(K, BLOCK_SIZE_K)] iterations of its body on a
    [float32] accumulator that starts at zero; every iteration adds, in
    [float32] and with no conversion, the [dot] of the two [float16] blocks
    it loads, whose products are taken after widening to [float32]; the
    accumulator keeps the shape [(BLOCK_SIZE_M, BLOCK_SIZE_N)]; the loop
    stores nothing and leaves the memory as it was; and what a program
    leaves at an entry of its tile is the lane of the accumulator after the
    last iteration converted to [float16], the only conversion there is. *)
Theorem accumulate_f32_store_f16 (pid : Z) (d : device f16) :
  stride_cn = 1 -> N <= stride_cm ->
  let pid_m := fst (pid_to_tile pid) in
  let pid_n := snd (pid_to_tile pid) in
  let accumulator (n : nat) : BlockPointer.block f32 :=
    fst (fst (fst (iterations pid_m pid_n d n))) in
  let a (n : nat) : BlockPointer.block f16 :=
    fst (load_block (a_block_ptr_at pid_m n) [0; 1] d) in
  let b (n : nat) : BlockPointer.block f16 :=
    fst (load_block (b_block_ptr_at pid_n n) [0; 1] d) in
  let count := Z.to_nat (cdiv (K - 0) BLOCK_SIZE_K) in
  k_loop K BLOCK_SIZE_K
    (BlockPointer.zeros f32 zero (BLOCK_SIZE_M, BLOCK_SIZE_N),
     a_block_ptr_at pid_m 0, b_block_ptr_at pid_n 0, d)
  = iterations pid_m pid_n d count
  /\ (forall li lj, BlockPointer.bval (accumulator 0%nat) li lj = zero)
  /\ (forall n li lj,
        BlockPointer.bval (accumulator (S n)) li lj
        = fadd (BlockPointer.bval (accumulator n) li lj)
               (fold_left
                  (fun s kk =>
                     fadd s (fmul (to_f32 (BlockPointer.bval (a n) li kk))
                                  (to_f32 (BlockPointer.bval (b n) kk lj))))
                  (arange 0 BLOCK_SIZE_K) zero))
  /\ (forall n, BlockPointer.bshape (accumulator n) = (BLOCK_SIZE_M, BLOCK_SIZE_N))
  /\ (forall n,
        mem (snd (iterations pid_m pid_n d n)) = mem d
        /\ forall addr, In (Store addr) (trace (snd (iterations pid_m pid_n d n))) ->
                        In (Store addr) (trace d))
  /\ (forall i j, In (i, j) (program_writes pid) ->
        mem (program pid d) (c_ptr + i * stride_cm + j * stride_cn)
        = to_f16 (BlockPointer.bval (accumulator count)
                    (i - pid_m * BLOCK_SIZE_M) (j - pid_n * BLOCK_SIZE_N))).
Proof.
  intros Hcn Hcm pid_m pid_n accumulator a b count.
  assert (Hst : forall n, exists acc dn,
            iterations pid_m pid_n d n
            = (acc, a_block_ptr_at pid_m n, b_block_ptr_at pid_n n, dn)
            /\ mem dn = mem d
            /\ BlockPointer.bshape acc = (BLOCK_SIZE_M, BLOCK_SIZE_N)
            /\ (forall ev, In ev (trace dn) ->
                  In ev (trace d)
                  \/ BlockPointer.input_load a_ptr b_ptr M N K
                       stride_am stride_ak stride_bk stride_bn ev)).
  { intros n.
    destruct (iterations_structure f16 f32 zero fadd fmul to_f32 to_f16 pad
                a_ptr b_ptr M N K stride_am stride_ak stride_bk stride_bn
                BLOCK_SIZE_M BLOCK_SIZE_N BLOCK_SIZE_K pid_m pid_n d n)
      as (acc & dn & E & Hm & Hs & Ht & _).
    exists acc, dn. tauto. }
  split; [reflexivity|]. split; [reflexivity|].
  split; [|split; [|split]].
  - intros n li lj. subst accumulator a b. cbn beta.
    destruct (Hst n) as (acc & dn & E & Hm & _).
    rewrite iterations_S, E, k_body_eq. cbn [fst snd].
    unfold BlockPointer.block_add at 1. cbn [BlockPointer.bval].
    f_equal.
    unfold BlockPointer.dot, BlockPointer.load_block.
    cbn [fst snd BlockPointer.bval BlockPointer.bshape BlockPointer.block_shape
         BlockPointer.a_block_ptr_at mem].
    rewrite Hm. reflexivity.
  - intros n. subst accumulator. cbn beta.
    destruct (Hst n) as (acc & dn & E & _ & Hs & _). rewrite E. exact Hs.
  - intros n. destruct (Hst n) as (acc & dn & E & Hm & _ & Ht).
    rewrite E. cbn [snd]. split; [exact Hm|].
    intros addr H. apply Ht in H.
    destruct H as [H|(x & Hx & _)]; [exact H|discriminate].
  - intros i j Hin.
    apply (program_own f16 f32 zero fadd fmul to_f32 to_f16 pad
             a_ptr b_ptr c_ptr M N K stride_am stride_ak stride_bk stride_bn
             stride_cm stride_cn BLOCK_SIZE_M BLOCK_SIZE_N BLOCK_SIZE_K
             GROUP_SIZE_M pid i j d Hcn Hcm Hin).
Qed.

End KernelTheorems.

(** ** Groups of programs *)



(** ** More on the [matmul] wrapper and the unit test *)

Lemma fresh_contiguous (p M N : Z) :
  0 <= M -> 0 <= N ->
  BlockPointer.is_contiguous (BlockPointer.Tensor p (M, N) (Z.max N 1, 1)) = true.
Proof.
  intros HM HN. unfold BlockPointer.is_contiguous. simpl.
  destruct (Z.eqb_spec (M * N) 0) as [E|E]; [reflexivity|].
  rewrite orb_true_r. simpl.
  destruct (Z.eqb_spec N 1) as [->|HN1].
  - simpl. apply orb_true_r.
  - assert (Z.max N 1 = N) as -> by nia.
    rewrite Z.eqb_refl. apply orb_true_r.
Qed.

Lemma allclose_refl {elt : Type} (isclose : elt -> elt -> bool) (l : list elt) :
  (forall v, isclose v v = true) ->
  BlockPointer.allclose elt isclose l l = true.
Proof.
  intros H. unfold BlockPointer.allclose.
  induction l as [|v l IH]; simpl; [reflexivity|]. rewrite H. exact IH.
Qed.

Section WrapperFurther.

Variable f16 f32 : Type.
Variable zero : f32.
Variable fadd fmul : f32 -> f32 -> f32.
Variable to_f32 : f16 -> f32.
Variable to_f16 : f32 -> f16.
Variable pad : f16.
Variable torch_matmul :
  (Z -> f16) -> BlockPointer.tensor -> BlockPointer.tensor -> list f16.
Variable isclose : f16 -> f16 -> bool.
Variable repr : list f16 -> string.

Local Abbreviation kernel :=
  (BlockPointer.matmul_kernel_with_block_pointers
     f16 f32 zero fadd fmul to_f32 to_f16 pad).
Local Abbreviation matmul :=
  (BlockPointer.matmul f16 f32 zero fadd fmul to_f32 to_f16 pad).
Local Abbreviation matrix_product :=
  (BlockPointer.matrix_product f16 f32 zero fadd fmul to_f32 to_f16).
Local Abbreviation unit_test :=
  (BlockPointer.unit_test f16 f32 zero fadd fmul to_f32 to_f16 pad
     torch_matmul isclose repr).

(** Below the allocation mark a successful call changes nothing. *)
Lemma matmul_done_frame (bench : BlockPointer.Config -> Z)
    (a b : BlockPointer.tensor) (h : BlockPointer.host f16) (addr : Z) :
  snd (BlockPointer.shape a) = fst (BlockPointer.shape b) ->
  BlockPointer.is_contiguous a = true ->
  BlockPointer.is_contiguous b = true ->
  addr < BlockPointer.brk f16 h ->
  mem (BlockPointer.dev f16 (snd (matmul bench a b h))) addr
  = mem (BlockPointer.dev f16 h) addr.
Proof.
  intros Hs Ha Hb Haddr.
  pose proof (matmul_done f16 f32 zero fadd fmul to_f32 to_f16 pad
                bench a b h Hs Ha Hb) as E.
  cbn zeta in E. rewrite E. cbn [snd BlockPointer.dev].
  apply launch_frame. intros p d _. apply program_frame.
  intros Hc. apply fresh_above in Hc. lia.
Qed.

(** The entries of the output of a successful call. *)
Lemma matmul_done_entries (bench : BlockPointer.Config -> Z)
    (a b : BlockPointer.tensor) (h : BlockPointer.host f16) (i j : Z) :
  (forall x, fadd x zero = x) ->
  (forall x y z, fadd x (fadd y z) = fadd (fadd x y) z) ->
  fmul (to_f32 pad) (to_f32 pad) = zero ->
  snd (BlockPointer.shape a) = fst (BlockPointer.shape b) ->
  BlockPointer.is_contiguous a = true ->
  BlockPointer.is_contiguous b = true ->
  0 <= snd (BlockPointer.shape a) -> 0 <= snd (BlockPointer.shape b) ->
  BlockPointer.allocated f16 h a -> BlockPointer.allocated f16 h b ->
  BlockPointer.cache_ok (BlockPointer.cache f16 h) ->
  0 <= i < fst (BlockPointer.shape a) -> 0 <= j < snd (BlockPointer.shape b) ->
  mem (BlockPointer.dev f16 (snd (matmul bench a b h)))
      (BlockPointer.brk f16 h + i * Z.max (snd (BlockPointer.shape b)) 1 + j * 1)
  = matrix_product (mem (BlockPointer.dev f16 h)) a b i j.
Proof.
  intros Hzero Hassoc Hpad Hs Ha Hb HK HN Halloc_a Halloc_b Hcache Hi Hj.
  pose proof (matmul_done f16 f32 zero fadd fmul to_f32 to_f16 pad
                bench a b h Hs Ha Hb) as E.
  cbn zeta in E. rewrite E. cbn [snd BlockPointer.dev]. clear E.
  destruct (autotune_in_configs bench
              (BlockPointer.key_values (fst (BlockPointer.shape a))
                 (snd (BlockPointer.shape b)) (fst (BlockPointer.shape b)))
              (BlockPointer.cache f16 h) Hcache) as [Hin _].
  destruct (configs_positive _ Hin) as (HBM & HBN & HBK & HG).
  unfold BlockPointer.allocated in Halloc_a, Halloc_b.
  unfold BlockPointer.matrix_product.
  destruct a as [ap [aM aK] [sam sak]]. destruct b as [bp [bK bN] [sbk sbn]].
  cbn [BlockPointer.shape BlockPointer.stride BlockPointer.data_ptr fst snd] in *.
  subst bK.
  apply (launch_product f16 f32 zero fadd fmul to_f32 to_f16 pad
           ap bp (BlockPointer.brk f16 h) aM bN aK sam sak sbk sbn
           (Z.max bN 1) 1 _ _ _ _ Hzero Hpad Hassoc);
    try assumption; try lia.
  intros addr Hc. apply fresh_above in Hc. split; intros Hx.
  - apply Halloc_a in Hx. lia.
  - apply Halloc_b in Hx. lia.
Qed.

(** X6.  Empty outputs.  When the assertions pass and [M = 0] or [N = 0], the
    grid is empty: [matmul] returns a tensor of shape [(M, N)] at the
    allocation mark, and neither the device (memory and accesses) nor the
    allocation mark changes. *)
Theorem matmul_empty_output (bench : BlockPointer.Config -> Z)
    (a b : BlockPointer.tensor) (h : BlockPointer.host f16) :
  snd (BlockPointer.shape a) = fst (BlockPointer.shape b) ->
  BlockPointer.is_contiguous a = true ->
  BlockPointer.is_contiguous b = true ->
  BlockPointer.cache_ok (BlockPointer.cache f16 h) ->
  fst (BlockPointer.shape a) = 0 \/ snd (BlockPointer.shape b) = 0 ->
  fst (matmul bench a b h)
  = Done (BlockPointer.Tensor (BlockPointer.brk f16 h)
            (fst (BlockPointer.shape a), snd (BlockPointer.shape b))
            (Z.max (snd (BlockPointer.shape b)) 1, 1))
  /\ BlockPointer.dev f16 (snd (matmul bench a b h)) = BlockPointer.dev f16 h
  /\ BlockPointer.brk f16 (snd (matmul bench a b h)) = BlockPointer.brk f16 h.
Proof.
  intros Hs Ha Hb Hcache Hempty.
  pose proof (matmul_done f16 f32 zero fadd fmul to_f32 to_f16 pad
                bench a b h Hs Ha Hb) as E.
  cbn zeta in E. rewrite E. cbn [fst snd BlockPointer.dev BlockPointer.brk].
  destruct (autotune_in_configs bench
              (BlockPointer.key_values (fst (BlockPointer.shape a))
                 (snd (BlockPointer.shape b)) (fst (BlockPointer.shape b)))
              (BlockPointer.cache f16 h) Hcache) as [Hin _].
  destruct (configs_positive _ Hin) as (HBM & HBN & _ & _).
  set (META := fst (BlockPointer.autotune bench
                      (BlockPointer.key_values (fst (BlockPointer.shape a))
                         (snd (BlockPointer.shape b)) (fst (BlockPointer.shape b)))
                      (BlockPointer.cache f16 h))) in *.
  clearbody META.
  split; [reflexivity|]. split; [|destruct Hempty as [-> | ->]; lia].
  assert (Hzero : forall y, 0 < y -> cdiv 0 y = 0).
  { intros y Hy. unfold cdiv. apply Z.div_small. lia. }
  assert (Hgrid : cdiv (fst (BlockPointer.shape a)) (BlockPointer.BLOCK_SIZE_M META)
                  * cdiv (snd (BlockPointer.shape b)) (BlockPointer.BLOCK_SIZE_N META)
                  = 0).
  { destruct Hempty as [-> | ->]; rewrite Hzero by assumption; lia. }
  rewrite Hgrid. unfold launch. rewrite arange_empty by lia. reflexivity.
Qed.

(** X7.  The output can be multiplied again.  After a successful call on tensors
    of non-negative sizes, the output is contiguous and allocated in the new
    host state, earlier tensors stay allocated, the cache still holds
    declared configurations, and a further [matmul] of the output with any
    contiguous matrix of matching inner size does not raise. *)
Theorem matmul_output_reusable (bench : BlockPointer.Config -> Z)
    (a b : BlockPointer.tensor) (h : BlockPointer.host f16) :
  snd (BlockPointer.shape a) = fst (BlockPointer.shape b) ->
  BlockPointer.is_contiguous a = true ->
  BlockPointer.is_contiguous b = true ->
  0 <= fst (BlockPointer.shape a) -> 0 <= snd (BlockPointer.shape b) ->
  BlockPointer.cache_ok (BlockPointer.cache f16 h) ->
  exists c h',
    matmul bench a b h = (Done c, h')
    /\ BlockPointer.is_contiguous c = true
    /\ BlockPointer.allocated f16 h' c
    /\ (forall t, BlockPointer.allocated f16 h t -> BlockPointer.allocated f16 h' t)
    /\ BlockPointer.cache_ok (BlockPointer.cache f16 h')
    /\ (forall bench' b2,
          snd (BlockPointer.shape c) = fst (BlockPointer.shape b2) ->
          BlockPointer.is_contiguous b2 = true ->
          exists c2 h2,
            matmul bench' c b2 h' = (Done c2, h2)
            /\ BlockPointer.shape c2
               = (fst (BlockPointer.shape a), snd (BlockPointer.shape b2))).
Proof.
  intros Hs Ha Hb HM HN Hcache.
  pose proof (matmul_done f16 f32 zero fadd fmul to_f32 to_f16 pad
                bench a b h Hs Ha Hb) as E.
  cbn zeta in E.
  destruct (autotune_in_configs bench
              (BlockPointer.key_values (fst (BlockPointer.shape a))
                 (snd (BlockPointer.shape b)) (fst (BlockPointer.shape b)))
              (BlockPointer.cache f16 h) Hcache) as [_ Hcache'].
  destruct (matmul bench a b h) as [r h'] eqn:Em.
  injection E as Er Eh.
  exists (BlockPointer.Tensor (BlockPointer.brk f16 h)
            (fst (BlockPointer.shape a), snd (BlockPointer.shape b))
            (Z.max (snd (BlockPointer.shape b)) 1, 1)), h'.
  assert (Hc : BlockPointer.is_contiguous
                 (BlockPointer.Tensor (BlockPointer.brk f16 h)
                    (fst (BlockPointer.shape a), snd (BlockPointer.shape b))
                    (Z.max (snd (BlockPointer.shape b)) 1, 1)) = true)
    by (apply fresh_contiguous; assumption).
  assert (Hbrk : BlockPointer.brk f16 h'
                 = BlockPointer.brk f16 h
                   + fst (BlockPointer.shape a) * snd (BlockPointer.shape b))
    by (rewrite Eh; reflexivity).
  assert (Hch : BlockPointer.cache f16 h'
                = snd (BlockPointer.autotune bench
                         (BlockPointer.key_values (fst (BlockPointer.shape a))
                            (snd (BlockPointer.shape b)) (fst (BlockPointer.shape b)))
                         (BlockPointer.cache f16 h)))
    by (rewrite Eh; reflexivity).
  split; [rewrite Er; reflexivity|].
  split; [exact Hc|]. split; [|split; [|split]].
  - intros addr Hin. cbn [BlockPointer.data_ptr BlockPointer.shape BlockPointer.stride]
      in Hin. apply fresh_above in Hin. lia.
  - intros t Ht addr Hin. apply Ht in Hin. nia.
  - rewrite Hch. exact Hcache'.
  - intros bench' b2 Hs2 Hb2.
    pose proof (matmul_done f16 f32 zero fadd fmul to_f32 to_f16 pad
                  bench' _ b2 h' Hs2 Hc Hb2) as E2.
    cbn zeta in E2. eexists _, _. split; [exact E2|]. reflexivity.
Qed.


End WrapperFurther.

(** ** What [matmul] returns *)

Section ProductTheorems.

Variable f16 f32 : Type.
Variable zero : f32.
Variable fadd fmul : f32 -> f32 -> f32.
Variable to_f32 : f16 -> f32.
Variable to_f16 : f32 -> f16.
Variable pad : f16.

Local Abbreviation matmul :=
  (BlockPointer.matmul f16 f32 zero fadd fmul to_f32 to_f16 pad).
Local Abbreviation matrix_product :=
  (BlockPointer.matrix_product f16 f32 zero fadd fmul to_f32 to_f16).
Local Abbreviation accumulated_entry :=
  (BlockPointer.accumulated_entry f16 f32 zero fadd fmul to_f32 pad).

(** The entries of the output of a successful call, with no assumption on
    the arithmetic. *)
Lemma matmul_done_accumulated (bench : BlockPointer.Config -> Z)
    (a b : BlockPointer.tensor) (h : BlockPointer.host f16) (i j : Z) :
  snd (BlockPointer.shape a) = fst (BlockPointer.shape b) ->
  BlockPointer.is_contiguous a = true ->
  BlockPointer.is_contiguous b = true ->
  0 <= snd (BlockPointer.shape b) ->
  BlockPointer.allocated f16 h a -> BlockPointer.allocated f16 h b ->
  BlockPointer.cache_ok (BlockPointer.cache f16 h) ->
  0 <= i < fst (BlockPointer.shape a) -> 0 <= j < snd (BlockPointer.shape b) ->
  mem (BlockPointer.dev f16 (snd (matmul bench a b h)))
      (BlockPointer.brk f16 h + i * Z.max (snd (BlockPointer.shape b)) 1 + j * 1)
  = to_f16 (accumulated_entry (mem (BlockPointer.dev f16 h))
              (BlockPointer.data_ptr a) (BlockPointer.data_ptr b)
              (snd (BlockPointer.shape a))
              (BlockPointer.stride a) (BlockPointer.stride b)
              (BlockPointer.BLOCK_SIZE_K
                 (BlockPointer.selected_config f16 bench
                    (fst (BlockPointer.shape a)) (snd (BlockPointer.shape b))
                    (fst (BlockPointer.shape b)) h))
              i j).
Proof.
  intros Hs Ha Hb HN Halloc_a Halloc_b Hcache Hi Hj.
  pose proof (matmul_done f16 f32 zero fadd fmul to_f32 to_f16 pad
                bench a b h Hs Ha Hb) as E.
  cbn zeta in E. rewrite E. cbn [snd BlockPointer.dev]. clear E.
  unfold BlockPointer.selected_config.
  destruct (autotune_in_configs bench
              (BlockPointer.key_values (fst (BlockPointer.shape a))
                 (snd (BlockPointer.shape b)) (fst (BlockPointer.shape b)))
              (BlockPointer.cache f16 h) Hcache) as [Hin _].
  destruct (configs_positive _ Hin) as (HBM & HBN & HBK & HG).
  unfold BlockPointer.allocated in Halloc_a, Halloc_b.
  destruct a as [ap [aM aK] [sam sak]]. destruct b as [bp [bK bN] [sbk sbn]].
  cbn [BlockPointer.shape BlockPointer.stride BlockPointer.data_ptr fst snd] in *.
  subst bK. unfold launch.
  apply (run_accumulated f16 f32 zero fadd fmul to_f32 to_f16 pad
           ap bp (BlockPointer.brk f16 h) aM bN aK sam sak sbk sbn
           (Z.max bN 1) 1);
    try assumption; try lia.
  - intros addr Hc. apply fresh_above in Hc. intros [Hx|Hx].
    + apply Halloc_a in Hx. lia.
    + apply Halloc_b in Hx. lia.
  - intros p. apply In_arange.
Qed.


End ProductTheorems.

(** ** Configurations *)

Section Configurations.

Variable f16 f32 : Type.
Variable zero : f32.
Variable fadd fmul : f32 -> f32 -> f32.
Variable to_f32 : f16 -> f32.
Variable to_f16 : f32 -> f16.
Variable pad : f16.

Local Abbreviation kernel :=
  (BlockPointer.matmul_kernel_with_block_pointers
     f16 f32 zero fadd fmul to_f32 to_f16 pad).


End Configurations.

(** ** The default-path cell *)

Lemma combine_diag {X : Type} (l : list X) : combine l l = map (fun v => (v, v)) l.
Proof. induction l as [|v l IH]; simpl; [reflexivity|]. rewrite IH. reflexivity. Qed.

Lemma fold_left_idem {X Y : Type} (op : X -> X -> X) (z : X) (l : list Y) :
  op z z = z -> fold_left op (map (fun _ => z) l) z = z.
Proof.
  intros H. induction l as [|v l IH]; simpl; [reflexivity|]. rewrite H. exact IH.
Qed.

Section DefaultPath.

Variable t32 : Type.
Variable asin : t32 -> t32.
Variable undef : t32.
Variable torch_asin : t32 -> t32.
Variable tsub : t32 -> t32 -> t32.
Variable tabs : t32 -> t32.
Variable tmax : t32 -> t32 -> t32.
Variable trepr : list t32 -> string.
Variable fmt : t32 -> string.

Local Abbreviation default_path :=
  (Libdevice.default_path t32 asin undef torch_asin tsub tabs tmax trepr fmt).

(** The values of the output tensor after the launch of the cell. *)
Lemma asin_launch_values (x out : Libdevice.tensor) (d : device t32) :
  Libdevice.numel out = Libdevice.numel x ->
  Libdevice.numel x < 2 ^ 31 ->
  (forall i j, 0 <= i < Libdevice.numel x -> 0 <= j < Libdevice.numel x -> i <> j ->
               Libdevice.data_ptr x + i <> Libdevice.data_ptr out + j) ->
  Libdevice.values t32
    (Libdevice.asin_launch t32 asin undef (Libdevice.data_ptr x)
       (Libdevice.data_ptr out) (Libdevice.numel x) 1024 d) out
  = map asin (Libdevice.values t32 d x).
Proof.
  intros Hn Hsize Hdisj. unfold Libdevice.values. rewrite Hn, map_map.
  apply map_ext_in. intros i Hi. apply In_arange in Hi.
  unfold Libdevice.asin_launch, launch.
  apply asin_run_value; try assumption; try lia.
  - exists (2 ^ 20). reflexivity.
  - apply NoDup_arange.
  - intros p. apply In_arange.
Qed.

(** X12.  The self-check reports no difference.  On device tensors of equal
    size, non-zero and below [2^31], that are the same buffer or do not
    overlap, if the device [asin] agrees with the reference and the
    difference of a value with itself has absolute value [z] with
    [max(z, z) = z], the cell prints the reference tensor twice and the
    maximum difference [z]. *)
Theorem default_path_reports_zero (x out : Libdevice.tensor) (d : device t32) (z : t32) :
  Libdevice.is_cuda x = true -> Libdevice.is_cuda out = true ->
  Libdevice.numel out = Libdevice.numel x ->
  0 < Libdevice.numel x < 2 ^ 31 ->
  (forall i j, 0 <= i < Libdevice.numel x -> 0 <= j < Libdevice.numel x -> i <> j ->
               Libdevice.data_ptr x + i <> Libdevice.data_ptr out + j) ->
  (forall v, asin v = torch_asin v) ->
  (forall v, tabs (tsub v v) = z) -> tmax z z = z ->
  let output_torch := map torch_asin (Libdevice.values t32 d x) in
  fst (default_path x out d)
  = Done [trepr output_torch; trepr output_torch;
          ("The maximum difference between torch and triton is " ++ fmt z)%string].
Proof.
  intros Hx Ho Hn Hpos Hdisj Hasin Hz Hmax output_torch.
  unfold Libdevice.default_path, Libdevice.asin_kernel_call.
  rewrite Hx, Ho. cbn [andb negb].
  unfold Libdevice.compare_and_print.
  rewrite (asin_launch_values x out d Hn ltac:(lia) Hdisj).
  rewrite (map_ext asin torch_asin Hasin). fold output_torch.
  unfold Libdevice.max_difference_message, Libdevice.tensor_sub.
  rewrite combine_diag, !map_map. cbn [fst snd].
  rewrite (map_ext (fun v => tabs (tsub v v)) (fun _ => z) Hz).
  assert (Hne : output_torch <> []).
  { subst output_torch. apply map_nonempty. unfold Libdevice.values.
    apply map_nonempty. apply arange_nonempty. lia. }
  destruct output_torch as [|v l]; [contradiction|].
  cbn [map Libdevice.torch_max]. rewrite fold_left_idem by exact Hmax.
  reflexivity.
Qed.

End DefaultPath.

(** ** Instances of the further properties *)

Lemma sample_outputs_apart (addr : Z) :
  BlockPointer.in_tensor 18 (3, 3) (3, 1) addr ->
  ~ BlockPointer.in_tensor 0 (3, 3) (3, 1) addr
  /\ ~ BlockPointer.in_tensor 9 (3, 3) (3, 1) addr.
Proof.
  intros (i & j & Hi & Hj & ->). simpl in *.
  split; intros (i' & j' & Hi' & Hj' & E); simpl in *; lia.
Qed.

Lemma matmul_schedule_independent_witness :
  0 < 2 /\ 0 <= 3 /\ 1 = 1 /\ 3 <= 3
  /\ (forall p, In p [3; 1; 2; 0; 1] <-> 0 <= p < cdiv 3 2 * cdiv 3 2)
  /\ mem (run_programs [3; 1; 2; 0; 1] Sample.program Sample.d0) (18 + 2 * 3 + 2 * 1)
     = mem (launch (cdiv 3 2 * cdiv 3 2) Sample.program Sample.d0) (18 + 2 * 3 + 2 * 1).
Proof.
  assert (H1 : 0 < 2) by lia.
  assert (H2 : 0 <= 3) by lia.
  assert (H3 : 1 = 1) by reflexivity.
  assert (H4 : 3 <= 3) by lia.
  assert (H5 : forall p, In p [3; 1; 2; 0; 1] <-> 0 <= p < cdiv 3 2 * cdiv 3 2).
  { intros p. change (cdiv 3 2 * cdiv 3 2) with 4. simpl. lia. }
  split; [exact H1|]. split; [exact H2|]. split; [exact H3|]. split; [exact H4|].
  split; [exact H5|].
  destruct (matmul_schedule_independent Z Z 0 Z.add Z.mul (fun x => x) (fun x => x) 0
              0 9 18 3 3 3 3 1 3 1 3 1 2 2 2 2 [3; 1; 2; 0; 1] Sample.d0
              H1 H1 H1 H2 H3 H4 sample_outputs_apart H5) as [Hc _].
  apply Hc; lia.
Defined.



Lemma sample_cache_ok : BlockPointer.cache_ok (BlockPointer.cache Z Sample.h).
Proof. intros k c Hc. simpl in Hc. rewrite lookup_empty in Hc. discriminate. Qed.

Lemma matmul_empty_output_witness :
  snd (BlockPointer.shape (BlockPointer.Tensor 0 (0, 3) (3, 1)))
  = fst (BlockPointer.shape Sample.b)
  /\ BlockPointer.is_contiguous (BlockPointer.Tensor 0 (0, 3) (3, 1)) = true
  /\ BlockPointer.is_contiguous Sample.b = true
  /\ BlockPointer.cache_ok (BlockPointer.cache Z Sample.h)
  /\ BlockPointer.dev Z
       (snd (Sample.matmul Sample.bench (BlockPointer.Tensor 0 (0, 3) (3, 1))
               Sample.b Sample.h))
     = BlockPointer.dev Z Sample.h.
Proof.
  assert (H1 : snd (BlockPointer.shape (BlockPointer.Tensor 0 (0, 3) (3, 1)))
               = fst (BlockPointer.shape Sample.b)) by reflexivity.
  assert (H2 : BlockPointer.is_contiguous (BlockPointer.Tensor 0 (0, 3) (3, 1)) = true)
    by reflexivity.
  assert (H3 : BlockPointer.is_contiguous Sample.b = true) by reflexivity.
  split; [exact H1|]. split; [exact H2|]. split; [exact H3|].
  split; [exact sample_cache_ok|].
  destruct (matmul_empty_output Z Z 0 Z.add Z.mul (fun x => x) (fun x => x) 0
              Sample.bench (BlockPointer.Tensor 0 (0, 3) (3, 1)) Sample.b Sample.h
              H1 H2 H3 sample_cache_ok (or_introl eq_refl)) as (_ & Hd & _).
  exact Hd.
Defined.

Lemma matmul_output_reusable_witness :
  snd (BlockPointer.shape Sample.a) = fst (BlockPointer.shape Sample.b)
  /\ BlockPointer.is_contiguous Sample.a = true
  /\ BlockPointer.is_contiguous Sample.b = true
  /\ 0 <= fst (BlockPointer.shape Sample.a)
  /\ 0 <= snd (BlockPointer.shape Sample.b)
  /\ BlockPointer.cache_ok (BlockPointer.cache Z Sample.h)
  /\ exists c h', Sample.matmul Sample.bench Sample.a Sample.b Sample.h = (Done c, h')
                  /\ BlockPointer.is_contiguous c = true.
Proof.
  assert (H1 : snd (BlockPointer.shape Sample.a) = fst (BlockPointer.shape Sample.b))
    by reflexivity.
  assert (H2 : BlockPointer.is_contiguous Sample.a = true) by reflexivity.
  assert (H3 : BlockPointer.is_contiguous Sample.b = true) by reflexivity.
  assert (H4 : 0 <= fst (BlockPointer.shape Sample.a)) by (simpl; lia).
  assert (H5 : 0 <= snd (BlockPointer.shape Sample.b)) by (simpl; lia).
  repeat (split; [assumption|]). split; [exact sample_cache_ok|].
  destruct (matmul_output_reusable Z Z 0 Z.add Z.mul (fun x => x) (fun x => x) 0
              Sample.bench Sample.a Sample.b Sample.h H1 H2 H3 H4 H5 sample_cache_ok)
    as (c & h' & E & Hc & _).
  exists c, h'. split; [exact E|exact Hc].
Defined.

Lemma sample_allocated :
  BlockPointer.allocated Z Sample.h Sample.a
  /\ BlockPointer.allocated Z Sample.h Sample.b.
Proof.
  split; intros addr (i & j & Hi & Hj & ->); simpl in *; lia.
Qed.




(** ** Instances of the theorems on the two notebooks *)



Lemma asin_kernel_tail_unchanged_witness :
  0 < 4
  /\ mem (Libdevice.asin_launch Z Z.succ 0 0 10 5 4 Sample.d0) (10 + 5)
     = mem Sample.d0 (10 + 5).
Proof.
  assert (H1 : 0 < 4) by lia.
  split; [exact H1|].
  destruct (asin_kernel_tail_unchanged Z Z.succ 0 0 10 5 4 Sample.d0 H1)
    as (Ht & _).
  apply Ht. lia.
Defined.


Lemma accumulate_f32_store_f16_witness :
  1 = 1 /\ 3 <= 3
  /\ mem (Sample.program 3 Sample.d0) (18 + 2 * 3 + 2 * 1) = 300.
Proof.
  assert (H1 : 1 = 1) by reflexivity.
  assert (H2 : 3 <= 3) by lia.
  split; [exact H1|]. split; [exact H2|].
  destruct (accumulate_f32_store_f16 Z Z 0 Z.add Z.mul (fun x => x) (fun x => x) 0
              0 9 18 3 3 3 3 1 3 1 3 1 2 2 2 2 3 Sample.d0 H1 H2)
    as (_ & _ & _ & _ & _ & Hst).
  unfold Sample.program. rewrite (Hst 2 2).
  - vm_compute. reflexivity.
  - vm_compute. tauto.
Defined.



(** The last cell of the [asin] notebook on a device tensor: whether the
    kernel's output differs from the reference in every element or in none,
    the cell prints the two tensors and a number; no line is the pass or
    the fail message. *)
Lemma asin_cell_prints_a_number :
  Libdevice.is_cuda Sample.x_gpu = true
  /\ fst (Sample.custom_path Z.succ (fun v => v + 2) Sample.x_gpu 4 Sample.d0)
     = Done ["tensor";
             "tensor";
             "The maximum difference between torch and triton is 1"]%string
  /\ fst (Sample.custom_path Z.succ Z.succ Sample.x_gpu 4 Sample.d0)
     = Done ["tensor";
             "tensor";
             "The maximum difference between torch and triton is 0"]%string
  /\ ~ In BlockPointer.match_message
          ["tensor";
           "tensor";
           "The maximum difference between torch and triton is 0"]%string
  /\ ~ In BlockPointer.differ_message
          ["tensor";
           "tensor";
           "The maximum difference between torch and triton is 1"]%string.
Proof.
  split; [reflexivity|]. split; [vm_compute; reflexivity|].
  split; [vm_compute; reflexivity|].
  split; intros [H|[H|[H|[]]]]; discriminate.
Qed.

Lemma asin_in_place_any_order_witness :
  0 < 4 /\ Z.divide 4 (2 ^ 30) /\ 5 < 2 ^ 31
  /\ (forall i j, 0 <= i < 5 -> 0 <= j < 5 -> i <> j -> 7 + i <> 7 + j)
  /\ List.NoDup [1; 0]
  /\ (forall p, In p [1; 0] <-> 0 <= p < Libdevice.grid 5 4)
  /\ mem (run_programs [1; 0] (Libdevice.asin_kernel Z Z.succ 0 7 7 5 4) Sample.d0)
         (7 + 2)
     = Z.succ (mem Sample.d0 (7 + 2)).
Proof.
  assert (H1 : 0 < 4) by lia.
  assert (Hd : Z.divide 4 (2 ^ 30)) by (exists (2 ^ 28); reflexivity).
  assert (Hs : 5 < 2 ^ 31) by lia.
  assert (H2 : forall i j, 0 <= i < 5 -> 0 <= j < 5 -> i <> j -> 7 + i <> 7 + j)
    by (intros; lia).
  assert (H3 : List.NoDup [1; 0]).
  { constructor; [simpl; lia|]. constructor; [simpl; tauto|constructor]. }
  assert (H4 : forall p, In p [1; 0] <-> 0 <= p < Libdevice.grid 5 4).
  { intros p. change (Libdevice.grid 5 4) with 2. simpl. lia. }
  split; [exact H1|]. split; [exact Hd|]. split; [exact Hs|]. split; [exact H2|].
  split; [exact H3|]. split; [exact H4|].
  apply (asin_in_place_any_order Z Z.succ 0 7 7 5 4 [1; 0] Sample.d0
           H1 Hd Hs H2 H3 H4).
  lia.
Defined.

Lemma asin_grid_exact_witness :
  0 < 4 /\ Z.divide 4 (2 ^ 30) /\ 0 <= 5 < 2 ^ 31
  /\ 5 <= Libdevice.grid 5 4 * 4
  /\ (Libdevice.grid 5 4 - 1) * 4 < 5 + Z.b2z (5 =? 0).
Proof.
  assert (H1 : 0 < 4) by lia.
  assert (Hd : Z.divide 4 (2 ^ 30)) by (exists (2 ^ 28); reflexivity).
  assert (H2 : 0 <= 5 < 2 ^ 31) by lia.
  split; [exact H1|]. split; [exact Hd|]. split; [exact H2|].
  destruct (asin_grid_exact Z Z.succ 0 0 10 5 4 H1 Hd H2) as (_ & Hlow & Hup & _).
  split; [exact Hup|exact Hlow].
Defined.

Lemma asin_accesses_once_witness :
  0 < 4 /\ Z.divide 4 (2 ^ 30) /\ 0 <= 5 < 2 ^ 31
  /\ List.NoDup [1; 0]
  /\ (forall p, In p [1; 0] <-> 0 <= p < Libdevice.grid 5 4)
  /\ exists accesses,
       trace (run_programs [1; 0] (Libdevice.asin_kernel Z Z.succ 0 0 10 5 4)
                Sample.d0)
       = trace Sample.d0 ++ accesses
       /\ List.NoDup accesses.
Proof.
  assert (H1 : 0 < 4) by lia.
  assert (Hd : Z.divide 4 (2 ^ 30)) by (exists (2 ^ 28); reflexivity).
  assert (H2 : 0 <= 5 < 2 ^ 31) by lia.
  assert (H3 : List.NoDup [1; 0]).
  { constructor; [simpl; lia|]. constructor; [simpl; tauto|constructor]. }
  assert (H4 : forall p, In p [1; 0] <-> 0 <= p < Libdevice.grid 5 4).
  { intros p. change (Libdevice.grid 5 4) with 2. simpl. lia. }
  split; [exact H1|]. split; [exact Hd|]. split; [exact H2|]. split; [exact H3|].
  split; [exact H4|].
  destruct (asin_accesses_once Z Z.succ 0 0 10 5 4 [1; 0] Sample.d0 H1 Hd H2 H3 H4)
    as (accesses & Ht & Hnd & _).
  exists accesses. split; [exact Ht|exact Hnd].
Defined.

Lemma default_path_reports_zero_witness :
  Libdevice.is_cuda Sample.x_gpu = true
  /\ 0 < Libdevice.numel Sample.x_gpu < 2 ^ 31
  /\ (forall v, Z.abs (v - v) = 0)
  /\ Z.max 0 0 = 0
  /\ fst (Libdevice.default_path Z Z.succ 0 Z.succ Z.sub Z.abs Z.max
            (fun _ => "tensor"%string) Sample.fmt
            Sample.x_gpu Sample.x_gpu Sample.d0)
     = Done ["tensor"; "tensor";
             "The maximum difference between torch and triton is 0"]%string.
Proof.
  assert (H1 : Libdevice.is_cuda Sample.x_gpu = true) by reflexivity.
  assert (H2 : 0 < Libdevice.numel Sample.x_gpu < 2 ^ 31) by (simpl; lia).
  assert (H3 : forall v, Z.abs (v - v) = 0) by (intros; lia).
  assert (H4 : Z.max 0 0 = 0) by reflexivity.
  repeat (split; [assumption|]).
  apply (default_path_reports_zero Z Z.succ 0 Z.succ Z.sub Z.abs Z.max
           (fun _ => "tensor"%string) Sample.fmt
           Sample.x_gpu Sample.x_gpu Sample.d0 0
           H1 H1 eq_refl H2 ltac:(simpl; intros; lia) (fun v => eq_refl) H3 H4).
Defined.
